(** * Pagila SQL analysis: the seven reports of [main.py]

    [main.py] loads eleven tables of the Pagila database as temporary views
    and hands seven SQL queries to [run_query], which evaluates each with
    [spark.sql] and prints the result.  This development embeds the seven
    queries as list functions over the loaded tables and proves properties of
    their result relations.

    A table is the list of its rows.  The relational operators of the
    queries are written once ([join], [group_by], [order_by], [limit],
    [dense_rank], [like]) and each query is assembled from them following its
    SQL text clause by clause.

    The SQL text fixes the rows of a result but not always their order: rows
    that tie under ORDER BY, and all rows of a query without ORDER BY, may
    come in any order.  Each query is therefore given twice: [query] is the
    result of one evaluation (scans in list order, nested-loop joins, groups
    in order of first occurrence, stable sorting), and [result] is the
    relation between a store and every result that the SQL text admits.

    [DataFrame.show], which prints the first 20 rows of a result, is console
    rendering; the theorems are about the result relation of each query. *)

From Stdlib Require Import ZArith List String Ascii Bool Lia.
From Stdlib Require Import Permutation Sorted.
Import ListNotations.

Local Open Scope string_scope.
Local Open Scope list_scope.
Local Open Scope Z_scope.

Set Implicit Arguments.

(* ================================================================== *)
(** * Relational operators *)
(* ================================================================== *)

(** Equality test of SQL values usable in [ON], [WHERE] and [GROUP BY]. *)
Class SqlEq (K : Type) := {
  sql_eqb : K -> K -> bool;
  sql_eqb_eq : forall x y, sql_eqb x y = true <-> x = y
}.

#[export] Instance SqlEq_Z : SqlEq Z :=
  {| sql_eqb := Z.eqb; sql_eqb_eq := Z.eqb_eq |}.

#[export] Instance SqlEq_string : SqlEq string :=
  {| sql_eqb := String.eqb; sql_eqb_eq := String.eqb_eq |}.

Lemma bool_eqb_eq (x y : bool) : Bool.eqb x y = true <-> x = y.
Proof. apply Bool.eqb_true_iff. Qed.

#[export] Instance SqlEq_bool : SqlEq bool :=
  {| sql_eqb := Bool.eqb; sql_eqb_eq := bool_eqb_eq |}.

Definition prod_eqb {K1 K2} `{SqlEq K1} `{SqlEq K2} (x y : K1 * K2) : bool :=
  sql_eqb (fst x) (fst y) && sql_eqb (snd x) (snd y).

Lemma prod_eqb_eq {K1 K2} `{SqlEq K1} `{SqlEq K2} (x y : K1 * K2) :
  prod_eqb x y = true <-> x = y.
Proof.
  unfold prod_eqb. destruct x as [a b], y as [c d]. simpl.
  rewrite andb_true_iff, !sql_eqb_eq.
  split; [intros [-> ->] | intros E; inversion E]; auto.
Qed.

#[export] Instance SqlEq_prod {K1 K2} `{SqlEq K1} `{SqlEq K2}
  : SqlEq (K1 * K2) :=
  {| sql_eqb := prod_eqb; sql_eqb_eq := prod_eqb_eq |}.

(** A nullable value: [None] is SQL's NULL; as a grouping key NULL forms a
    group of its own. *)
Definition option_eqb {K} `{SqlEq K} (x y : option K) : bool :=
  match x, y with
  | Some a, Some b => sql_eqb a b
  | None, None => true
  | _, _ => false
  end.

Lemma option_eqb_eq {K} `{SqlEq K} (x y : option K) :
  option_eqb x y = true <-> x = y.
Proof.
  destruct x as [a|], y as [b|]; simpl; try (split; congruence).
  rewrite sql_eqb_eq. split; congruence.
Qed.

#[export] Instance SqlEq_option {K} `{SqlEq K} : SqlEq (option K) :=
  {| sql_eqb := option_eqb; sql_eqb_eq := option_eqb_eq |}.

Section Operators.
Context {A B K : Type} `{SqlEq K}.

(** [l JOIN r ON on]: every pair of a row of [l] and a row of [r] that
    satisfies the [ON] predicate. *)
Definition join (on : A -> B -> bool) (l : list A) (r : list B)
  : list (A * B) :=
  flat_map (fun a => map (pair a) (filter (on a) r)) l.

(** The distinct values of a list, in order of first occurrence. *)
Fixpoint distinct (ks : list K) : list K :=
  match ks with
  | [] => []
  | k :: ks' => k :: filter (fun k' => negb (sql_eqb k' k)) (distinct ks')
  end.

(** [GROUP BY key]: one group per distinct key, holding the rows with
    that key. *)
Definition group_by (key : A -> K) (rows : list A) : list (K * list A) :=
  map (fun k => (k, filter (fun a => sql_eqb (key a) k) rows))
      (distinct (map key rows)).

(** [COUNT(col)] over a group, for a column without NULLs. *)
Definition count (rows : list A) : Z := Z.of_nat (List.length rows).

(** [SUM(e)] over a group. *)
Definition sum (e : A -> Z) (rows : list A) : Z :=
  fold_right (fun a acc => e a + acc) 0 rows.

(** [ORDER BY]: stable insertion sort; [le a b] says that [a] may come
    before [b]. *)
Fixpoint insert_sorted (le : A -> A -> bool) (a : A) (l : list A) : list A :=
  match l with
  | [] => [a]
  | b :: l' => if le a b then a :: l else b :: insert_sorted le a l'
  end.

Definition order_by (le : A -> A -> bool) (rows : list A) : list A :=
  fold_right (insert_sorted le) [] rows.

(** [out] is a result of [ORDER BY] on [rows]: the same rows, sorted; rows
    that tie may come in any order. *)
Definition ordered_by (le : A -> A -> bool) (rows out : list A) : Prop :=
  Permutation rows out /\ StronglySorted (fun a b => le a b = true) out.

(** The ordering [ORDER BY key DESC]: larger keys first. *)
Definition desc (key : A -> Z) (a b : A) : bool := key b <=? key a.

(** [LIMIT n]. *)
Definition limit (n : nat) (rows : list A) : list A := firstn n rows.

(** [DENSE_RANK() OVER (ORDER BY key DESC)] on one partition: the rows are
    sorted by [key], largest first, and numbered from 1; the number grows
    by one each time the key differs from the previous row's. *)
Fixpoint dense_rank_scan (key : A -> Z) (prev rank : Z) (rows : list A)
  : list (A * Z) :=
  match rows with
  | [] => []
  | r :: rest =>
      let rank' := if key r =? prev then rank else rank + 1 in
      (r, rank') :: dense_rank_scan key (key r) rank' rest
  end.

Definition dense_rank (key : A -> Z) (rows : list A) : list (A * Z) :=
  match order_by (desc key) rows with
  | [] => []
  | r :: rest => (r, 1) :: dense_rank_scan key (key r) 1 rest
  end.

(** [DENSE_RANK() OVER (PARTITION BY part ORDER BY key DESC)]. *)
Definition dense_rank_over (part : A -> K) (key : A -> Z) (rows : list A)
  : list (A * Z) :=
  flat_map (fun g => dense_rank key (snd g)) (group_by part rows).
End Operators.

(** The dense rank of a sort value [v] as SQL defines it, for comparison
    with [dense_rank]: the number of distinct sort values of the partition
    that are at least [v]. *)
Definition distinct_at_least (keys : list Z) (v : Z) : Z :=
  Z.of_nat (List.length (distinct (filter (fun w => v <=? w) keys))).

(** [s LIKE p]: [%] matches any run of characters, [_] any one character,
    every other character matches itself, case-sensitively.  (The patterns
    of the queries contain no escape character.) *)
Fixpoint like_chars (p : list ascii) : list ascii -> bool :=
  match p with
  | [] => fun s => match s with [] => true | _ => false end
  | c :: p' =>
      if Ascii.eqb c "%"%char then
        fix star (s : list ascii) : bool :=
          like_chars p' s
          || match s with [] => false | _ :: s' => star s' end
      else if Ascii.eqb c "_"%char then
        fun s => match s with [] => false | _ :: s' => like_chars p' s' end
      else
        fun s => match s with
                 | [] => false
                 | d :: s' => Ascii.eqb c d && like_chars p' s'
                 end
  end.

Definition like (s pattern : string) : bool :=
  like_chars (list_ascii_of_string pattern) (list_ascii_of_string s).

(** Division of an integer by a decimal literal with the quotient kept to
    six decimal places, rounded half up (away from zero), as Spark types
    [bigint / decimal(3,1)]: the result is in units of 10^-6.  [d10] is the
    divisor in tenths. *)
Definition decimal_div6 (n d10 : Z) : Z :=
  Z.sgn n * Z.sgn d10 *
  ((2 * (Z.abs n * 10000000) + Z.abs d10) / (2 * Z.abs d10)).

(* ================================================================== *)
(** * The loaded tables *)
(* ================================================================== *)

(** The schema of the eleven tables lives in the database, not in the
    repository; the rows are modelled from section 3 of the specification,
    with the columns the queries use and the column names of the queries.
    Keys are integers and no column holds NULL. *)

(** Modelled from the spec: Actor(actor_id PK, first_name, last_name), which
    the repository does not declare. *)
Module Actor.
Record t := mk { actor_id : Z; first_name : string; last_name : string }.
End Actor.

(** Modelled from the spec: Category(category_id PK, name), which the
    repository does not declare. *)
Module Category.
Record t := mk { category_id : Z; name : string }.
End Category.

(** Modelled from the spec: Film(film_id PK, title, length: minutes), which
    the repository does not declare. *)
Module Film.
Record t := mk { film_id : Z; title : string; length : Z }.
End Film.

(** Modelled from the spec: FilmActor(film_id FK, actor_id FK), which the
    repository does not declare. *)
Module FilmActor.
Record t := mk { actor_id : Z; film_id : Z }.
End FilmActor.

(** Modelled from the spec: FilmCategory(film_id FK, category_id FK), which
    the repository does not declare. *)
Module FilmCategory.
Record t := mk { film_id : Z; category_id : Z }.
End FilmCategory.

(** Modelled from the spec: Inventory(inventory_id PK, film_id FK), which
    the repository does not declare. *)
Module Inventory.
Record t := mk { inventory_id : Z; film_id : Z }.
End Inventory.

(** Modelled from the spec: Rental(rental_id PK, inventory_id FK,
    customer_id FK), which the repository does not declare. *)
Module Rental.
Record t := mk { rental_id : Z; inventory_id : Z; customer_id : Z }.
End Rental.

(** Modelled from the spec: Payment(rental_id FK, amount: decimal), which
    the repository does not declare; [amount] is in hundredths. *)
Module Payment.
Record t := mk { rental_id : Z; amount : Z }.
End Payment.

(** Modelled from the spec: Customer(customer_id PK, address_id FK, active:
    boolean), which the repository does not declare; the flag has the
    column name of query 6. *)
Module Customer.
Record t := mk { customer_id : Z; address_id : Z; activebool : bool }.
End Customer.

(** Modelled from the spec: Address(address_id PK, city_id FK), which the
    repository does not declare. *)
Module Address.
Record t := mk { address_id : Z; city_id : Z }.
End Address.

(** Modelled from the spec: City(city_id PK, city: string), which the
    repository does not declare. *)
Module City.
Record t := mk { city_id : Z; city : string }.
End City.

(** The temporary views registered by the loading loop over
    [tables_to_load]. *)
Record Store := {
  actor : list Actor.t;
  category : list Category.t;
  film : list Film.t;
  film_actor : list FilmActor.t;
  film_category : list FilmCategory.t;
  inventory : list Inventory.t;
  rental : list Rental.t;
  payment : list Payment.t;
  customer : list Customer.t;
  address : list Address.t;
  city : list City.t
}.

(** [EXISTS (subquery)]. *)
Definition exists_rows {A} (rows : list A) : bool :=
  match rows with [] => false | _ :: _ => true end.

(* ================================================================== *)
(** * The seven queries *)
(* ================================================================== *)

(** ** 1. Number of films per category *)
Module Report1.
Record row := mk { category_name : string; film_count : Z }.

Definition joined (db : Store) : list (Category.t * FilmCategory.t) :=
  join (fun c fc => Category.category_id c =? FilmCategory.category_id fc)
       (category db) (film_category db).

Definition grouped (db : Store) :=
  group_by (fun '(c, _) => Category.name c) (joined db).

Definition selected (db : Store) : list row :=
  map (fun '(name, g) =>
         mk name (count (map (fun '(_, fc) => FilmCategory.film_id fc) g)))
      (grouped db).

Definition query (db : Store) : list row :=
  order_by (desc film_count) (selected db).

Definition result (db : Store) (out : list row) : Prop :=
  ordered_by (desc film_count) (selected db) out.
End Report1.

(** ** 2. The ten actors whose films were rented most *)
Module Report2.
Record row := mk {
  actor_first_name : string; actor_last_name : string; rental_count : Z }.

Definition joined (db : Store)
  : list (Actor.t * (FilmActor.t * (Inventory.t * Rental.t))) :=
  join (fun a '(fa, _) => Actor.actor_id a =? FilmActor.actor_id fa)
    (actor db)
    (join (fun fa '(i, _) => FilmActor.film_id fa =? Inventory.film_id i)
       (film_actor db)
       (join (fun i r => Inventory.inventory_id i =? Rental.inventory_id r)
          (inventory db) (rental db))).

Definition grouped (db : Store) :=
  group_by (fun '(a, _) =>
              (Actor.actor_id a, (Actor.first_name a, Actor.last_name a)))
           (joined db).

Definition selected (db : Store) : list row :=
  map (fun '((_, (first, last)), g) =>
         mk first last
            (count (map (fun '(_, (_, (_, r))) => Rental.rental_id r) g)))
      (grouped db).

Definition query (db : Store) : list row :=
  limit 10 (order_by (desc rental_count) (selected db)).

Definition result (db : Store) (out : list row) : Prop :=
  exists sorted,
    ordered_by (desc rental_count) (selected db) sorted /\
    out = limit 10 sorted.
End Report2.

(** ** 3. The category on which most money was spent *)
Module Report3.
Record row := mk { category_name : string; total_spent : Z }.

Definition joined (db : Store)
  : list (Payment.t *
          (Rental.t * (Inventory.t * (FilmCategory.t * Category.t)))) :=
  join (fun p '(r, _) => Payment.rental_id p =? Rental.rental_id r)
    (payment db)
    (join (fun r '(i, _) => Rental.inventory_id r =? Inventory.inventory_id i)
       (rental db)
       (join (fun i '(fc, _) =>
                Inventory.film_id i =? FilmCategory.film_id fc)
          (inventory db)
          (join (fun fc c =>
                   FilmCategory.category_id fc =? Category.category_id c)
             (film_category db) (category db)))).

Definition grouped (db : Store) :=
  group_by (fun '(_, (_, (_, (_, c)))) => Category.name c) (joined db).

Definition selected (db : Store) : list row :=
  map (fun '(name, g) => mk name (sum (fun '(p, _) => Payment.amount p) g))
      (grouped db).

Definition query (db : Store) : list row :=
  limit 1 (order_by (desc total_spent) (selected db)).

Definition result (db : Store) (out : list row) : Prop :=
  exists sorted,
    ordered_by (desc total_spent) (selected db) sorted /\
    out = limit 1 sorted.
End Report3.

(** ** 4. Titles of the films that are not in the inventory *)
Module Report4.
(** The correlated subquery
    [SELECT 1 FROM inventory WHERE inventory.film_id = film.film_id]. *)
Definition subquery (db : Store) (f : Film.t) : list Z :=
  map (fun _ => 1)
      (filter (fun i => Inventory.film_id i =? Film.film_id f)
              (inventory db)).

(** The film rows that pass [WHERE NOT EXISTS (...)]. *)
Definition kept (db : Store) : list Film.t :=
  filter (fun f => negb (exists_rows (subquery db f))) (film db).

Definition query (db : Store) : list string :=
  map Film.title (kept db).

(** The query has no ORDER BY. *)
Definition result (db : Store) (out : list string) : Prop :=
  Permutation (map Film.title (kept db)) out.
End Report4.

(** ** 5. The top three actors of the category 'Children' *)
Module Report5.
(** A row of the subquery [actor_film_counts]. *)
Record counts_row := mk_counts {
  c_actor_id : Z; c_first_name : string; c_last_name : string;
  c_film_count : Z }.

(** A row of the result, and (paired with [rnk]) of [ranked_actors]. *)
Record row := mk { first_name : string; last_name : string; film_count : Z }.

Definition joined (db : Store)
  : list (Actor.t * (FilmActor.t * (FilmCategory.t * Category.t))) :=
  join (fun a '(fa, _) => Actor.actor_id a =? FilmActor.actor_id fa)
    (actor db)
    (join (fun fa '(fc, _) =>
             FilmActor.film_id fa =? FilmCategory.film_id fc)
       (film_actor db)
       (join (fun fc c =>
                FilmCategory.category_id fc =? Category.category_id c)
          (film_category db) (category db))).

Definition filtered (db : Store) :=
  filter (fun '(_, (_, (_, c))) => String.eqb (Category.name c) "Children")
         (joined db).

Definition grouped (db : Store) :=
  group_by (fun '(a, _) =>
              (Actor.actor_id a, (Actor.first_name a, Actor.last_name a)))
           (filtered db).

Definition actor_film_counts (db : Store) : list counts_row :=
  map (fun '((id, (first, last)), g) =>
         mk_counts id first last
           (count (map (fun '(_, (fa, _)) => FilmActor.film_id fa) g)))
      (grouped db).

(** [SELECT first_name, last_name, film_count] of a row of
    [actor_film_counts]. *)
Definition project (c : counts_row) : row :=
  mk (c_first_name c) (c_last_name c) (c_film_count c).

(** [ranked_actors]: each row with its [rnk]. *)
Definition ranked_actors (db : Store) : list (row * Z) :=
  map (fun '(c, rnk) => (project c, rnk))
      (dense_rank c_film_count (actor_film_counts db)).

(** [ORDER BY film_count DESC, first_name]. *)
Definition display_le (r1 r2 : row) : bool :=
  (film_count r2 <? film_count r1)
  || ((film_count r1 =? film_count r2)
      && String.leb (first_name r1) (first_name r2)).

Definition query (db : Store) : list row :=
  order_by display_le
    (map fst (filter (fun '(_, rnk) => rnk <=? 3) (ranked_actors db))).

Definition result (db : Store) (out : list row) : Prop :=
  ordered_by display_le
    (map fst (filter (fun '(_, rnk) => rnk <=? 3) (ranked_actors db))) out.
End Report5.

(** ** 6. Active and inactive customers per city *)
Module Report6.
Definition joined (db : Store)
  : list (City.t * Address.t * Customer.t) :=
  join (fun '(_, a) cu => Address.address_id a =? Customer.address_id cu)
    (join (fun c a => City.city_id c =? Address.city_id a)
       (city db) (address db))
    (customer db).

Definition grouped (db : Store) :=
  group_by (fun '(c, _, _) => City.city c) (joined db).

Record row := mk {
  city : string; active_customers : Z; inactive_customers : Z }.

Definition selected (db : Store) : list row :=
  map (fun '(name, g) =>
         mk name
           (sum (fun '(_, _, cu) =>
                   if sql_eqb (Customer.activebool cu) true then 1 else 0) g)
           (sum (fun '(_, _, cu) =>
                   if sql_eqb (Customer.activebool cu) false then 1 else 0) g))
      (grouped db).

(** [ORDER BY active_customers DESC, city.city]. *)
Definition display_le (r1 r2 : row) : bool :=
  (active_customers r2 <? active_customers r1)
  || ((active_customers r1 =? active_customers r2)
      && String.leb (city r1) (city r2)).

Definition query (db : Store) : list row :=
  limit 20 (order_by display_le (selected db)).

Definition result (db : Store) (out : list row) : Prop :=
  exists sorted,
    ordered_by display_le (selected db) sorted /\ out = limit 20 sorted.
End Report6.

(** ** 7. The most rented category, by hours, in the cities that start with
       'a' and in the cities that contain '-' *)
Module Report7.
(** A row of [grouped_data], of the result and (paired with [rnk]) of
    [ranked_data].  [city_group] is the value of a CASE without ELSE, which
    is NULL when no WHEN applies; [total_hours] is in units of 10^-6. *)
Record row := mk {
  city_group : option string; category_name : string; total_hours : Z }.

Definition joined (db : Store)
  : list (Category.t * (FilmCategory.t * (Film.t * (Inventory.t *
          (Rental.t * (Customer.t * (Address.t * City.t))))))) :=
  join (fun c '(fc, _) =>
          Category.category_id c =? FilmCategory.category_id fc)
    (category db)
    (join (fun fc '(f, _) => FilmCategory.film_id fc =? Film.film_id f)
       (film_category db)
       (join (fun f '(i, _) => Film.film_id f =? Inventory.film_id i)
          (film db)
          (join (fun i '(r, _) =>
                   Inventory.inventory_id i =? Rental.inventory_id r)
             (inventory db)
             (join (fun r '(cu, _) =>
                      Rental.customer_id r =? Customer.customer_id cu)
                (rental db)
                (join (fun cu '(a, _) =>
                         Customer.address_id cu =? Address.address_id a)
                   (customer db)
                   (join (fun a c => Address.city_id a =? City.city_id c)
                      (address db) (city db))))))).

(** The city name of a joined row. *)
Definition city_of
  (j : Category.t * (FilmCategory.t * (Film.t * (Inventory.t *
       (Rental.t * (Customer.t * (Address.t * City.t)))))))
  : string :=
  let '(_, (_, (_, (_, (_, (_, (_, c))))))) := j in City.city c.

(** [WHERE city.city LIKE 'a%' OR city.city LIKE '%-%']. *)
Definition where_clause (city : string) : bool :=
  like city "a%" || like city "%-%".

(** [CASE WHEN city.city LIKE 'a%' THEN 'Starts with a'
         WHEN city.city LIKE '%-%' THEN 'Contains hyphen' END]. *)
Definition case_city_group (city : string) : option string :=
  if like city "a%" then Some "Starts with a"
  else if like city "%-%" then Some "Contains hyphen"
  else None.

Definition filtered (db : Store) :=
  filter (fun j => where_clause (city_of j)) (joined db).

Definition grouped (db : Store) :=
  group_by (fun j =>
              (case_city_group (city_of j),
               let '(c, _) := j in Category.name c))
           (filtered db).

Definition grouped_data (db : Store) : list row :=
  map (fun '((group, name), g) =>
         mk group name
            (decimal_div6
               (sum (fun '(_, (_, (f, _))) => Film.length f) g) 600))
      (grouped db).

Definition ranked_data (db : Store) : list (row * Z) :=
  dense_rank_over city_group total_hours (grouped_data db).

(** [ORDER BY city_group]: ascending, NULL first. *)
Definition display_le (r1 r2 : row) : bool :=
  match city_group r1, city_group r2 with
  | None, _ => true
  | Some _, None => false
  | Some g1, Some g2 => String.leb g1 g2
  end.

Definition query (db : Store) : list row :=
  order_by display_le
    (map fst (filter (fun '(_, rnk) => rnk =? 1) (ranked_data db))).

Definition result (db : Store) (out : list row) : Prop :=
  ordered_by display_le
    (map fst (filter (fun '(_, rnk) => rnk =? 1) (ranked_data db))) out.
End Report7.

(** ** Running a query *)

(** [DataFrame.show(truncate=False)]: the rows that are printed are the
    first 20 of the result. *)
Definition show {A} (rows : list A) : list A := firstn 20 rows.

(** [run_query title sql_query]: the title and the rows that are printed. *)
Definition run_query {A} (title : string) (sql_query : Store -> list A)
  (db : Store) : string * list A :=
  (title, show (sql_query db)).

(* ================================================================== *)
(** * Example stores *)
(* ================================================================== *)

Definition empty_store : Store :=
  {| actor := []; category := []; film := []; film_actor := [];
     film_category := []; inventory := []; rental := []; payment := [];
     customer := []; address := []; city := [] |}.

(** The scenario of the specification (one children's film with one actor),
    with a second film that has no inventory, one rental and one payment by
    a customer who lives in "a-lantis". *)
Definition scenario_store : Store :=
  {| actor := [Actor.mk 1 "Ann" "Lee"];
     category := [Category.mk 1 "Children"];
     film := [Film.mk 1 "Shrek" 90; Film.mk 2 "Up" 96];
     film_actor := [FilmActor.mk 1 1];
     film_category := [FilmCategory.mk 1 1];
     inventory := [Inventory.mk 1 1];
     rental := [Rental.mk 1 1 1];
     payment := [Payment.mk 1 299];
     customer := [Customer.mk 1 1 true];
     address := [Address.mk 1 1];
     city := [City.mk 1 "a-lantis"] |}.

(** Two films share a title; only the first is in the inventory. *)
Definition shared_title_store : Store :=
  {| actor := []; category := [];
     film := [Film.mk 1 "Heat" 170; Film.mk 2 "Heat" 95];
     film_actor := []; film_category := [];
     inventory := [Inventory.mk 1 1];
     rental := []; payment := []; customer := []; address := [];
     city := [] |}.

(** Two categories with one film each. *)
Definition tied_categories_store : Store :=
  {| actor := [];
     category := [Category.mk 1 "Action"; Category.mk 2 "Drama"];
     film := []; film_actor := [];
     film_category := [FilmCategory.mk 1 1; FilmCategory.mk 2 2];
     inventory := []; rental := []; payment := []; customer := [];
     address := []; city := [] |}.

(** A film table with an empty inventory table. *)
Definition no_inventory_store : Store :=
  {| actor := []; category := [];
     film := [Film.mk 1 "Shrek" 90];
     film_actor := []; film_category := [];
     inventory := [];
     rental := []; payment := []; customer := []; address := [];
     city := [] |}.

(** The integers [1 .. n]. *)
Definition upto (n : nat) : list Z := map Z.of_nat (seq 1 n).

(** Eleven actors play in the one film that was rented once: all eleven
    have rental count 1. *)
Definition eleven_names : list string :=
  ["Ada"; "Ben"; "Cal"; "Dee"; "Eve"; "Fay"; "Gus"; "Hal"; "Ivy"; "Jon";
   "Kim"].

Definition tied_rentals_store : Store :=
  {| actor := map (fun '(n, first) => Actor.mk n first "Tied")
                  (combine (upto 11) eleven_names);
     category := [];
     film := [Film.mk 1 "Shrek" 90];
     film_actor := map (fun n => FilmActor.mk n 1) (upto 11);
     film_category := [];
     inventory := [Inventory.mk 1 1];
     rental := [Rental.mk 1 1 1];
     payment := []; customer := []; address := []; city := [] |}.

(** [n] children's films and four actors who play in the first [c1], [c2],
    [c3] and [c4] of them. *)
Definition children_store (n c1 c2 c3 c4 : nat) : Store :=
  {| actor := [Actor.mk 1 "Dan" "Ash"; Actor.mk 2 "Cy" "Birch";
               Actor.mk 3 "Bo" "Cedar"; Actor.mk 4 "Al" "Dale"];
     category := [Category.mk 1 "Children"];
     film := map (fun n => Film.mk n "Film" 90) (upto n);
     film_actor :=
       map (FilmActor.mk 1) (upto c1) ++ map (FilmActor.mk 2) (upto c2) ++
       map (FilmActor.mk 3) (upto c3) ++ map (FilmActor.mk 4) (upto c4);
     film_category := map (fun n => FilmCategory.mk n 1) (upto n);
     inventory := []; rental := []; payment := []; customer := [];
     address := []; city := [] |}.

(** One film of one category, rented once by each of three customers, who
    live in "a-lantis", "Atlantis" and "Aix-les-Bains". *)
Definition cities_store : Store :=
  {| actor := [];
     category := [Category.mk 1 "Children"];
     film := [Film.mk 1 "Shrek" 90];
     film_actor := [];
     film_category := [FilmCategory.mk 1 1];
     inventory := [Inventory.mk 1 1];
     rental := [Rental.mk 1 1 1; Rental.mk 2 1 2; Rental.mk 3 1 3];
     payment := [];
     customer := [Customer.mk 1 1 true; Customer.mk 2 2 true;
                  Customer.mk 3 3 false];
     address := [Address.mk 1 1; Address.mk 2 2; Address.mk 3 3];
     city := [City.mk 1 "a-lantis"; City.mk 2 "Atlantis";
              City.mk 3 "Aix-les-Bains"] |}.

(* ================================================================== *)
(** * The program *)
(* ================================================================== *)

(** [main] checks its environment, starts a Spark session, loads the tables
    and runs the seven queries.  It is modelled as a computation on the
    state of the process (console, environment variables, session, views)
    that ends by returning, by [sys.exit] or by an uncaught exception.  What
    the operating system and the database answer is a parameter: a read of
    a table and the evaluation of a query may each raise.  Creating and
    stopping the session are taken to succeed. *)

Local Open Scope string_scope.

(** The line feed of Python's ["\n"]. *)
Definition nl : string := String (ascii_of_nat 10) EmptyString.

(** [s * n]. *)
Fixpoint string_repeat (s : string) (n : nat) : string :=
  match n with
  | O => EmptyString
  | S n' => s ++ string_repeat s n'
  end.

Definition JDBC_DRIVER_FILENAME : string := "postgresql-42.7.8.jar".

Definition HADOOP_HOME_PATH : string := "C:\hadoop".

(** The answers of the [os] module. *)
Record Platform := {
  os_name : string;
  os_pathsep : string;
  os_path_join : string -> string -> string;
  os_path_exists : string -> bool;
  os_getcwd : string;
  os_environ : string -> option string
}.

(** The seven calls of [run_query]. *)
Inductive Report := R1 | R2 | R3 | R4 | R5 | R6 | R7.

(** The answers of the database: for the name of a table, the text of the
    exception that reading it raises, if it raises one; for the query of a
    report, the text of the exception that evaluating it raises, if it
    raises one (the rows are read when [show] runs); and the rows of the
    tables. *)
Record Database := {
  jdbc_error : string -> option string;
  query_error : Report -> option string;
  contents : Store
}.

Definition reports : list Report := [R1; R2; R3; R4; R5; R6; R7].

(** The first argument of each call. *)
Definition title (r : Report) : string :=
  match r with
  | R1 => "1. Количество фильмов в категориях"
  | R2 => "2. Топ-10 актеров по числу аренд"
  | R3 => "3. Самая прибыльная категория"
  | R4 => "4. Фильмы отсутствующие в инвентаре"
  | R5 => "5. Топ актеры в категории 'Children'"
  | R6 => "6. Активные/неактивные клиенты по городам"
  | R7 => "7. Выведите категорию фильмов с наибольшим общим количеством часов проката в городах (адрес_клиента в этом городе), которые начинаются с буквы «a». Сделайте то же самое для городов с символом «-»."
  end.

(** The views each query names in its FROM clauses. *)
Definition tables_read (r : Report) : list string :=
  match r with
  | R1 => ["category"; "film_category"]
  | R2 => ["actor"; "film_actor"; "inventory"; "rental"]
  | R3 => ["payment"; "rental"; "inventory"; "film_category"; "category"]
  | R4 => ["film"; "inventory"]
  | R5 => ["actor"; "film_actor"; "film_category"; "category"]
  | R6 => ["city"; "address"; "customer"]
  | R7 => ["category"; "film_category"; "film"; "inventory"; "rental";
           "customer"; "address"; "city"]
  end.

(** The rows of a result, of whichever query. *)
Inductive Result :=
| Rows1 (rows : list Report1.row)
| Rows2 (rows : list Report2.row)
| Rows3 (rows : list Report3.row)
| Rows4 (rows : list string)
| Rows5 (rows : list Report5.row)
| Rows6 (rows : list Report6.row)
| Rows7 (rows : list Report7.row).

(** [run_query] on the query of a report: the title and the printed
    rows. *)
Definition run_report (r : Report) (db : Store) : string * Result :=
  match r with
  | R1 => let (t, rows) := run_query (title r) Report1.query db in
          (t, Rows1 rows)
  | R2 => let (t, rows) := run_query (title r) Report2.query db in
          (t, Rows2 rows)
  | R3 => let (t, rows) := run_query (title r) Report3.query db in
          (t, Rows3 rows)
  | R4 => let (t, rows) := run_query (title r) Report4.query db in
          (t, Rows4 rows)
  | R5 => let (t, rows) := run_query (title r) Report5.query db in
          (t, Rows5 rows)
  | R6 => let (t, rows) := run_query (title r) Report6.query db in
          (t, Rows6 rows)
  | R7 => let (t, rows) := run_query (title r) Report7.query db in
          (t, Rows7 rows)
  end.

(** What the process writes to the console: a [print], or the table that
    [show] prints. *)
Inductive Output :=
| Print (text : string)
| Show (rows : Result).

(** The Spark session: not created, running with its configuration, or
    stopped. *)
Inductive Session :=
| NoSession
| Running (app_name : string) (conf : list (string * string))
| Stopped.

Record Process := {
  console : list Output;
  environ : string -> option string;
  session : Session;
  views : list string
}.

(** How a run ends: [main] returns, [sys.exit(code)] is called, or an
    exception is not caught. *)
Inductive Status :=
| Returned
| Exited (code : Z)
| Raised (exception : string).

(** A step either goes on with a value or ends the run. *)
Inductive Step (A : Type) :=
| Next (a : A)
| Stop (s : Status).
Arguments Next {A} a.
Arguments Stop {A} s.

Definition M (A : Type) : Type := Process -> Step A * Process.

Definition ret {A} (a : A) : M A := fun p => (Next a, p).

Definition bind {A B} (c : M A) (k : A -> M B) : M B :=
  fun p =>
    match c p with
    | (Next a, p') => k a p'
    | (Stop s, p') => (Stop s, p')
    end.

Notation "x <- c ;; k" := (bind c (fun x => k))
  (at level 61, c at next level, right associativity).
Notation "c ;; k" := (bind c (fun _ => k))
  (at level 61, right associativity).

Definition print (text : string) : M unit :=
  fun p => (Next tt,
            {| console := (console p ++ [Print text])%list; environ := environ p;
               session := session p; views := views p |}).

Definition show_result (rows : Result) : M unit :=
  fun p => (Next tt,
            {| console := (console p ++ [Show rows])%list; environ := environ p;
               session := session p; views := views p |}).

(** [sys.exit(code)]. *)
Definition sys_exit {A} (code : Z) : M A := fun p => (Stop (Exited code), p).

Definition raise {A} (exception : string) : M A :=
  fun p => (Stop (Raised exception), p).

(** [os.environ[key] = value]. *)
Definition setenv (key value : string) : M unit :=
  fun p => (Next tt,
            {| console := console p;
               environ := fun k => if String.eqb k key then Some value
                                   else environ p k;
               session := session p; views := views p |}).

(** [os.environ[key]], which raises KeyError when the variable is not
    set. *)
Definition getenv (key : string) : M string :=
  fun p => match environ p key with
           | Some value => (Next value, p)
           | None => (Stop (Raised "KeyError"), p)
           end.

Definition set_session (s : Session) : M unit :=
  fun p => (Next tt,
            {| console := console p; environ := environ p; session := s;
               views := views p |}).

(** [createOrReplaceTempView(name)]. *)
Definition register_view (name : string) : M unit :=
  fun p => (Next tt,
            {| console := console p; environ := environ p;
               session := session p;
               views := (filter (fun v => negb (String.eqb v name)) (views p)
                         ++ [name])%list |}).

(** [try: body except Exception as e: handler(e)].  [sys.exit] raises
    SystemExit, which is not an Exception and passes through. *)
Definition try_except {A} (body : M A) (handler : string -> M A) : M A :=
  fun p =>
    match body p with
    | (Stop (Raised e), p') => handler e p'
    | other => other
    end.

Definition tables_to_load : list string :=
  ["actor"; "category"; "film"; "film_actor"; "film_category";
   "inventory"; "rental"; "payment"; "customer"; "address"; "city"].

(** The loop over [tables_to_load]: each table is read as [public.<table>]
    and registered as a view; a read that fails raises. *)
Fixpoint load_tables (dbs : Database) (tables : list string) : M unit :=
  match tables with
  | [] => ret tt
  | table :: rest =>
      match jdbc_error dbs ("public." ++ table) with
      | Some e => raise e
      | None => register_view table ;; load_tables dbs rest
      end
  end.

(** [spark.sql(sql_query)] and the evaluation that [show] starts: the
    query is analysed against the registered views and fails when it names
    a view that is not registered; its evaluation reads the database and
    raises what the database raises. *)
Definition spark_sql (dbs : Database) (r : Report) : M (string * Result) :=
  fun p =>
    if forallb (fun t => existsb (String.eqb t) (views p)) (tables_read r)
    then match query_error dbs r with
         | Some e => (Stop (Raised e), p)
         | None => (Next (run_report r (contents dbs)), p)
         end
    else (Stop (Raised "AnalysisException"), p).

(** One call of [run_query]: the title line, the table, the rule.  An
    exception of the query is not caught. *)
Definition run_query_call (dbs : Database) (r : Report) : M unit :=
  print ("--- " ++ title r ++ " ---") ;;
  shown <- spark_sql dbs r ;;
  show_result (snd shown) ;;
  print (string_repeat "-" 50 ++ nl).

Fixpoint run_queries (dbs : Database) (rs : list Report) : M unit :=
  match rs with
  | [] => ret tt
  | r :: rest => run_query_call dbs r ;; run_queries dbs rest
  end.

(** The branch [if os.name == 'nt']. *)
Definition hadoop_setup (pf : Platform) : M unit :=
  print "[ИНФО] Настройка окружения Hadoop для Windows..." ;;
  setenv "HADOOP_HOME" HADOOP_HOME_PATH ;;
  let hadoop_bin := os_path_join pf HADOOP_HOME_PATH "bin" in
  let winutils_path := os_path_join pf hadoop_bin "winutils.exe" in
  (if negb (os_path_exists pf winutils_path) then
     print (nl ++ "[КРИТИЧЕСКАЯ ОШИБКА] Файл winutils.exe не найден по пути: "
               ++ winutils_path) ;;
     sys_exit 1
   else ret tt) ;;
  old_path <- getenv "PATH" ;;
  setenv "PATH" (hadoop_bin ++ os_pathsep pf ++ old_path) ;;
  hadoop_home <- getenv "HADOOP_HOME" ;;
  print ("[ИНФО] HADOOP_HOME успешно установлен в: " ++ hadoop_home) ;;
  print ("[ИНФО] winutils.exe найден в: " ++ winutils_path ++ nl).

Definition driver_path (pf : Platform) : string :=
  os_path_join pf (os_getcwd pf) JDBC_DRIVER_FILENAME.

(** The parts of [main] after the Windows branch, in the order of the
    source: the check for the driver file, the creation of the session, the
    loading of the tables under [try], and the queries. *)
Definition check_driver (pf : Platform) : M unit :=
  if negb (os_path_exists pf (driver_path pf)) then
    print (nl ++ "[ОШИБКА] Файл драйвера JDBC не найден: " ++ driver_path pf) ;;
    sys_exit 1
  else ret tt.

Definition start_session (pf : Platform) : M unit :=
  print ("[ИНФО] Используем JDBC драйвер: " ++ driver_path pf) ;;
  set_session
    (Running "Pagila SQL Analysis"
       [("spark.jars", driver_path pf);
        ("spark.driver.extraClassPath", driver_path pf)]).

(** The message of the [except] branch. *)
Definition load_error_message (e : string) : string :=
  nl ++ "[КРИТИЧЕСКАЯ ОШИБКА] Не удалось подключиться к базе данных."
     ++ nl ++ "Детали ошибки: " ++ e.

Definition load_all (dbs : Database) : M unit :=
  try_except
    (print (nl ++ "[ИНФО] Подключение к базе данных и загрузка таблиц...") ;;
     load_tables dbs tables_to_load ;;
     print ("[ИНФО] Все таблицы успешно загружены и готовы к запросам!" ++ nl))
    (fun e =>
       print (load_error_message e) ;;
       print (nl ++ "СОВЕТ: Проверьте, запущен ли ваш Docker контейнер с базой данных Pagila.") ;;
       set_session Stopped ;;
       sys_exit 1).

Definition run_all (dbs : Database) : M unit :=
  run_queries dbs reports ;;
  print "[ИНФО] Все запросы выполнены. Завершение работы Spark..." ;;
  set_session Stopped.

Definition main (pf : Platform) (dbs : Database) : M unit :=
  (if String.eqb (os_name pf) "nt" then hadoop_setup pf else ret tt) ;;
  check_driver pf ;;
  start_session pf ;;
  load_all dbs ;;
  run_all dbs.

(** The paths [main] computes and the conditions it tests. *)
Definition hadoop_bin (pf : Platform) : string :=
  os_path_join pf HADOOP_HOME_PATH "bin".

Definition winutils_path (pf : Platform) : string :=
  os_path_join pf (hadoop_bin pf) "winutils.exe".

Definition is_windows (pf : Platform) : bool := String.eqb (os_name pf) "nt".

Definition readable (dbs : Database) (table : string) : bool :=
  match jdbc_error dbs ("public." ++ table) with
  | None => true
  | Some _ => false
  end.

(** The Windows branch lets the run go on: the platform is not Windows, or
    winutils.exe exists and PATH is set. *)
Definition hadoop_passes (pf : Platform) : Prop :=
  is_windows pf = false \/
  (is_windows pf = true /\
   os_path_exists pf (winutils_path pf) = true /\
   exists old_path, os_environ pf "PATH" = Some old_path).

(** The reports whose queries are evaluated before one raises, and the
    exception of the first query that raises. *)
Fixpoint reports_run (dbs : Database) (rs : list Report) : list Report :=
  match rs with
  | [] => []
  | r :: rest =>
      match query_error dbs r with
      | Some _ => []
      | None => r :: reports_run dbs rest
      end
  end.

Fixpoint first_query_error (dbs : Database) (rs : list Report)
  : option string :=
  match rs with
  | [] => None
  | r :: rest =>
      match query_error dbs r with
      | Some e => Some e
      | None => first_query_error dbs rest
      end
  end.

(** The report a printed table belongs to. *)
Definition report_of (x : Result) : Report :=
  match x with
  | Rows1 _ => R1
  | Rows2 _ => R2
  | Rows3 _ => R3
  | Rows4 _ => R4
  | Rows5 _ => R5
  | Rows6 _ => R6
  | Rows7 _ => R7
  end.

(** [x] is what [show] prints of a result that the query of [r] admits on
    [db]. *)
Definition shows (r : Report) (db : Store) (x : Result) : Prop :=
  match r, x with
  | R1, Rows1 rows => exists out, Report1.result db out /\ rows = show out
  | R2, Rows2 rows => exists out, Report2.result db out /\ rows = show out
  | R3, Rows3 rows => exists out, Report3.result db out /\ rows = show out
  | R4, Rows4 rows => exists out, Report4.result db out /\ rows = show out
  | R5, Rows5 rows => exists out, Report5.result db out /\ rows = show out
  | R6, Rows6 rows => exists out, Report6.result db out /\ rows = show out
  | R7, Rows7 rows => exists out, Report7.result db out /\ rows = show out
  | _, _ => False
  end.

(** The views after registering [names] in turn. *)
Definition register_all (names : list string) (vs : list string)
  : list string :=
  fold_left
    (fun vs name =>
       (filter (fun v => negb (String.eqb v name)) vs ++ [name])%list)
    names vs.

(** The environment variables that [main] leaves: on Windows HADOOP_HOME is
    set, and PATH is extended if winutils.exe exists and PATH was set. *)
Definition environ_after (pf : Platform) (key : string) : option string :=
  if is_windows pf then
    if String.eqb key "PATH" then
      match os_path_exists pf (winutils_path pf), os_environ pf "PATH" with
      | true, Some old_path =>
          Some (hadoop_bin pf ++ os_pathsep pf ++ old_path)
      | _, _ => os_environ pf "PATH"
      end
    else if String.eqb key "HADOOP_HOME" then Some HADOOP_HOME_PATH
    else os_environ pf key
  else os_environ pf key.

(** The process before [main]. *)
Definition start (pf : Platform) : Process :=
  {| console := []; environ := os_environ pf; session := NoSession;
     views := [] |}.

(** A run of the program: how it ends and the state it leaves. *)
Definition run (pf : Platform) (dbs : Database) : Status * Process :=
  match main pf dbs (start pf) with
  | (Next _, p) => (Returned, p)
  | (Stop s, p) => (s, p)
  end.

(** The tables that [show] printed, in order. *)
Definition shown (out : list Output) : list Result :=
  flat_map (fun o => match o with Show rows => [rows] | Print _ => [] end) out.

(** The texts that [print] printed, in order. *)
Definition printed (out : list Output) : list string :=
  flat_map (fun o => match o with Print t => [t] | Show _ => [] end) out.

(** ** Example platforms and databases *)

(** A Linux machine with the driver in the working directory. *)
Definition linux : Platform :=
  {| os_name := "posix"; os_pathsep := ":";
     os_path_join := fun a b => a ++ "/" ++ b;
     os_path_exists := fun p => String.eqb p "/app/postgresql-42.7.8.jar";
     os_getcwd := "/app";
     os_environ := fun k => if String.eqb k "PATH" then Some "/usr/bin"
                            else None |}.

(** A Windows machine with winutils.exe and the driver. *)
Definition windows : Platform :=
  {| os_name := "nt"; os_pathsep := ";";
     os_path_join := fun a b => a ++ "\" ++ b;
     os_path_exists := fun p =>
       String.eqb p "C:\hadoop\bin\winutils.exe"
       || String.eqb p "C:\app\postgresql-42.7.8.jar";
     os_getcwd := "C:\app";
     os_environ := fun k => if String.eqb k "PATH" then Some "C:\Windows"
                            else None |}.

(** The same machine without winutils.exe. *)
Definition windows_without_winutils : Platform :=
  {| os_name := "nt"; os_pathsep := ";";
     os_path_join := fun a b => a ++ "\" ++ b;
     os_path_exists := fun p => String.eqb p "C:\app\postgresql-42.7.8.jar";
     os_getcwd := "C:\app";
     os_environ := fun k => if String.eqb k "PATH" then Some "C:\Windows"
                            else None |}.

(** A Linux machine without the driver. *)
Definition linux_without_driver : Platform :=
  {| os_name := "posix"; os_pathsep := ":";
     os_path_join := fun a b => a ++ "/" ++ b;
     os_path_exists := fun _ => false;
     os_getcwd := "/app";
     os_environ := fun _ => None |}.

(** A database that answers every read, with the rows of the scenario. *)
Definition scenario_database : Database :=
  {| jdbc_error := fun _ => None; query_error := fun _ => None;
     contents := scenario_store |}.

(** A database in which the table [film] is missing. *)
Definition database_without_film : Database :=
  {| jdbc_error := fun t => if String.eqb t "public.film"
                            then Some "relation does not exist" else None;
     query_error := fun _ => None;
     contents := scenario_store |}.

(** A database that is lost while the third query is evaluated. *)
Definition database_lost_at_query_3 : Database :=
  {| jdbc_error := fun _ => None;
     query_error := fun r => match r with
                             | R3 => Some "connection lost"
                             | _ => None
                             end;
     contents := scenario_store |}.

Local Open Scope list_scope.
Local Open Scope Z_scope.

(** ** Stores with one table replaced *)

Definition set_category (rows : list Category.t) (db : Store) : Store :=
  {| actor := actor db; category := rows; film := film db;
     film_actor := film_actor db; film_category := film_category db;
     inventory := inventory db; rental := rental db; payment := payment db;
     customer := customer db; address := address db; city := city db |}.

Definition set_city (rows : list City.t) (db : Store) : Store :=
  {| actor := actor db; category := category db; film := film db;
     film_actor := film_actor db; film_category := film_category db;
     inventory := inventory db; rental := rental db; payment := payment db;
     customer := customer db; address := address db; city := rows |}.

(** A pair with its components exchanged. *)
Definition swap {A B} (p : A * B) : B * A := (snd p, fst p).

(* ================================================================== *)
(** * Facts about the relational operators *)
(* ================================================================== *)

Unset Implicit Arguments.

(** ** Lists *)

Lemma exists_rows_false {A} (rows : list A) :
  exists_rows rows = false <-> rows = [].
Proof. destruct rows; simpl; split; congruence. Qed.

Lemma filter_nil_iff {A} (p : A -> bool) (l : list A) :
  filter p l = [] <-> forall a, In a l -> p a = false.
Proof.
  induction l as [|b l IH]; simpl.
  - split; [contradiction | reflexivity].
  - destruct (p b) eqn:E.
    + split; [discriminate|]. intros Hall.
      specialize (Hall b (or_introl eq_refl)). congruence.
    + rewrite IH. split.
      * intros Hall a [<-|Ha]; auto.
      * intros Hall a Ha. auto.
Qed.

Lemma filter_all {X} (p : X -> bool) (l : list X) :
  (forall a, In a l -> p a = true) -> filter p l = l.
Proof.
  induction l as [|b l IH]; simpl; intros Hall; [reflexivity|].
  rewrite (Hall b (or_introl eq_refl)). f_equal. apply IH. auto.
Qed.

Lemma in_filter_fst {X} (p : Z -> bool) (l : list (X * Z)) (x : X) :
  In x (map fst (filter (fun '(_, k) => p k) l)) <->
  exists k, In (x, k) l /\ p k = true.
Proof.
  rewrite in_map_iff. split.
  - intros ([x' k] & E & Hin). simpl in E. subst.
    apply filter_In in Hin. eauto.
  - intros (k & Hin & Hp). exists (x, k). split; [reflexivity|].
    apply filter_In. auto.
Qed.

(** ** Joins, groups and sorting *)

Section JoinFacts.
Context {A B : Type}.
Variable on : A -> B -> bool.

Lemma in_join (l : list A) (r : list B) (a : A) (b : B) :
  In (a, b) (join on l r) <-> In a l /\ In b r /\ on a b = true.
Proof.
  unfold join. rewrite in_flat_map. split.
  - intros (a' & Ha & Hin). apply in_map_iff in Hin.
    destruct Hin as (b' & E & Hb). inversion E; subst.
    apply filter_In in Hb. tauto.
  - intros (Ha & Hb & Hon). exists a. split; [assumption|].
    apply in_map. apply filter_In. auto.
Qed.

Lemma join_nil_l (r : list B) : join on [] r = [].
Proof. reflexivity. Qed.

Lemma join_nil_r (l : list A) : join on l [] = [].
Proof. unfold join. induction l; simpl; auto. Qed.
End JoinFacts.

(** A join tree with an empty table is empty. *)
Ltac join_nil :=
  repeat first [rewrite join_nil_l | rewrite join_nil_r]; reflexivity.

Section GroupFacts.
Context {A K : Type} `{SqlEq K}.

Lemma sql_eqb_refl (k : K) : sql_eqb k k = true.
Proof. now apply (sql_eqb_eq k k). Qed.

Lemma sql_eqb_spec (x y : K) : reflect (x = y) (sql_eqb x y).
Proof. apply iff_reflect. symmetry. apply sql_eqb_eq. Qed.

Lemma sql_eqb_neq (x y : K) : sql_eqb x y = false <-> x <> y.
Proof.
  rewrite <- (sql_eqb_eq x y). destruct (sql_eqb x y); intuition congruence.
Qed.

Lemma in_distinct (ks : list K) (k : K) : In k (distinct ks) <-> In k ks.
Proof.
  induction ks as [|k0 ks IH]; simpl; [tauto|].
  rewrite filter_In, IH, negb_true_iff, sql_eqb_neq.
  split.
  - intros [->|[? _]]; auto.
  - intros [->|Hk]; auto.
    destruct (sql_eqb_spec k k0); auto.
Qed.

Lemma NoDup_distinct (ks : list K) : NoDup (distinct ks).
Proof.
  induction ks as [|k0 ks IH]; simpl; constructor.
  - rewrite filter_In, negb_true_iff, sql_eqb_refl. intros [_ ?]. discriminate.
  - now apply NoDup_filter.
Qed.

Lemma in_group_by (key : A -> K) (rows : list A) (k : K) (g : list A) :
  In (k, g) (group_by key rows) <->
  In k (map key rows) /\ g = filter (fun a => sql_eqb (key a) k) rows.
Proof.
  unfold group_by. rewrite in_map_iff. split.
  - intros (k' & E & Hk). inversion E; subst. now rewrite <- in_distinct.
  - intros (Hk & ->). exists k. now rewrite in_distinct.
Qed.

(** The keys of the groups are pairwise distinct. *)
Lemma NoDup_group_keys (key : A -> K) (rows : list A) :
  NoDup (map fst (group_by key rows)).
Proof.
  unfold group_by. rewrite map_map. simpl. rewrite map_id.
  apply NoDup_distinct.
Qed.

(** Every row lies in the group of its key. *)
Lemma in_group_rows (key : A -> K) (rows : list A) k g a :
  In (k, g) (group_by key rows) -> (In a g <-> In a rows /\ key a = k).
Proof.
  rewrite in_group_by. intros [_ ->].
  now rewrite filter_In, (sql_eqb_eq (key a) k).
Qed.
End GroupFacts.

Section OrderFacts.
Context {A : Type}.
Variable le : A -> A -> bool.

Lemma insert_sorted_perm (a : A) (l : list A) :
  Permutation (insert_sorted le a l) (a :: l).
Proof.
  induction l as [|b l IH]; simpl; [reflexivity|].
  destruct (le a b); [reflexivity|].
  rewrite IH. apply perm_swap.
Qed.

Lemma order_by_perm (l : list A) : Permutation (order_by le l) l.
Proof.
  induction l as [|a l IH]; simpl; [constructor|].
  rewrite insert_sorted_perm. now constructor.
Qed.

Lemma in_order_by (l : list A) (a : A) : In a (order_by le l) <-> In a l.
Proof.
  split; apply Permutation_in;
    [apply order_by_perm | symmetry; apply order_by_perm].
Qed.

Hypothesis le_total : forall a b, le a b = true \/ le b a = true.
Hypothesis le_trans :
  forall a b c, le a b = true -> le b c = true -> le a c = true.

Lemma insert_sorted_sorted (a : A) (l : list A) :
  StronglySorted (fun x y => le x y = true) l ->
  StronglySorted (fun x y => le x y = true) (insert_sorted le a l).
Proof.
  induction 1 as [|b l Hs IH Hb]; simpl.
  - repeat constructor.
  - destruct (le a b) eqn:E.
    + constructor; [now constructor|].
      constructor; [assumption|].
      rewrite Forall_forall in *. eauto.
    + constructor; [assumption|].
      assert (Hba : le b a = true) by (destruct (le_total a b); congruence).
      rewrite Forall_forall in *. intros x Hx.
      apply (Permutation_in _ (insert_sorted_perm a l)) in Hx.
      destruct Hx as [<-|Hx]; auto.
Qed.

Lemma order_by_sorted (l : list A) :
  StronglySorted (fun x y => le x y = true) (order_by le l).
Proof.
  induction l as [|a l IH]; simpl; [constructor|].
  now apply insert_sorted_sorted.
Qed.
End OrderFacts.

(** ** LIMIT and the aggregates *)

Lemma in_limit {A} (n : nat) (l : list A) (a : A) :
  In a (limit n l) -> In a l.
Proof.
  unfold limit. revert l.
  induction n as [|n IH]; intros l; simpl; [intros []|].
  destruct l as [|b l]; simpl; [intros []|].
  intros [E|Hin]; auto.
Qed.

Lemma limit_length {A} (n : nat) (l : list A) :
  (List.length (limit n l) <= n)%nat.
Proof. apply firstn_le_length. Qed.

Lemma sum_plus {A} (e1 e2 : A -> Z) (rows : list A) :
  sum e1 rows + sum e2 rows = sum (fun a => e1 a + e2 a) rows.
Proof. induction rows as [|a rows IH]; simpl; lia. Qed.

Lemma sum_ext {A} (e1 e2 : A -> Z) (rows : list A) :
  (forall a, In a rows -> e1 a = e2 a) -> sum e1 rows = sum e2 rows.
Proof.
  unfold sum. induction rows as [|a rows IH]; intros Hext; simpl;
    [reflexivity|].
  rewrite IH by (intros; apply Hext; now right).
  now rewrite (Hext a (or_introl eq_refl)).
Qed.

Lemma sum_ones {A} (e : A -> Z) (rows : list A) :
  (forall a, In a rows -> e a = 1) -> sum e rows = count rows.
Proof.
  unfold count. induction rows as [|a rows IH]; intros Hall;
    [reflexivity|].
  cbn [sum fold_right List.length].
  replace (fold_right (fun a acc => e a + acc) 0 rows) with (sum e rows)
    by reflexivity.
  rewrite IH by (intros; apply Hall; now right).
  rewrite (Hall a (or_introl eq_refl)). lia.
Qed.

(** A conditional sum counts the rows that satisfy its condition. *)
Lemma sum_indicator {A} (p : A -> bool) (rows : list A) :
  sum (fun a => if p a then 1 else 0) rows = count (filter p rows).
Proof.
  unfold count. induction rows as [|a rows IH]; [reflexivity|].
  cbn [sum fold_right filter].
  replace (fold_right (fun a acc => (if p a then 1 else 0) + acc) 0 rows)
    with (sum (fun a => if p a then 1 else 0) rows) by reflexivity.
  rewrite IH. destruct (p a); cbn [List.length]; lia.
Qed.

(** ** The order of strings *)

Lemma string_compare_trans (a b c : string) :
  String.compare a b <> Gt -> String.compare b c <> Gt ->
  String.compare a c <> Gt.
Proof.
  revert b c. induction a as [|x a IH]; intros [|y b] [|z c]; simpl;
    try congruence.
  unfold Ascii.compare.
  destruct (N.compare_spec (N_of_ascii x) (N_of_ascii y)) as [Exy|Lxy|Lxy];
    destruct (N.compare_spec (N_of_ascii y) (N_of_ascii z)) as [Eyz|Lyz|Lyz];
    destruct (N.compare_spec (N_of_ascii x) (N_of_ascii z)) as [Exz|Lxz|Lxz];
    try congruence; try lia.
  apply IH.
Qed.

Lemma string_leb_trans (a b c : string) :
  String.leb a b = true -> String.leb b c = true -> String.leb a c = true.
Proof.
  pose proof (string_compare_trans a b c) as Ht. unfold String.leb in *.
  destruct (String.compare a b), (String.compare b c), (String.compare a c);
    intros; try reflexivity; try discriminate; exfalso; apply Ht; congruence.
Qed.


(** ** Results of ORDER BY *)

Section OrderedByFacts.
Context {A : Type}.
Variable le : A -> A -> bool.

Lemma ordered_by_order_by (rows : list A) :
  (forall a b, le a b = true \/ le b a = true) ->
  (forall a b c, le a b = true -> le b c = true -> le a c = true) ->
  ordered_by le rows (order_by le rows).
Proof.
  intros Htotal Htrans. split.
  - symmetry. apply order_by_perm.
  - now apply order_by_sorted.
Qed.

Lemma ordered_by_perm (rows out1 out2 : list A) :
  ordered_by le rows out1 -> ordered_by le rows out2 ->
  Permutation out1 out2.
Proof. intros [P1 _] [P2 _]. now rewrite <- P1. Qed.

Lemma ordered_by_in (rows out : list A) (a : A) :
  ordered_by le rows out -> (In a out <-> In a rows).
Proof.
  intros [P _]. split; apply Permutation_in; [symmetry|]; exact P.
Qed.

Lemma ordered_by_nil (out : list A) : ordered_by le [] out <-> out = [].
Proof.
  split.
  - intros [P _]. now apply Permutation_nil.
  - intros ->. split; constructor.
Qed.

(** Two sorted lists with the same elements are equal when no two distinct
    elements tie. *)
Lemma sorted_perm_unique (l1 l2 : list A) :
  (forall a b, In a l1 -> In b l1 ->
               le a b = true -> le b a = true -> a = b) ->
  StronglySorted (fun a b => le a b = true) l1 ->
  StronglySorted (fun a b => le a b = true) l2 ->
  Permutation l1 l2 ->
  l1 = l2.
Proof.
  intros Hanti Hs1. revert l2 Hanti.
  induction Hs1 as [|a t1 Hs1 IH Ha]; intros l2 Hanti Hs2 P.
  - apply Permutation_nil in P. now subst.
  - destruct Hs2 as [|b t2 Hs2 Hb].
    + apply Permutation_sym, Permutation_nil in P. discriminate.
    + rewrite Forall_forall in Ha, Hb.
      assert (E : a = b).
      { assert (Hb1 : In b (a :: t1))
          by (apply (Permutation_in _ (Permutation_sym P)); now left).
        assert (Ha2 : In a (b :: t2))
          by (apply (Permutation_in _ P); now left).
        destruct Hb1 as [E|Hb1]; [assumption|].
        destruct Ha2 as [E|Ha2]; [now symmetry|].
        apply Hanti; auto; simpl; auto. }
      subst b. f_equal. apply IH.
      * intros x y Hx Hy. apply Hanti; now right.
      * assumption.
      * now apply Permutation_cons_inv in P.
Qed.

Lemma ordered_by_unique (rows out1 out2 : list A) :
  (forall a b, In a rows -> In b rows ->
               le a b = true -> le b a = true -> a = b) ->
  ordered_by le rows out1 -> ordered_by le rows out2 -> out1 = out2.
Proof.
  intros Hanti [P1 S1] [P2 S2].
  apply sorted_perm_unique; try assumption.
  - intros a b Ha Hb. apply Hanti.
    + now apply (Permutation_in _ (Permutation_sym P1)).
    + now apply (Permutation_in _ (Permutation_sym P1)).
  - now rewrite <- P1.
Qed.
End OrderedByFacts.

(** In a list whose images under [f] are pairwise distinct, [f] identifies
    the elements. *)
Lemma NoDup_map_inj_in {A B} (f : A -> B) (l : list A) (a b : A) :
  NoDup (map f l) -> In a l -> In b l -> f a = f b -> a = b.
Proof.
  induction l as [|x l IH]; simpl; [contradiction|].
  intros Hnd Ha Hb E. inversion Hnd as [|? ? Hx Hnd']; subst.
  destruct Ha as [->|Ha], Hb as [->|Hb]; auto.
  - exfalso. apply Hx. rewrite E. now apply in_map.
  - exfalso. apply Hx. rewrite <- E. now apply in_map.
Qed.

(* ================================================================== *)
(** * The ranker *)
(* ================================================================== *)

Section RankFacts.
Context {A : Type}.
Variable key : A -> Z.

Lemma desc_total (a b : A) : desc key a b = true \/ desc key b a = true.
Proof. unfold desc. rewrite !Z.leb_le. lia. Qed.

Lemma desc_trans (a b c : A) :
  desc key a b = true -> desc key b c = true -> desc key a c = true.
Proof. unfold desc. rewrite !Z.leb_le. lia. Qed.

Lemma desc_sorted (rows : list A) :
  StronglySorted (fun x y => key y <= key x) (order_by (desc key) rows).
Proof.
  pose proof (order_by_sorted (desc key) desc_total desc_trans rows) as Hs.
  induction Hs as [|a l Hs IH Ha]; constructor; [assumption|].
  eapply Forall_impl; [|exact Ha]. intros b Hb. now apply Z.leb_le.
Qed.

Lemma scan_rows (prev rank : Z) (rows : list A) :
  map fst (dense_rank_scan key prev rank rows) = rows.
Proof.
  revert prev rank. induction rows as [|r rest IH]; intros; simpl;
    [reflexivity | now rewrite IH].
Qed.

(** The ranked rows are the rows of the partition, largest key first. *)
Lemma dense_rank_rows (rows : list A) :
  map fst (dense_rank key rows) = order_by (desc key) rows.
Proof.
  unfold dense_rank. destruct (order_by (desc key) rows); simpl;
    [reflexivity | now rewrite scan_rows].
Qed.

(** Along a sorted run that starts below [prev], the rank is [rank] on the
    rows whose key is [prev], larger on the others, and a strictly
    decreasing function of the key. *)
Lemma scan_ranks (rows : list A) :
  StronglySorted (fun x y => key y <= key x) rows ->
  forall prev rank,
    Forall (fun r => key r <= prev) rows ->
    (forall r k, In (r, k) (dense_rank_scan key prev rank rows) ->
       (key r = prev -> k = rank) /\ (key r < prev -> rank < k))
    /\
    (forall r1 k1 r2 k2,
       In (r1, k1) (dense_rank_scan key prev rank rows) ->
       In (r2, k2) (dense_rank_scan key prev rank rows) ->
       (key r1 = key r2 -> k1 = k2) /\ (key r1 < key r2 -> k2 < k1)).
Proof.
  induction 1 as [|r rest Hs IH Hr]; intros prev rank Hb; simpl.
  - split; intros; contradiction.
  - inversion Hb as [|? ? Hrp Hb']; subst.
    set (rank' := if key r =? prev then rank else rank + 1).
    assert (Hrank' : (key r = prev -> rank' = rank) /\
                     (key r < prev -> rank' = rank + 1)).
    { unfold rank'. destruct (Z.eqb_spec (key r) prev); split; intros; lia. }
    destruct (IH (key r) rank' Hr) as [IH1 IH2].
    assert (Hle : forall r2 k2,
      In (r2, k2) (dense_rank_scan key (key r) rank' rest) ->
      key r2 <= key r).
    { intros r2 k2 Hin. rewrite Forall_forall in Hr. apply Hr.
      rewrite <- (scan_rows (key r) rank' rest).
      change r2 with (fst (r2, k2)). now apply in_map. }
    split.
    + intros r2 k2 [E|Hin].
      * inversion E; subst. lia.
      * pose proof (Hle _ _ Hin). destruct (IH1 _ _ Hin). lia.
    + intros r1 k1 r2 k2 [E1|H1] [E2|H2].
      * inversion E1; inversion E2; subst. lia.
      * inversion E1; subst. pose proof (Hle _ _ H2).
        destruct (IH1 _ _ H2). lia.
      * inversion E2; subst. pose proof (Hle _ _ H1).
        destruct (IH1 _ _ H1). lia.
      * now apply IH2.
Qed.

(** Two neighbours of the scan: the rank stays on an equal key and grows
    by exactly one on a smaller key. *)
Lemma scan_adjacent (rows : list A) :
  StronglySorted (fun x y => key y <= key x) rows ->
  forall prev rank pre r1 k1 r2 k2 post,
    dense_rank_scan key prev rank rows
      = pre ++ (r1, k1) :: (r2, k2) :: post ->
    (key r2 = key r1 /\ k2 = k1) \/ (key r2 < key r1 /\ k2 = k1 + 1).
Proof.
  induction 1 as [|r rest Hs IH Hr]; intros prev rank pre r1 k1 r2 k2 post E;
    simpl in E.
  - destruct pre; discriminate.
  - destruct pre as [|p pre]; simpl in E.
    + destruct rest as [|r' rest']; simpl in E; [discriminate|].
      inversion E; subst. inversion Hr; subst.
      destruct (Z.eqb_spec (key r2) (key r1)); [left|right]; split; lia.
    + inversion E as [[Ep E']]. eapply IH. exact E'.
Qed.

(** Every rank of the scan is [rank], [rank + 1], or the successor of a
    rank of the scan. *)
Lemma scan_no_gap (rows : list A) (prev rank : Z) :
  forall r k, In (r, k) (dense_rank_scan key prev rank rows) ->
    rank <= k /\
    (k <= rank + 1 \/
     exists r', In (r', k - 1) (dense_rank_scan key prev rank rows)).
Proof.
  revert prev rank. induction rows as [|r0 rest IH]; intros prev rank r k;
    simpl; [contradiction|].
  set (rank' := if key r0 =? prev then rank else rank + 1).
  assert (Hrank' : rank <= rank' <= rank + 1).
  { unfold rank'. destruct (key r0 =? prev); lia. }
  intros [E|Hin].
  - inversion E; subst. lia.
  - destruct (IH _ _ _ _ Hin) as [Hge [Hle|(r' & Hr')]].
    + split; [lia|].
      destruct (Z.eq_dec k (rank' + 1)) as [->|]; [|left; lia].
      right. exists r0. left. f_equal. lia.
    + split; [lia|]. right. exists r'. now right.
Qed.
End RankFacts.

Section DenseRankFacts.
Context {A : Type}.
Variable key : A -> Z.

Lemma sorted_head_bound (r : A) (rest : list A) :
  StronglySorted (fun x y => key y <= key x) (r :: rest) ->
  Forall (fun x => key x <= key r) (r :: rest).
Proof.
  intros Hs. inversion Hs; subst. constructor; [lia | assumption].
Qed.

(** [dense_rank] is one scan of the sorted partition that starts at the
    key of its first row with rank 1. *)
Lemma dense_rank_as_scan (rows : list A) :
  dense_rank key rows =
  match order_by (desc key) rows with
  | [] => []
  | r :: _ => dense_rank_scan key (key r) 1 (order_by (desc key) rows)
  end.
Proof.
  unfold dense_rank. destruct (order_by (desc key) rows) as [|r rest];
    [reflexivity|].
  simpl. now rewrite Z.eqb_refl.
Qed.

Lemma dense_rank_perm (rows : list A) :
  Permutation (map fst (dense_rank key rows)) rows.
Proof. rewrite dense_rank_rows. apply order_by_perm. Qed.

Lemma in_dense_rank_row (rows : list A) (r : A) (k : Z) :
  In (r, k) (dense_rank key rows) -> In r rows.
Proof.
  intros Hin. apply (Permutation_in _ (dense_rank_perm rows)).
  change r with (fst (r, k)). now apply in_map.
Qed.

Lemma dense_rank_covers (rows : list A) (r : A) :
  In r rows -> exists k, In (r, k) (dense_rank key rows).
Proof.
  intros Hin.
  apply (Permutation_in _ (Permutation_sym (dense_rank_perm rows))) in Hin.
  apply in_map_iff in Hin. destruct Hin as ([r' k] & E & Hin).
  simpl in E. subst. eauto.
Qed.

(** The rank is a strictly decreasing function of the key. *)
Lemma dense_rank_ranks (rows : list A) r1 k1 r2 k2 :
  In (r1, k1) (dense_rank key rows) ->
  In (r2, k2) (dense_rank key rows) ->
  (key r1 = key r2 -> k1 = k2) /\ (key r1 < key r2 -> k2 < k1).
Proof.
  rewrite dense_rank_as_scan. pose proof (desc_sorted key rows) as Hs.
  destruct (order_by (desc key) rows) as [|r rest]; [contradiction|].
  intros H1 H2.
  destruct (scan_ranks key _ Hs (key r) 1 (sorted_head_bound _ _ Hs))
    as [_ P].
  exact (P _ _ _ _ H1 H2).
Qed.

Lemma dense_rank_first (rows : list A) r k rest :
  dense_rank key rows = (r, k) :: rest -> k = 1.
Proof.
  unfold dense_rank. destruct (order_by (desc key) rows); [discriminate|].
  intros E. now inversion E.
Qed.

Lemma dense_rank_adjacent (rows : list A) pre r1 k1 r2 k2 post :
  dense_rank key rows = pre ++ (r1, k1) :: (r2, k2) :: post ->
  (key r2 = key r1 /\ k2 = k1) \/ (key r2 < key r1 /\ k2 = k1 + 1).
Proof.
  rewrite dense_rank_as_scan. pose proof (desc_sorted key rows) as Hs.
  destruct (order_by (desc key) rows) as [|r rest].
  - destruct pre; discriminate.
  - apply (scan_adjacent key _ Hs).
Qed.

(** The ranks start at 1 and leave no gap: below every rank other than 1
    lies the rank of some row. *)
Lemma dense_rank_no_gap (rows : list A) r k :
  In (r, k) (dense_rank key rows) ->
  1 <= k /\ (k = 1 \/ exists r', In (r', k - 1) (dense_rank key rows)).
Proof.
  intros Hin. pose proof Hin as Hin'. revert Hin'.
  rewrite dense_rank_as_scan at 1.
  destruct (order_by (desc key) rows) as [|r0 rest] eqn:E; [contradiction|].
  intros Hscan.
  destruct (scan_no_gap key _ _ _ _ _ Hscan) as [Hge [Hle|Hex]].
  - split; [assumption|].
    destruct (Z.eq_dec k 1) as [|Hk]; [now left | right].
    exists r0. replace (k - 1) with 1 by lia.
    unfold dense_rank. rewrite E. now left.
  - split; [assumption|]. right.
    destruct Hex as (r' & Hr'). exists r'.
    rewrite dense_rank_as_scan, E. exact Hr'.
Qed.

(** Under PARTITION BY, a row is ranked among the rows of its own
    partition. *)
Lemma dense_rank_over_iff {K} `{SqlEq K} (part : A -> K)
      (rows : list A) (r : A) (k : Z) :
  In (r, k) (dense_rank_over part key rows) <->
  In (r, k)
     (dense_rank key (filter (fun a => sql_eqb (part a) (part r)) rows)).
Proof.
  unfold dense_rank_over. rewrite in_flat_map. split.
  - intros ([p g] & Hg & Hin). simpl in Hin.
    pose proof (in_dense_rank_row _ _ _ Hin) as Hr.
    apply (in_group_rows part rows p g r Hg) in Hr. destruct Hr as [_ <-].
    apply in_group_by in Hg. destruct Hg as [_ ->]. exact Hin.
  - intros Hin.
    exists (part r, filter (fun a => sql_eqb (part a) (part r)) rows).
    split; [|exact Hin].
    apply in_group_by. split; [|reflexivity].
    apply in_dense_rank_row in Hin. apply filter_In in Hin.
    apply in_map. tauto.
Qed.
End DenseRankFacts.

Section DistinctCount.
Context {K : Type} `{SqlEq K}.

Lemma distinct_length_ext (l1 l2 : list K) :
  (forall x, In x l1 <-> In x l2) ->
  List.length (distinct l1) = List.length (distinct l2).
Proof.
  intros Hext. apply Permutation_length.
  apply NoDup_Permutation; try apply NoDup_distinct.
  intros x. now rewrite !in_distinct.
Qed.

Lemma distinct_length_new (x : K) (l : list K) :
  ~ In x l ->
  List.length (distinct (x :: l)) = S (List.length (distinct l)).
Proof.
  intros Hx. simpl. f_equal. f_equal. apply filter_all.
  intros a Ha. apply (proj1 (in_distinct l a)) in Ha. apply negb_true_iff.
  destruct (sql_eqb_spec a x); [subst; contradiction | reflexivity].
Qed.

Lemma distinct_length_old (x : K) (l : list K) :
  In x l -> List.length (distinct (x :: l)) = List.length (distinct l).
Proof.
  intros Hx. apply distinct_length_ext. intros y. simpl.
  split; [intros [<-|?]; assumption | auto].
Qed.
End DistinctCount.

Section DenseRankSpec.
Context {A : Type}.
Variable key : A -> Z.

Lemma in_at_least (keys : list Z) (v x : Z) :
  In x (filter (fun w => v <=? w) keys) <-> In x keys /\ v <= x.
Proof. now rewrite filter_In, Z.leb_le. Qed.

(** The scan counts distinct keys: if [rank] is the number of distinct
    keys seen before the run, the rank of each row of the run is the
    number of distinct keys that are at least the row's key. *)
Lemma scan_distinct (rows : list A) :
  StronglySorted (fun x y => key y <= key x) rows ->
  forall seen prev rank,
    Forall (fun r => key r <= prev) rows ->
    In prev seen ->
    (forall w, In w seen -> prev <= w) ->
    rank = Z.of_nat (List.length (distinct seen)) ->
    forall r k,
      In (r, k) (dense_rank_scan key prev rank rows) ->
      k = distinct_at_least (seen ++ map key rows) (key r).
Proof.
  induction 1 as [|r0 rest Hs IH Hr0];
    intros seen prev rank Hb Hprev Hseen Hrank r k; simpl;
    [intros []|].
  inversion Hb as [|? ? Hr0p Hb']; subst.
  set (rank' := if key r0 =? prev then _ else _).
  assert (Hrank' :
    rank' = Z.of_nat (List.length (distinct (seen ++ [key r0])))).
  { rewrite (distinct_length_ext (seen ++ [key r0]) (key r0 :: seen)).
    2:{ intros x. rewrite in_app_iff. simpl. tauto. }
    unfold rank'. destruct (Z.eqb_spec (key r0) prev) as [E|NE].
    - rewrite distinct_length_old; [reflexivity | now rewrite E].
    - rewrite distinct_length_new; [lia|].
      intros Hin. apply Hseen in Hin. lia. }
  rewrite Forall_forall in Hr0.
  intros [E|Hin].
  - inversion E; subst r k. rewrite Hrank'. unfold distinct_at_least.
    f_equal. apply distinct_length_ext. intros x.
    rewrite in_at_least, !in_app_iff. simpl. rewrite in_map_iff. split.
    + intros [Hx|[<-|[]]].
      * split; [auto|]. apply Hseen in Hx. lia.
      * split; [auto | lia].
    + intros [[Hx|[Hx|(a & <- & Ha)]] Hge]; auto.
      right. left. apply Hr0 in Ha. lia.
  - replace (seen ++ key r0 :: map key rest)
      with ((seen ++ [key r0]) ++ map key rest)
      by (now rewrite <- app_assoc).
    apply (IH (seen ++ [key r0]) (key r0) rank'); try assumption.
    + now apply Forall_forall.
    + apply in_app_iff. simpl. auto.
    + intros w Hw. apply in_app_iff in Hw. destruct Hw as [Hw|[<-|[]]].
      * apply Hseen in Hw. lia.
      * lia.
Qed.

(** The rank [dense_rank] gives a row is its dense rank by SQL's
    definition: the number of distinct keys of the partition that are at
    least the row's key. *)
Lemma dense_rank_spec (rows : list A) (r : A) (k : Z) :
  In (r, k) (dense_rank key rows) ->
  k = distinct_at_least (map key rows) (key r).
Proof.
  intros Hin.
  assert (Hsorted :
    k = distinct_at_least (map key (order_by (desc key) rows)) (key r)).
  { revert Hin. unfold dense_rank.
    pose proof (desc_sorted key rows) as Hs.
    destruct (order_by (desc key) rows) as [|r0 rest]; [contradiction|].
    pose proof (sorted_head_bound key _ _ Hs) as Hb.
    inversion Hs as [|? ? Hs' Hr0]; subst.
    inversion Hb as [|? ? _ Hb']; subst.
    intros [E|Hin].
    - inversion E; subst r k. unfold distinct_at_least.
      rewrite (distinct_length_ext _ [key r0]); [reflexivity|].
      intros x. rewrite in_at_least. simpl. rewrite in_map_iff.
      rewrite Forall_forall in Hr0. split.
      + intros [[<-|(a & <- & Ha)] Hge]; auto.
        left. apply Hr0 in Ha. lia.
      + intros [<-|[]]. split; [auto | lia].
    - apply (scan_distinct rest Hs' [key r0] (key r0) 1 Hb'
               (or_introl eq_refl)); [|reflexivity|exact Hin].
      intros w [<-|[]]. lia. }
  rewrite Hsorted. unfold distinct_at_least. f_equal.
  apply distinct_length_ext. intros x. rewrite !in_at_least, !in_map_iff.
  split; intros [(a & E & Ha) Hge]; (split; [|assumption]); exists a;
    (split; [assumption|]).
  - now apply in_order_by in Ha.
  - now apply in_order_by.
Qed.
End DenseRankSpec.

(* ================================================================== *)
(** * The results a query admits *)
(* ================================================================== *)

Lemma report5_display_le_total (r1 r2 : Report5.row) :
  Report5.display_le r1 r2 = true \/ Report5.display_le r2 r1 = true.
Proof.
  unfold Report5.display_le.
  destruct (Z.lt_trichotomy (Report5.film_count r1) (Report5.film_count r2))
    as [Hlt|[Heq|Hgt]].
  - right. apply orb_true_iff. left. now apply Z.ltb_lt.
  - rewrite Heq, Z.eqb_refl, Z.ltb_irrefl. simpl. apply String.leb_total.
  - left. apply orb_true_iff. left. now apply Z.ltb_lt.
Qed.

Lemma report5_display_le_trans (r1 r2 r3 : Report5.row) :
  Report5.display_le r1 r2 = true -> Report5.display_le r2 r3 = true ->
  Report5.display_le r1 r3 = true.
Proof.
  unfold Report5.display_le.
  rewrite !orb_true_iff, !andb_true_iff, !Z.ltb_lt, !Z.eqb_eq.
  intros [H12|[E12 L12]] [H23|[E23 L23]].
  - left. lia.
  - left. lia.
  - left. lia.
  - right. split; [lia|]. eapply string_leb_trans; eassumption.
Qed.

Lemma report6_display_le_total (r1 r2 : Report6.row) :
  Report6.display_le r1 r2 = true \/ Report6.display_le r2 r1 = true.
Proof.
  unfold Report6.display_le.
  destruct (Z.lt_trichotomy (Report6.active_customers r1)
                            (Report6.active_customers r2))
    as [Hlt|[Heq|Hgt]].
  - right. apply orb_true_iff. left. now apply Z.ltb_lt.
  - rewrite Heq, Z.eqb_refl, Z.ltb_irrefl. simpl. apply String.leb_total.
  - left. apply orb_true_iff. left. now apply Z.ltb_lt.
Qed.

Lemma report6_display_le_trans (r1 r2 r3 : Report6.row) :
  Report6.display_le r1 r2 = true -> Report6.display_le r2 r3 = true ->
  Report6.display_le r1 r3 = true.
Proof.
  unfold Report6.display_le.
  rewrite !orb_true_iff, !andb_true_iff, !Z.ltb_lt, !Z.eqb_eq.
  intros [H12|[E12 L12]] [H23|[E23 L23]].
  - left. lia.
  - left. lia.
  - left. lia.
  - right. split; [lia|]. eapply string_leb_trans; eassumption.
Qed.

Lemma report7_display_le_total (r1 r2 : Report7.row) :
  Report7.display_le r1 r2 = true \/ Report7.display_le r2 r1 = true.
Proof.
  unfold Report7.display_le.
  destruct (Report7.city_group r1), (Report7.city_group r2); auto.
  apply String.leb_total.
Qed.

Lemma report7_display_le_trans (r1 r2 r3 : Report7.row) :
  Report7.display_le r1 r2 = true -> Report7.display_le r2 r3 = true ->
  Report7.display_le r1 r3 = true.
Proof.
  unfold Report7.display_le.
  destruct (Report7.city_group r1), (Report7.city_group r2),
    (Report7.city_group r3); auto; try discriminate.
  apply string_leb_trans.
Qed.

(** Rows that tie under [ORDER BY key DESC] have equal keys. *)
Lemma desc_tie {A} (key : A -> Z) (a b : A) :
  desc key a b = true -> desc key b a = true -> key a = key b.
Proof. unfold desc. rewrite !Z.leb_le. lia. Qed.

Lemma report5_display_tie (r1 r2 : Report5.row) :
  Report5.display_le r1 r2 = true -> Report5.display_le r2 r1 = true ->
  Report5.film_count r1 = Report5.film_count r2 /\
  Report5.first_name r1 = Report5.first_name r2.
Proof.
  unfold Report5.display_le.
  rewrite !orb_true_iff, !andb_true_iff, !Z.ltb_lt, !Z.eqb_eq.
  intros [H12|[E12 L12]] [H21|[E21 L21]]; try lia.
  split; [assumption|]. now apply String.leb_antisym.
Qed.

Lemma report6_display_tie (r1 r2 : Report6.row) :
  Report6.display_le r1 r2 = true -> Report6.display_le r2 r1 = true ->
  Report6.city r1 = Report6.city r2.
Proof.
  unfold Report6.display_le.
  rewrite !orb_true_iff, !andb_true_iff, !Z.ltb_lt, !Z.eqb_eq.
  intros [H12|[E12 L12]] [H21|[E21 L21]]; try lia.
  now apply String.leb_antisym.
Qed.

Lemma report7_display_tie (r1 r2 : Report7.row) :
  Report7.display_le r1 r2 = true -> Report7.display_le r2 r1 = true ->
  Report7.city_group r1 = Report7.city_group r2.
Proof.
  unfold Report7.display_le.
  destruct (Report7.city_group r1), (Report7.city_group r2);
    try discriminate; auto.
  intros L12 L21. f_equal. now apply String.leb_antisym.
Qed.

(** The groups of query 6 have pairwise distinct city names. *)
Lemma report6_cities_distinct (db : Store) :
  NoDup (map Report6.city (Report6.selected db)).
Proof.
  unfold Report6.selected. rewrite map_map.
  rewrite (map_ext _ fst); [apply NoDup_group_keys|].
  intros [name g]. reflexivity.
Qed.

(** The result of one evaluation is a result the SQL text admits. *)
Lemma query_is_result (db : Store) :
  Report1.result db (Report1.query db) /\
  Report2.result db (Report2.query db) /\
  Report3.result db (Report3.query db) /\
  Report4.result db (Report4.query db) /\
  Report5.result db (Report5.query db) /\
  Report6.result db (Report6.query db) /\
  Report7.result db (Report7.query db).
Proof.
  split; [|split; [|split; [|split; [|split; [|split]]]]].
  - apply ordered_by_order_by; [apply desc_total | apply desc_trans].
  - eexists. split; [|reflexivity].
    apply ordered_by_order_by; [apply desc_total | apply desc_trans].
  - eexists. split; [|reflexivity].
    apply ordered_by_order_by; [apply desc_total | apply desc_trans].
  - apply Permutation_refl.
  - apply ordered_by_order_by;
      [apply report5_display_le_total | apply report5_display_le_trans].
  - eexists. split; [|reflexivity].
    apply ordered_by_order_by;
      [apply report6_display_le_total | apply report6_display_le_trans].
  - apply ordered_by_order_by;
      [apply report7_display_le_total | apply report7_display_le_trans].
Qed.

(** Query 6 orders by a key that contains the grouping column, so it admits
    one result only. *)
Lemma report6_result_unique (db : Store) (out : list Report6.row) :
  Report6.result db out <-> out = Report6.query db.
Proof.
  split.
  - intros (sorted & Hs & ->). unfold Report6.query. f_equal.
    apply (ordered_by_unique Report6.display_le (Report6.selected db)).
    + intros a b Ha Hb L1 L2.
      apply (NoDup_map_inj_in Report6.city (Report6.selected db));
        auto using report6_cities_distinct, report6_display_tie.
    + exact Hs.
    + apply ordered_by_order_by;
        [apply report6_display_le_total | apply report6_display_le_trans].
  - intros ->. apply query_is_result.
Qed.

(** ** Printing *)


(** The printed rows are the first rows of the result. *)
Lemma show_prefix {A} (rows : list A) :
  exists rest, rows = show rows ++ rest.
Proof. exists (skipn 20 rows). unfold show. now rewrite firstn_skipn. Qed.

(** The scenario of the specification: one children's film with one actor
    yields the one row (Ann, Lee, 1), with rank 1. *)
Example report5_scenario :
  Report5.ranked_actors scenario_store = [(Report5.mk "Ann" "Lee" 1, 1)] /\
  run_query "5" Report5.query scenario_store
    = ("5", [Report5.mk "Ann" "Lee" 1]).
Proof. split; reflexivity. Qed.

(* ================================================================== *)
(** * Joins *)
(* ================================================================== *)

(** C7. Every JOIN of the seven queries is an inner join: a combined row is
    in the join's output exactly when each of its component rows is a row of
    its table and every ON equality holds between them.  So no output row has
    a dangling reference, a row without a counterpart on some side is
    dropped, and no component is ever padded with NULLs (a combined row is a
    tuple of table rows).  Query 4 has no JOIN. *)
Theorem joins_are_inner_joins (db : Store) :
  (forall c fc,
     In (c, fc) (Report1.joined db) <->
     In c (category db) /\ In fc (film_category db) /\
     Category.category_id c = FilmCategory.category_id fc)
  /\
  (forall a fa i r,
     In (a, (fa, (i, r))) (Report2.joined db) <->
     In a (actor db) /\ In fa (film_actor db) /\
     In i (inventory db) /\ In r (rental db) /\
     Inventory.inventory_id i = Rental.inventory_id r /\
     FilmActor.film_id fa = Inventory.film_id i /\
     Actor.actor_id a = FilmActor.actor_id fa)
  /\
  (forall p r i fc c,
     In (p, (r, (i, (fc, c)))) (Report3.joined db) <->
     In p (payment db) /\ In r (rental db) /\ In i (inventory db) /\
     In fc (film_category db) /\ In c (category db) /\
     FilmCategory.category_id fc = Category.category_id c /\
     Inventory.film_id i = FilmCategory.film_id fc /\
     Rental.inventory_id r = Inventory.inventory_id i /\
     Payment.rental_id p = Rental.rental_id r)
  /\
  (forall a fa fc c,
     In (a, (fa, (fc, c))) (Report5.joined db) <->
     In a (actor db) /\ In fa (film_actor db) /\
     In fc (film_category db) /\ In c (category db) /\
     FilmCategory.category_id fc = Category.category_id c /\
     FilmActor.film_id fa = FilmCategory.film_id fc /\
     Actor.actor_id a = FilmActor.actor_id fa)
  /\
  (forall c a cu,
     In (c, a, cu) (Report6.joined db) <->
     In c (city db) /\ In a (address db) /\ In cu (customer db) /\
     City.city_id c = Address.city_id a /\
     Address.address_id a = Customer.address_id cu)
  /\
  (forall c fc f i r cu a ci,
     In (c, (fc, (f, (i, (r, (cu, (a, ci))))))) (Report7.joined db) <->
     In c (category db) /\ In fc (film_category db) /\ In f (film db) /\
     In i (inventory db) /\ In r (rental db) /\ In cu (customer db) /\
     In a (address db) /\ In ci (city db) /\
     Address.city_id a = City.city_id ci /\
     Customer.address_id cu = Address.address_id a /\
     Rental.customer_id r = Customer.customer_id cu /\
     Inventory.inventory_id i = Rental.inventory_id r /\
     Film.film_id f = Inventory.film_id i /\
     FilmCategory.film_id fc = Film.film_id f /\
     Category.category_id c = FilmCategory.category_id fc).
Proof.
  unfold Report1.joined, Report2.joined, Report3.joined, Report5.joined,
    Report6.joined, Report7.joined.
  repeat split; intros; repeat rewrite in_join in *; simpl in *;
    repeat rewrite Z.eqb_eq in *; tauto.
Qed.

(** In the scenario store the category row and the film-category row with
    the same category_id form a row of the join of query 1. *)
Lemma joins_are_inner_joins_witness :
  In (Category.mk 1 "Children", FilmCategory.mk 1 1)
     (Report1.joined scenario_store).
Proof.
  destruct (joins_are_inner_joins scenario_store) as (H1 & _).
  apply H1. simpl. auto.
Defined.

(* ================================================================== *)
(** * Query 4: the anti-join *)
(* ================================================================== *)

(** The subquery of query 4 is empty exactly for the films without an
    inventory row. *)
Lemma report4_subquery_empty (db : Store) (f : Film.t) :
  Report4.subquery db f = [] <->
  forall i, In i (inventory db) -> Inventory.film_id i <> Film.film_id f.
Proof.
  unfold Report4.subquery. split.
  - intros E i Hi.
    apply map_eq_nil in E. rewrite filter_nil_iff in E.
    apply Z.eqb_neq. auto.
  - intros Hall.
    replace (filter _ (inventory db)) with (@nil Inventory.t); [reflexivity|].
    symmetry. apply filter_nil_iff. intros i Hi. apply Z.eqb_neq. auto.
Qed.

Lemma report4_kept_iff (db : Store) (f : Film.t) :
  In f (Report4.kept db) <->
  In f (film db) /\
  forall i, In i (inventory db) -> Inventory.film_id i <> Film.film_id f.
Proof.
  unfold Report4.kept.
  now rewrite filter_In, negb_true_iff, exists_rows_false,
    report4_subquery_empty.
Qed.

(** C1, as stated, fails: with two films of one title, of which only the
    first is in the inventory, the first film's title is in the output
    although an inventory row has its film_id. *)
Lemma report4_shared_title_counterexample :
  ~ (forall (db : Store) (f : Film.t),
       In f (film db) ->
       (In (Film.title f) (Report4.query db) <->
        forall i, In i (inventory db) ->
                  Inventory.film_id i <> Film.film_id f)).
Proof.
  intros claim.
  destruct (claim shared_title_store (Film.mk 1 "Heat" 170)) as [Hout _].
  - simpl. auto.
  - apply (Hout (or_introl eq_refl) (Inventory.mk 1 1)); simpl; auto.
Qed.

(** C1, amended.  Query 4 is an anti-join on the rows of [film]: a film row
    is kept exactly when no inventory row has its film_id, and the output is
    the list of the titles of the kept rows.  Hence a title is in the output
    exactly when some film row with that title has no inventory row; and
    when films with equal titles have equal film_id, a film's title is in
    the output exactly when no inventory row has that film's film_id.  The
    query has no ORDER BY; every result it admits holds the same titles. *)
Theorem report4_anti_join (db : Store) :
  (forall f,
     In f (Report4.kept db) <->
     In f (film db) /\
     forall i, In i (inventory db) -> Inventory.film_id i <> Film.film_id f)
  /\
  Report4.query db = map Film.title (Report4.kept db)
  /\
  (forall t,
     In t (Report4.query db) <->
     exists f, In f (film db) /\ Film.title f = t /\
       forall i, In i (inventory db) -> Inventory.film_id i <> Film.film_id f)
  /\
  ((forall f g, In f (film db) -> In g (film db) ->
                Film.title f = Film.title g -> Film.film_id f = Film.film_id g)
   ->
   forall f,
     In f (film db) ->
     (In (Film.title f) (Report4.query db) <->
      forall i, In i (inventory db) -> Inventory.film_id i <> Film.film_id f))
  /\
  (forall out,
     Report4.result db out -> forall t, In t out <-> In t (Report4.query db)).
Proof.
  assert (Htitle : forall t,
    In t (Report4.query db) <->
    exists f, In f (film db) /\ Film.title f = t /\
      forall i, In i (inventory db) -> Inventory.film_id i <> Film.film_id f).
  { intros t. unfold Report4.query. rewrite in_map_iff. split.
    - intros (f & Et & Hf). apply report4_kept_iff in Hf.
      exists f. tauto.
    - intros (f & Hf & Et & Hno). exists f. split; [assumption|].
      apply report4_kept_iff. auto. }
  split; [apply report4_kept_iff|].
  split; [reflexivity|].
  split; [exact Htitle|].
  split.
  - intros Huniq f Hf. rewrite Htitle. split.
    + intros (g & Hg & Et & Hno) i Hi.
      rewrite <- (Huniq g f Hg Hf Et). auto.
    + intros Hno. exists f. auto.
  - intros out R t. unfold Report4.result in R.
    split; apply Permutation_in; [symmetry|]; exact R.
Qed.

(** In the scenario store "Up", which has no inventory row, is in the output
    and "Shrek", which has one, is not. *)
Lemma report4_anti_join_witness :
  In "Up" (Report4.query scenario_store) /\
  ~ In "Shrek" (Report4.query scenario_store).
Proof.
  destruct (report4_anti_join scenario_store) as (_ & _ & _ & H & _).
  assert (Huniq : forall f g,
    In f (film scenario_store) -> In g (film scenario_store) ->
    Film.title f = Film.title g -> Film.film_id f = Film.film_id g).
  { simpl. intros f g [<-|[<-|[]]] [<-|[<-|[]]]; simpl; congruence. }
  split.
  - apply (H Huniq (Film.mk 2 "Up" 96)).
    + simpl. auto.
    + simpl. intros i [<-|[]]. simpl. lia.
  - intros Hin.
    apply (H Huniq (Film.mk 1 "Shrek" 90)) with (i := Inventory.mk 1 1) in Hin.
    + apply Hin. reflexivity.
    + simpl. auto.
    + simpl. auto.
Defined.

(** C2. The ranker assigns dense ranks.  The ranked rows of a partition are
    its rows sorted by the sort column, largest first; the first rank is 1;
    rows with equal sort values have the same rank; from one row to the next
    the rank stays when the sort value stays and grows by exactly one when
    the sort value drops, so no rank is skipped; the rank of a row is the
    number of distinct sort values at least as large as its own; under
    PARTITION BY each row is ranked within its own partition; and the sort
    values [10, 10, 8, 5] get the ranks [1, 1, 2, 3], not [1, 1, 3, 4]. *)
Theorem dense_rank_no_gaps :
  (forall (A : Type) (key : A -> Z) (rows : list A),
     Permutation (map fst (dense_rank key rows)) rows /\
     StronglySorted (fun x y => key y <= key x) (map fst (dense_rank key rows))
     /\
     (forall r k rest, dense_rank key rows = (r, k) :: rest -> k = 1) /\
     (forall r1 k1 r2 k2,
        In (r1, k1) (dense_rank key rows) ->
        In (r2, k2) (dense_rank key rows) ->
        key r1 = key r2 -> k1 = k2) /\
     (forall pre r1 k1 r2 k2 post,
        dense_rank key rows = pre ++ (r1, k1) :: (r2, k2) :: post ->
        (key r2 = key r1 /\ k2 = k1) \/ (key r2 < key r1 /\ k2 = k1 + 1)) /\
     (forall r k,
        In (r, k) (dense_rank key rows) ->
        1 <= k /\ (k = 1 \/ exists r', In (r', k - 1) (dense_rank key rows)))
     /\
     (forall r k,
        In (r, k) (dense_rank key rows) ->
        k = distinct_at_least (map key rows) (key r)))
  /\
  (forall (A K : Type) (E : SqlEq K) (part : A -> K) (key : A -> Z)
          (rows : list A) (r : A) (k : Z),
     In (r, k) (dense_rank_over part key rows) <->
     In (r, k)
        (dense_rank key (filter (fun a => sql_eqb (part a) (part r)) rows)))
  /\
  map snd (dense_rank (fun v : Z => v) [10; 10; 8; 5]) = [1; 1; 2; 3]
  /\
  map snd (dense_rank (fun v : Z => v) [10; 10; 8; 5]) <> [1; 1; 3; 4].
Proof.
  split; [|split; [|split]].
  - intros A key rows. repeat split.
    + apply dense_rank_perm.
    + rewrite dense_rank_rows. apply desc_sorted.
    + apply dense_rank_first.
    + intros r1 k1 r2 k2 H1 H2.
      now apply (dense_rank_ranks key rows r1 k1 r2 k2).
    + apply dense_rank_adjacent.
    + eapply dense_rank_no_gap; eassumption.
    + eapply dense_rank_no_gap; eassumption.
    + apply dense_rank_spec.
  - intros. apply dense_rank_over_iff.
  - reflexivity.
  - vm_compute. discriminate.
Qed.

(** In [10, 10, 8, 5] the step from the second 10 to 8 is a drop of the sort
    value, and the rank grows from 1 to 2. *)
Lemma dense_rank_no_gaps_witness :
  (8 = 10 /\ 2 = 1) \/ (8 < 10 /\ 2 = 1 + 1).
Proof.
  destruct dense_rank_no_gaps as (H & _).
  destruct (H Z (fun v => v) [10; 10; 8; 5]) as (_ & _ & _ & _ & Hadj & _).
  apply (Hadj [(10, 1)] 10 1 8 2 [(5, 3)]). reflexivity.
Defined.

(* ================================================================== *)
(** * Query 5: top three by rank *)
(* ================================================================== *)

Lemma in_report5_ranked (db : Store) (r : Report5.row) (k : Z) :
  In (r, k) (Report5.ranked_actors db) <->
  exists c,
    In (c, k) (dense_rank Report5.c_film_count (Report5.actor_film_counts db))
    /\ r = Report5.project c.
Proof.
  unfold Report5.ranked_actors. rewrite in_map_iff. split.
  - intros ([c k'] & E & Hin). inversion E; subst. eauto.
  - intros (c & Hin & ->). exists (c, k). auto.
Qed.

Lemma in_report5_query (db : Store) (r : Report5.row) :
  In r (Report5.query db) <->
  exists k, In (r, k) (Report5.ranked_actors db) /\ k <= 3.
Proof.
  unfold Report5.query. rewrite in_order_by.
  rewrite (in_filter_fst (fun k => k <=? 3)).
  split; intros (k & Hin & Hk); exists k; (split; [assumption|]);
    now apply Z.leb_le.
Qed.

(** C3. Query 5 limits by dense rank, not by row count.  Its output is the
    rows of [ranked_actors] whose rank is at most 3, each as often as it is
    ranked, in the order film_count descending, first_name ascending (every
    result the query admits has these rows in such an order).  The
    rank of a row is the number of distinct film counts that are at least
    its own, so it is computed from film_count alone: an actor appears
    exactly when at most three distinct film counts, its own included, are
    at least its own, and actors with equal film counts have equal ranks and
    appear together.  With the film counts [5, 5, 5, 3] all four actors
    appear, with the ranks [1, 1, 1, 2]; with [3, 2, 1, 1], where the third
    and the fourth place tie, both appear; with [4, 3, 2, 1] the fourth
    actor has rank 4 and is left out. *)
Theorem report5_limits_by_rank :
  (forall db : Store,
     Permutation
       (Report5.query db)
       (map fst (filter (fun '(_, rnk) => rnk <=? 3)
                        (Report5.ranked_actors db)))
     /\
     (forall r, In r (Report5.query db) <->
                exists k, In (r, k) (Report5.ranked_actors db) /\ k <= 3)
     /\
     (forall r k,
        In (r, k) (Report5.ranked_actors db) ->
        k = distinct_at_least
              (map Report5.c_film_count (Report5.actor_film_counts db))
              (Report5.film_count r))
     /\
     (forall c,
        In c (Report5.actor_film_counts db) ->
        (In (Report5.project c) (Report5.query db) <->
         distinct_at_least
           (map Report5.c_film_count (Report5.actor_film_counts db))
           (Report5.c_film_count c) <= 3))
     /\
     (forall r,
        In r (Report5.query db) ->
        exists c, In c (Report5.actor_film_counts db) /\
                  r = Report5.project c)
     /\
     (forall r1 k1 r2 k2,
        In (r1, k1) (Report5.ranked_actors db) ->
        In (r2, k2) (Report5.ranked_actors db) ->
        Report5.film_count r1 = Report5.film_count r2 ->
        k1 = k2 /\ (In r1 (Report5.query db) <-> In r2 (Report5.query db)))
     /\
     StronglySorted (fun r1 r2 => Report5.display_le r1 r2 = true)
                    (Report5.query db)
     /\
     (forall out,
        Report5.result db out ->
        Permutation (Report5.query db) out /\
        StronglySorted (fun r1 r2 => Report5.display_le r1 r2 = true) out))
  /\
  (map snd (Report5.ranked_actors (children_store 5 5 5 5 3)) = [1; 1; 1; 2]
   /\
   Report5.query (children_store 5 5 5 5 3) =
     [Report5.mk "Bo" "Cedar" 5; Report5.mk "Cy" "Birch" 5;
      Report5.mk "Dan" "Ash" 5; Report5.mk "Al" "Dale" 3])
  /\
  (map snd (Report5.ranked_actors (children_store 3 3 2 1 1)) = [1; 2; 3; 3]
   /\
   Report5.query (children_store 3 3 2 1 1) =
     [Report5.mk "Dan" "Ash" 3; Report5.mk "Cy" "Birch" 2;
      Report5.mk "Al" "Dale" 1; Report5.mk "Bo" "Cedar" 1])
  /\
  (map snd (Report5.ranked_actors (children_store 4 4 3 2 1)) = [1; 2; 3; 4]
   /\
   Report5.query (children_store 4 4 3 2 1) =
     [Report5.mk "Dan" "Ash" 4; Report5.mk "Cy" "Birch" 3;
      Report5.mk "Bo" "Cedar" 2]).
Proof.
  split; [|repeat split; vm_compute; reflexivity].
  intros db.
  assert (Hspec : forall r k,
    In (r, k) (Report5.ranked_actors db) ->
    k = distinct_at_least
          (map Report5.c_film_count (Report5.actor_film_counts db))
          (Report5.film_count r)).
  { intros r k Hin. apply in_report5_ranked in Hin.
    destruct Hin as (c & Hin & ->).
    now apply dense_rank_spec in Hin. }
  split; [apply order_by_perm|].
  split; [apply in_report5_query|].
  split; [exact Hspec|].
  split; [|split; [|split]].
  - intros c Hc. rewrite in_report5_query. split.
    + intros (k & Hin & Hk). apply Hspec in Hin. simpl in Hin. lia.
    + intros Hle.
      destruct (dense_rank_covers Report5.c_film_count _ c Hc) as (k & Hin).
      exists k. split.
      * apply in_report5_ranked. eauto.
      * apply dense_rank_spec in Hin. lia.
  - intros r Hr. apply in_report5_query in Hr.
    destruct Hr as (k & Hin & _). apply in_report5_ranked in Hin.
    destruct Hin as (c & Hin & ->). exists c. split; [|reflexivity].
    eapply in_dense_rank_row. exact Hin.
  - intros r1 k1 r2 k2 H1 H2 E.
    assert (Ek : k1 = k2).
    { rewrite (Hspec _ _ H1), (Hspec _ _ H2). now rewrite E. }
    split; [exact Ek|]. subst k2. rewrite !in_report5_query.
    split; intros (k & Hin & Hk); rewrite (Hspec _ _ Hin) in Hk.
    + exists k1. split; [exact H2|]. now rewrite (Hspec _ _ H1).
    + exists k1. split; [exact H1|]. now rewrite (Hspec _ _ H2).
  - split.
    + apply order_by_sorted.
      * apply report5_display_le_total.
      * apply report5_display_le_trans.
    + intros out [P S]. split; [|exact S].
      unfold Report5.query. now rewrite order_by_perm.
Qed.

(** With the film counts [5, 5, 5, 3] the fourth actor, with two distinct
    film counts at least its own, is in the result. *)
Lemma report5_limits_by_rank_witness :
  In (Report5.mk "Al" "Dale" 3) (Report5.query (children_store 5 5 5 5 3)).
Proof.
  destruct report5_limits_by_rank as (H & _).
  destruct (H (children_store 5 5 5 5 3)) as (_ & _ & _ & Hin & _).
  apply (Hin (Report5.mk_counts 4 "Al" "Dale" 3)).
  - vm_compute. do 3 right. left. reflexivity.
  - vm_compute. discriminate.
Defined.

(* ================================================================== *)
(** * Query 6: conditional sums *)
(* ================================================================== *)

Lemma in_report6_selected (db : Store) (r : Report6.row) :
  In r (Report6.selected db) <->
  exists g,
    In (Report6.city r, g) (Report6.grouped db) /\
    Report6.active_customers r =
      sum (fun '(_, _, cu) =>
             if sql_eqb (Customer.activebool cu) true then 1 else 0) g /\
    Report6.inactive_customers r =
      sum (fun '(_, _, cu) =>
             if sql_eqb (Customer.activebool cu) false then 1 else 0) g.
Proof.
  unfold Report6.selected. rewrite in_map_iff. split.
  - intros ([name g] & <- & Hin). exists g. simpl. auto.
  - intros (g & Hin & Ha & Hi). exists (Report6.city r, g).
    split; [|assumption]. destruct r; simpl in *. now subst.
Qed.

(** C4. In query 6 the two conditional sums of a city group add up to the
    number of joined rows of the group.  A joined row adds 1 to exactly one
    of the two sums: to active_customers if the customer's flag is true, to
    inactive_customers if it is false.  This holds for every group, and the
    rows of the result (the first 20 groups in display order, which is the
    one result the query admits) are groups. *)
Theorem report6_branches_sum_to_total (db : Store) :
  (forall cu : Customer.t,
     (if sql_eqb (Customer.activebool cu) true then 1 else 0) +
     (if sql_eqb (Customer.activebool cu) false then 1 else 0) = 1)
  /\
  (forall r,
     In r (Report6.selected db) ->
     let group :=
       filter (fun '(c, _, _) => String.eqb (City.city c) (Report6.city r))
              (Report6.joined db) in
     group <> [] /\
     Report6.active_customers r =
       count (filter (fun '(_, _, cu) => Customer.activebool cu) group) /\
     Report6.inactive_customers r =
       count (filter (fun '(_, _, cu) => negb (Customer.activebool cu))
                     group) /\
     Report6.active_customers r + Report6.inactive_customers r = count group)
  /\
  (forall c a cu,
     In (c, a, cu) (Report6.joined db) ->
     exists r, In r (Report6.selected db) /\ Report6.city r = City.city c)
  /\
  (forall out,
     Report6.result db out ->
     out = Report6.query db /\
     forall r, In r out -> In r (Report6.selected db)).
Proof.
  split; [intros cu; destruct (Customer.activebool cu); reflexivity|].
  split; [|split].
  - intros r Hr. apply in_report6_selected in Hr.
    destruct Hr as (g & Hg & Ha & Hi).
    apply in_group_by in Hg. destruct Hg as [Hkey Eg].
    assert (Egroup : g =
      filter (fun '(c, _, _) => String.eqb (City.city c) (Report6.city r))
             (Report6.joined db)).
    { rewrite Eg. apply filter_ext. intros [[c a] cu]. reflexivity. }
    cbv zeta. rewrite <- Egroup.
    split; [|split; [|split]].
    + apply in_map_iff in Hkey. destruct Hkey as (j & Ej & Hj).
      intros Hnil. rewrite Eg in Hnil.
      apply (proj1 (filter_nil_iff _ _)) with (a := j) in Hnil;
        [|assumption].
      rewrite Ej in Hnil. simpl in Hnil. rewrite String.eqb_refl in Hnil.
      discriminate.
    + rewrite Ha, <- sum_indicator. apply sum_ext.
      intros [[c a] cu] _. destruct (Customer.activebool cu); reflexivity.
    + rewrite Hi, <- sum_indicator. apply sum_ext.
      intros [[c a] cu] _. destruct (Customer.activebool cu); reflexivity.
    + rewrite Ha, Hi, sum_plus. apply sum_ones.
      intros [[c a] cu] _. destruct (Customer.activebool cu); reflexivity.
  - intros c a cu Hj.
    exists (Report6.mk (City.city c)
              (sum (fun '(_, _, cu) =>
                 if sql_eqb (Customer.activebool cu) true then 1 else 0)
                 (filter (fun j => sql_eqb (let '(c, _, _) := j in City.city c)
                                           (City.city c))
                         (Report6.joined db)))
              (sum (fun '(_, _, cu) =>
                 if sql_eqb (Customer.activebool cu) false then 1 else 0)
                 (filter (fun j => sql_eqb (let '(c, _, _) := j in City.city c)
                                           (City.city c))
                         (Report6.joined db)))).
    split; [|reflexivity].
    apply in_report6_selected. simpl.
    eexists. split; [|split; reflexivity].
    apply in_group_by. split; [|reflexivity].
    apply in_map_iff. exists (c, a, cu). auto.
  - intros out R. apply report6_result_unique in R. subst out.
    split; [reflexivity|].
    intros r Hr. unfold Report6.query in Hr. apply in_limit in Hr.
    now apply in_order_by in Hr.
Qed.

(** In the example store the group of "a-lantis" has one joined row, of an
    active customer. *)
Lemma report6_branches_sum_to_total_witness :
  1 + 0 =
  count (filter (fun '(c, _, _) => String.eqb (City.city c) "a-lantis")
                (Report6.joined cities_store)).
Proof.
  destruct (report6_branches_sum_to_total cities_store) as (_ & H & _).
  destruct (H (Report6.mk "a-lantis" 1 0)) as (_ & _ & _ & Hsum).
  - vm_compute. left. reflexivity.
  - exact Hsum.
Defined.

(* ================================================================== *)
(** * Query 7: the bucketizer *)
(* ================================================================== *)

Lemma like_chars_percent (p s : list ascii) :
  like_chars ("%"%char :: p) s =
  like_chars p s
  || match s with [] => false | _ :: s' => like_chars ("%"%char :: p) s' end.
Proof. destruct s; reflexivity. Qed.

(** The pattern [%] matches every string. *)
Lemma like_chars_any (s : list ascii) : like_chars ["%"%char] s = true.
Proof.
  induction s as [|c s IH]; rewrite like_chars_percent; [reflexivity|].
  rewrite IH. apply orb_true_r.
Qed.

(** A pattern character other than the two wildcards matches itself. *)
Lemma like_chars_literal (c : ascii) (p s : list ascii) :
  c <> "%"%char -> c <> "_"%char ->
  like_chars (c :: p) s =
  match s with
  | [] => false
  | d :: s' => Ascii.eqb c d && like_chars p s'
  end.
Proof.
  intros H1 H2. cbn [like_chars].
  destruct (Ascii.eqb_spec c "%"); [contradiction|].
  destruct (Ascii.eqb_spec c "_"); [contradiction|].
  reflexivity.
Qed.

(** ['a%'] is the case-sensitive prefix test. *)
Lemma like_starts_with_a (s : string) :
  like s "a%" = true <-> exists rest, s = String "a" rest.
Proof.
  unfold like.
  change (list_ascii_of_string "a%") with ["a"; "%"]%char.
  rewrite like_chars_literal by discriminate.
  destruct s as [|c s]; cbn [list_ascii_of_string].
  - split; [discriminate | intros (rest & E); discriminate].
  - rewrite like_chars_any, andb_true_r, Ascii.eqb_eq. split.
    + intros <-. eauto.
    + intros (rest & E). now inversion E.
Qed.

Lemma like_chars_contains_hyphen (s : list ascii) :
  like_chars ["%"; "-"; "%"]%char s = true <-> In "-"%char s.
Proof.
  induction s as [|c s IH]; rewrite like_chars_percent;
    rewrite like_chars_literal by discriminate.
  - simpl. split; [discriminate | contradiction].
  - rewrite orb_true_iff, IH.
    rewrite like_chars_any, andb_true_r, Ascii.eqb_eq. simpl.
    split; intros [E|Hin]; auto.
Qed.

(** ['%-%'] is the substring test for the one character ['-']. *)
Lemma like_contains_hyphen (s : string) :
  like s "%-%" = true <-> In "-"%char (list_ascii_of_string s).
Proof. apply like_chars_contains_hyphen. Qed.

Lemma case_city_group_first (city : string) :
  like city "a%" = true ->
  Report7.case_city_group city = Some "Starts with a".
Proof. unfold Report7.case_city_group. now intros ->. Qed.

Lemma case_city_group_second (city : string) :
  like city "a%" = false -> like city "%-%" = true ->
  Report7.case_city_group city = Some "Contains hyphen".
Proof. unfold Report7.case_city_group. now intros -> ->. Qed.

Lemma case_city_group_null (city : string) :
  Report7.case_city_group city = None <-> Report7.where_clause city = false.
Proof.
  unfold Report7.case_city_group, Report7.where_clause.
  destruct (like city "a%"), (like city "%-%"); simpl; split; congruence.
Qed.

Lemma case_city_group_labelled (city : string) :
  Report7.where_clause city = true ->
  Report7.case_city_group city = Some "Starts with a" \/
  Report7.case_city_group city = Some "Contains hyphen".
Proof.
  unfold Report7.case_city_group, Report7.where_clause.
  destruct (like city "a%"), (like city "%-%"); simpl; auto; discriminate.
Qed.

Lemma in_report7_grouped_data (db : Store) (r : Report7.row) :
  In r (Report7.grouped_data db) ->
  exists j,
    In j (Report7.filtered db) /\
    Report7.city_group r = Report7.case_city_group (Report7.city_of j) /\
    Report7.category_name r = Category.name (fst j).
Proof.
  unfold Report7.grouped_data. rewrite in_map_iff.
  intros ([[group name] g] & <- & Hin). simpl.
  apply in_group_by in Hin. destruct Hin as [Hkey _].
  apply in_map_iff in Hkey. destruct Hkey as (j & E & Hj).
  exists j. split; [assumption|]. destruct j as [c rest].
  inversion E; subst. auto.
Qed.

Lemma in_report7_ranked_data (db : Store) (r : Report7.row) (k : Z) :
  In (r, k) (Report7.ranked_data db) -> In r (Report7.grouped_data db).
Proof.
  unfold Report7.ranked_data. rewrite dense_rank_over_iff. intros Hin.
  apply in_dense_rank_row in Hin. apply filter_In in Hin. tauto.
Qed.


(** C5. The bucketizer of query 7 tests its patterns in order and the first
    match wins; matching is literal and case-sensitive.  ['a%'] holds exactly
    of the strings that begin with a lower-case a, ['%-%'] exactly of those
    that contain a hyphen.  A city that matches ['a%'] gets the label
    'Starts with a' whether or not it also contains a hyphen; "a-lantis"
    matches both patterns and gets that label only.  A joined row lies in
    the group of its own label and category and in no other, so a row of
    "a-lantis" is counted under 'Starts with a' alone.  A name that begins
    with an upper-case A does not match ['a%']: "Atlantis" matches neither
    pattern.  In the example store, with one 90-minute rental in each of
    "a-lantis", "Atlantis" and "Aix-les-Bains", each bucket totals 1.5
    hours. *)
Theorem bucket_first_match_wins :
  (like "a-lantis" "a%" = true /\ like "a-lantis" "%-%" = true /\
   Report7.case_city_group "a-lantis" = Some "Starts with a")
  /\
  (forall city, like city "a%" = true <-> exists rest, city = String "a" rest)
  /\
  (forall city,
     like city "%-%" = true <-> In "-"%char (list_ascii_of_string city))
  /\
  (forall city,
     like city "a%" = true ->
     Report7.case_city_group city = Some "Starts with a")
  /\
  (forall city,
     like city "a%" = false -> like city "%-%" = true ->
     Report7.case_city_group city = Some "Contains hyphen")
  /\
  (forall (db : Store) j key g,
     In (key, g) (Report7.grouped db) ->
     (In j g <->
      In j (Report7.filtered db) /\
      key = (Report7.case_city_group (Report7.city_of j),
             Category.name (fst j))))
  /\
  (forall rest, like (String "A" rest) "a%" = false)
  /\
  (Report7.case_city_group "Atlantis" = None /\
   Report7.where_clause "Atlantis" = false /\
   Report7.case_city_group "Aix-les-Bains" = Some "Contains hyphen")
  /\
  Report7.grouped_data cities_store =
    [Report7.mk (Some "Starts with a") "Children" 1500000;
     Report7.mk (Some "Contains hyphen") "Children" 1500000].
Proof.
  split; [repeat split; reflexivity|].
  split; [exact like_starts_with_a|].
  split; [exact like_contains_hyphen|].
  split; [exact case_city_group_first|].
  split; [exact case_city_group_second|].
  split; [|split; [|split; [repeat split; reflexivity | reflexivity]]].
  - intros db j key g Hg.
    rewrite (in_group_rows _ _ key g j Hg).
    destruct j as [c rest]. simpl. split; intros [Hj E]; split; congruence.
  - intros rest. destruct (like (String "A" rest) "a%") eqn:E;
      [|reflexivity].
    apply like_starts_with_a in E. destruct E as (rest' & E). discriminate.
Qed.

(** C6. The CASE of query 7 has no ELSE, and its NULL is never reached: the
    CASE is NULL exactly on the city names that fail the WHERE clause, so
    each row that passes the WHERE clause has one of the two labels, and so
    has each row of [grouped_data], of [ranked_data] and of every result
    the query admits. *)
Theorem report7_label_never_null (db : Store) :
  (forall city,
     Report7.case_city_group city = None <->
     Report7.where_clause city = false)
  /\
  (forall j,
     In j (Report7.filtered db) ->
     Report7.case_city_group (Report7.city_of j) = Some "Starts with a" \/
     Report7.case_city_group (Report7.city_of j) = Some "Contains hyphen")
  /\
  (forall r,
     In r (Report7.grouped_data db) ->
     Report7.city_group r = Some "Starts with a" \/
     Report7.city_group r = Some "Contains hyphen")
  /\
  (forall r k,
     In (r, k) (Report7.ranked_data db) ->
     Report7.city_group r = Some "Starts with a" \/
     Report7.city_group r = Some "Contains hyphen")
  /\
  (forall out r,
     Report7.result db out ->
     In r out ->
     Report7.city_group r = Some "Starts with a" \/
     Report7.city_group r = Some "Contains hyphen").
Proof.
  assert (Hfiltered : forall j,
    In j (Report7.filtered db) ->
    Report7.case_city_group (Report7.city_of j) = Some "Starts with a" \/
    Report7.case_city_group (Report7.city_of j) = Some "Contains hyphen").
  { intros j Hj. apply filter_In in Hj.
    apply case_city_group_labelled. tauto. }
  assert (Hgrouped : forall r,
    In r (Report7.grouped_data db) ->
    Report7.city_group r = Some "Starts with a" \/
    Report7.city_group r = Some "Contains hyphen").
  { intros r Hr. apply in_report7_grouped_data in Hr.
    destruct Hr as (j & Hj & -> & _). auto. }
  split; [exact case_city_group_null|].
  split; [exact Hfiltered|].
  split; [exact Hgrouped|].
  split.
  - intros r k Hin. apply in_report7_ranked_data in Hin. auto.
  - intros out r [P _] Hin.
    apply (Permutation_in _ (Permutation_sym P)) in Hin.
    apply (in_filter_fst (fun k => k =? 1)) in Hin.
    destruct Hin as (k & Hin & _).
    apply in_report7_ranked_data in Hin. auto.
Qed.

(** "apple-pie" matches ['a%'] and gets the first label. *)
Lemma bucket_first_match_wins_witness :
  Report7.case_city_group "apple-pie" = Some "Starts with a".
Proof.
  destruct bucket_first_match_wins as (_ & _ & _ & H & _).
  apply H. reflexivity.
Defined.

(** In the example store the group of "a-lantis" is labelled. *)
Lemma report7_label_never_null_witness :
  Some "Starts with a" = Some "Starts with a" \/
  Some "Starts with a" = Some "Contains hyphen".
Proof.
  destruct (report7_label_never_null cities_store) as (_ & _ & H & _).
  apply (H (Report7.mk (Some "Starts with a") "Children" 1500000)).
  vm_compute. left. reflexivity.
Defined.

(* ================================================================== *)
(** * Empty tables and the row limit *)
(* ================================================================== *)

Lemma report1_joined_nil (db : Store) :
  category db = [] \/ film_category db = [] -> Report1.joined db = [].
Proof.
  unfold Report1.joined. intros [E|E]; rewrite E; join_nil.
Qed.

Lemma report2_joined_nil (db : Store) :
  actor db = [] \/ film_actor db = [] \/ inventory db = [] \/ rental db = []
  -> Report2.joined db = [].
Proof.
  unfold Report2.joined. intros [E|[E|[E|E]]]; rewrite E; join_nil.
Qed.

Lemma report3_joined_nil (db : Store) :
  payment db = [] \/ rental db = [] \/ inventory db = [] \/
  film_category db = [] \/ category db = [] ->
  Report3.joined db = [].
Proof.
  unfold Report3.joined. intros [E|[E|[E|[E|E]]]]; rewrite E; join_nil.
Qed.

Lemma report5_joined_nil (db : Store) :
  actor db = [] \/ film_actor db = [] \/ film_category db = [] \/
  category db = [] ->
  Report5.joined db = [].
Proof.
  unfold Report5.joined. intros [E|[E|[E|E]]]; rewrite E; join_nil.
Qed.

Lemma report6_joined_nil (db : Store) :
  city db = [] \/ address db = [] \/ customer db = [] ->
  Report6.joined db = [].
Proof.
  unfold Report6.joined. intros [E|[E|E]]; rewrite E; join_nil.
Qed.

Lemma report7_joined_nil (db : Store) :
  category db = [] \/ film_category db = [] \/ film db = [] \/
  inventory db = [] \/ rental db = [] \/ customer db = [] \/
  address db = [] \/ city db = [] ->
  Report7.joined db = [].
Proof.
  unfold Report7.joined.
  intros [E|[E|[E|[E|[E|[E|[E|E]]]]]]]; rewrite E; join_nil.
Qed.

(** C9, as stated, fails for query 4: with a film and an empty inventory
    table the result is not empty (and the query has no aggregate). *)
Lemma report4_empty_inventory_counterexample :
  ~ (forall db : Store,
       film db = [] \/ inventory db = [] -> Report4.query db = []).
Proof.
  intros claim. specialize (claim no_inventory_store (or_intror eq_refl)).
  discriminate claim.
Qed.

(** C9, amended.  Every query is a total function of the store and has a
    result whatever the tables hold, so none fails on an empty table.
    Queries 1, 2, 3, 5, 6 and 7 read their tables through inner joins: as
    soon as one of those tables is empty the result is empty, and it is the
    only result the query admits (no group is formed, so no aggregate is
    output).  Query 4 has an empty result when [film] is empty; when only
    [inventory] is empty its result is the titles of all films. *)
Theorem reports_on_empty_tables (db : Store) :
  (category db = [] \/ film_category db = [] ->
   Report1.query db = [] /\ forall out, Report1.result db out -> out = [])
  /\
  (actor db = [] \/ film_actor db = [] \/ inventory db = [] \/
   rental db = [] ->
   Report2.query db = [] /\ forall out, Report2.result db out -> out = [])
  /\
  (payment db = [] \/ rental db = [] \/ inventory db = [] \/
   film_category db = [] \/ category db = [] ->
   Report3.query db = [] /\ forall out, Report3.result db out -> out = [])
  /\
  (film db = [] ->
   Report4.query db = [] /\ forall out, Report4.result db out -> out = [])
  /\
  (inventory db = [] ->
   Report4.query db = map Film.title (film db) /\
   forall out,
     Report4.result db out <-> Permutation (map Film.title (film db)) out)
  /\
  (actor db = [] \/ film_actor db = [] \/ film_category db = [] \/
   category db = [] ->
   Report5.query db = [] /\ forall out, Report5.result db out -> out = [])
  /\
  (city db = [] \/ address db = [] \/ customer db = [] ->
   Report6.query db = [] /\ forall out, Report6.result db out -> out = [])
  /\
  (category db = [] \/ film_category db = [] \/ film db = [] \/
   inventory db = [] \/ rental db = [] \/ customer db = [] \/
   address db = [] \/ city db = [] ->
   Report7.query db = [] /\ forall out, Report7.result db out -> out = []).
Proof.
  split; [|split; [|split; [|split; [|split; [|split; [|split]]]]]].
  - intros E. pose proof (report1_joined_nil db E) as J. split.
    + unfold Report1.query, Report1.selected, Report1.grouped.
      now rewrite J.
    + intros out R.
      unfold Report1.result, Report1.selected, Report1.grouped in R.
      rewrite J in R. now apply ordered_by_nil in R.
  - intros E. pose proof (report2_joined_nil db E) as J. split.
    + unfold Report2.query, Report2.selected, Report2.grouped.
      now rewrite J.
    + intros out (sorted & R & ->).
      unfold Report2.selected, Report2.grouped in R.
      rewrite J in R. apply ordered_by_nil in R. now subst.
  - intros E. pose proof (report3_joined_nil db E) as J. split.
    + unfold Report3.query, Report3.selected, Report3.grouped.
      now rewrite J.
    + intros out (sorted & R & ->).
      unfold Report3.selected, Report3.grouped in R.
      rewrite J in R. apply ordered_by_nil in R. now subst.
  - intros E. split.
    + unfold Report4.query, Report4.kept. now rewrite E.
    + intros out R. unfold Report4.result, Report4.kept in R.
      rewrite E in R. now apply Permutation_nil in R.
  - intros E.
    assert (K : Report4.kept db = film db).
    { unfold Report4.kept, Report4.subquery. rewrite E.
      apply filter_all. reflexivity. }
    split.
    + unfold Report4.query. now rewrite K.
    + intros out. unfold Report4.result. now rewrite K.
  - intros E. pose proof (report5_joined_nil db E) as J. split.
    + unfold Report5.query, Report5.ranked_actors,
        Report5.actor_film_counts, Report5.grouped, Report5.filtered.
      now rewrite J.
    + intros out R.
      unfold Report5.result, Report5.ranked_actors,
        Report5.actor_film_counts, Report5.grouped, Report5.filtered in R.
      rewrite J in R. now apply ordered_by_nil in R.
  - intros E. pose proof (report6_joined_nil db E) as J. split.
    + unfold Report6.query, Report6.selected, Report6.grouped.
      now rewrite J.
    + intros out (sorted & R & ->).
      unfold Report6.selected, Report6.grouped in R.
      rewrite J in R. apply ordered_by_nil in R. now subst.
  - intros E. pose proof (report7_joined_nil db E) as J. split.
    + unfold Report7.query, Report7.ranked_data, Report7.grouped_data,
        Report7.grouped, Report7.filtered.
      now rewrite J.
    + intros out R.
      unfold Report7.result, Report7.ranked_data, Report7.grouped_data,
        Report7.grouped, Report7.filtered in R.
      rewrite J in R. now apply ordered_by_nil in R.
Qed.

(** On the store with a film and no inventory, queries 1, 2, 3, 5, 6 and 7
    are empty and query 4 lists the film; on the empty store query 4 is
    empty. *)
Lemma reports_on_empty_tables_witness :
  Report1.query no_inventory_store = [] /\
  Report2.query no_inventory_store = [] /\
  Report3.query no_inventory_store = [] /\
  Report4.query empty_store = [] /\
  Report4.query no_inventory_store = ["Shrek"] /\
  Report5.query no_inventory_store = [] /\
  Report6.query no_inventory_store = [] /\
  Report7.query no_inventory_store = [].
Proof.
  destruct (reports_on_empty_tables no_inventory_store)
    as (H1 & H2 & H3 & _ & H4 & H5 & H6 & H7).
  destruct (reports_on_empty_tables empty_store)
    as (_ & _ & _ & H4' & _).
  exact (conj (proj1 (H1 (or_introl eq_refl)))
        (conj (proj1 (H2 (or_introl eq_refl)))
        (conj (proj1 (H3 (or_introl eq_refl)))
        (conj (proj1 (H4' eq_refl))
        (conj (proj1 (H4 eq_refl))
        (conj (proj1 (H5 (or_introl eq_refl)))
        (conj (proj1 (H6 (or_introl eq_refl)))
              (proj1 (H7 (or_introl eq_refl)))))))))).
Defined.

(** C10. The cut of query 2 is a row limit.  The result is the first ten
    rows of the aggregated rows in display order: at most ten rows, whatever
    the ties, in every result the query admits.  In the example store eleven
    actors tie with one rental each; the result has ten rows, and "Kim",
    whose count equals that of the tenth row, is left out. *)
Theorem report2_limit_counts_rows :
  (forall db : Store,
     (List.length (Report2.query db) <= 10)%nat /\
     Report2.query db =
       firstn 10 (order_by (desc Report2.rental_count) (Report2.selected db))
     /\
     (forall r, In r (Report2.query db) -> In r (Report2.selected db))
     /\
     (forall out,
        Report2.result db out ->
        (List.length out <= 10)%nat /\
        forall r, In r out -> In r (Report2.selected db)))
  /\
  (List.length (Report2.selected tied_rentals_store) = 11%nat /\
   Forall (fun r => Report2.rental_count r = 1)
          (Report2.selected tied_rentals_store) /\
   List.length (Report2.query tied_rentals_store) = 10%nat /\
   In (Report2.mk "Kim" "Tied" 1) (Report2.selected tied_rentals_store) /\
   ~ In (Report2.mk "Kim" "Tied" 1) (Report2.query tied_rentals_store)).
Proof.
  split.
  - intros db. split; [apply limit_length|]. split; [reflexivity|]. split.
    + intros r Hr. unfold Report2.query in Hr. apply in_limit in Hr.
      now apply in_order_by in Hr.
    + intros out (sorted & R & ->). split; [apply limit_length|].
      intros r Hr. apply in_limit in Hr.
      now apply (ordered_by_in _ _ _ r R) in Hr.
  - split; [reflexivity|]. split; [vm_compute; repeat constructor|].
    split; [reflexivity|]. split.
    + vm_compute. do 10 right. left. reflexivity.
    + vm_compute. intuition discriminate.
Qed.

(** In the example store "Ada" is in the result, and so among the
    aggregated rows. *)
Lemma report2_limit_counts_rows_witness :
  In (Report2.mk "Ada" "Tied" 1) (Report2.selected tied_rentals_store).
Proof.
  destruct report2_limit_counts_rows as (H & _).
  destruct (H tied_rentals_store) as (_ & _ & Hin & _).
  apply Hin. vm_compute. left. reflexivity.
Defined.

(* ================================================================== *)
(** * Further facts about the operators *)
(* ================================================================== *)

Lemma filter_split_perm {A} (p : A -> bool) (l : list A) :
  Permutation (filter p l ++ filter (fun a => negb (p a)) l) l.
Proof.
  induction l as [|a l IH]; simpl; [constructor|].
  destruct (p a); simpl.
  - now constructor.
  - rewrite <- Permutation_middle. now constructor.
Qed.

Lemma flat_map_ext_in {A B} (f g : A -> list B) (l : list A) :
  (forall a, In a l -> f a = g a) -> flat_map f l = flat_map g l.
Proof.
  induction l as [|a l IH]; intros Hext; simpl; [reflexivity|].
  rewrite (Hext a (or_introl eq_refl)). f_equal. apply IH.
  intros b Hb. apply Hext. now right.
Qed.

Lemma filter_filter {A} (p q : A -> bool) (l : list A) :
  filter p (filter q l) = filter (fun a => p a && q a) l.
Proof.
  induction l as [|a l IH]; simpl; [reflexivity|].
  destruct (q a); simpl; rewrite IH.
  - now rewrite andb_true_r.
  - now rewrite andb_false_r.
Qed.

Lemma sum_perm {A} (e : A -> Z) (l l' : list A) :
  Permutation l l' -> sum e l = sum e l'.
Proof.
  unfold sum. induction 1; simpl; lia.
Qed.

Lemma count_in {A} (l : list A) (a : A) : In a l -> 1 <= count l.
Proof. unfold count. destruct l; simpl; [contradiction | lia]. Qed.

Lemma sum_app {A} (e : A -> Z) (l l' : list A) :
  sum e (l ++ l') = sum e l + sum e l'.
Proof. unfold sum. induction l as [|a l IH]; simpl; lia. Qed.

Lemma sum_map {A B} (f : A -> B) (e : B -> Z) (l : list A) :
  sum e (map f l) = sum (fun a => e (f a)) l.
Proof.
  unfold sum. induction l as [|a l IH]; simpl; [reflexivity|].
  now rewrite IH.
Qed.

Lemma sum_flat_map {A B} (f : A -> list B) (l : list A) :
  sum (fun a => count (f a)) l = count (flat_map f l).
Proof.
  unfold count. induction l as [|a l IH]; [reflexivity|].
  cbn [flat_map]. rewrite length_app, Nat2Z.inj_add, <- IH. reflexivity.
Qed.

Section GroupPartition.
Context {A K : Type} `{SqlEq K}.
Variable key : A -> K.

(** The rows with the keys of a duplicate-free list [ks], listed key by
    key, are the rows, if [ks] holds every key. *)
Lemma by_key_perm (ks : list K) :
  NoDup ks ->
  forall rows,
    (forall a, In a rows -> In (key a) ks) ->
    Permutation
      (flat_map (fun k => filter (fun a => sql_eqb (key a) k) rows) ks)
      rows.
Proof.
  induction 1 as [|k ks Hk Hnd IH]; intros rows Hall.
  - destruct rows as [|a rows]; [constructor|].
    destruct (Hall a (or_introl eq_refl)).
  - cbn [flat_map].
    eapply Permutation_trans;
      [|apply (filter_split_perm (fun a => sql_eqb (key a) k) rows)].
    apply Permutation_app_head.
    rewrite (flat_map_ext_in _
      (fun k' => filter (fun a => sql_eqb (key a) k')
                   (filter (fun a => negb (sql_eqb (key a) k)) rows))).
    + apply IH. intros a Ha. apply filter_In in Ha. destruct Ha as [Ha Hne].
      destruct (Hall a Ha) as [E|Hin]; [|assumption].
      subst k. rewrite sql_eqb_refl in Hne. discriminate.
    + intros k' Hk'. rewrite filter_filter. apply filter_ext. intros a.
      destruct (sql_eqb_spec (key a) k'); [|reflexivity].
      destruct (sql_eqb_spec (key a) k); [|reflexivity].
      subst. contradiction.
Qed.

(** GROUP BY neither drops nor repeats a row. *)
Lemma group_by_perm (rows : list A) :
  Permutation (flat_map snd (group_by key rows)) rows.
Proof.
  unfold group_by. rewrite flat_map_concat_map, map_map. simpl.
  rewrite <- flat_map_concat_map.
  apply by_key_perm; [apply NoDup_distinct|].
  intros a Ha. apply in_distinct. now apply in_map.
Qed.

(** No group is empty. *)
Lemma group_nonempty (rows : list A) (k : K) (g : list A) :
  In (k, g) (group_by key rows) -> g <> [].
Proof.
  intros Hg Hnil. apply in_group_by in Hg. destruct Hg as [Hk ->].
  apply in_map_iff in Hk. destruct Hk as (a & <- & Ha).
  apply (proj1 (filter_nil_iff _ _)) with (a := a) in Hnil; [|assumption].
  rewrite sql_eqb_refl in Hnil. discriminate.
Qed.

Lemma group_by_eq_nil (rows : list A) :
  group_by key rows = [] <-> rows = [].
Proof.
  split; [|now intros ->].
  destruct rows as [|a rows]; [reflexivity|]. discriminate.
Qed.

Lemma group_counts_sum (rows : list A) :
  sum (fun g => count (snd g)) (group_by key rows) = count rows.
Proof.
  rewrite sum_flat_map. unfold count. f_equal.
  apply Permutation_length, group_by_perm.
Qed.
End GroupPartition.

(** In a sorted list every element of a front part may come before every
    element of the rest. *)
Lemma sorted_app_le {A} (R : A -> A -> Prop) (l1 l2 : list A) :
  StronglySorted R (l1 ++ l2) ->
  forall a b, In a l1 -> In b l2 -> R a b.
Proof.
  induction l1 as [|x l1 IH]; simpl; intros Hs a b Ha Hb; [contradiction|].
  inversion Hs as [|? ? Hs' Hx]; subst.
  destruct Ha as [<-|Ha].
  - rewrite Forall_forall in Hx. apply Hx. apply in_or_app. now right.
  - now apply IH.
Qed.

Lemma sorted_firstn {A} (R : A -> A -> Prop) (n : nat) (l : list A) :
  StronglySorted R l -> StronglySorted R (firstn n l).
Proof.
  intros Hs. revert n. induction Hs as [|a l Hs IH Ha]; intros [|n]; simpl;
    try constructor.
  - apply IH.
  - rewrite Forall_forall in *. intros b Hb. apply Ha.
    exact (in_limit n l b Hb).
Qed.

Lemma sorted_impl {A} (R R' : A -> A -> Prop) (l : list A) :
  (forall a b, R a b -> R' a b) ->
  StronglySorted R l -> StronglySorted R' l.
Proof.
  intros Himp. induction 1 as [|a l Hs IH Ha]; constructor; [assumption|].
  eapply Forall_impl; [|exact Ha]. intros b. apply Himp.
Qed.

Section JoinFilter.
Context {A B : Type}.
Variable on : A -> B -> bool.

Lemma filter_map_pair (q : A * B -> bool) (a : A) (l : list B) :
  filter q (map (pair a) l) = map (pair a) (filter (fun b => q (a, b)) l).
Proof.
  induction l as [|b l IH]; simpl; [reflexivity|].
  destruct (q (a, b)); simpl; now rewrite IH.
Qed.

Lemma filter_comm (p q : B -> bool) (l : list B) :
  filter p (filter q l) = filter q (filter p l).
Proof.
  rewrite !filter_filter. apply filter_ext. intros b. apply andb_comm.
Qed.

(** A condition on the left operand may be applied before the join. *)
Lemma join_filter_left (q : A -> bool) (l : list A) (r : list B) :
  filter (fun p => q (fst p)) (join on l r) = join on (filter q l) r.
Proof.
  unfold join. induction l as [|a l IH]; simpl; [reflexivity|].
  rewrite filter_app, IH, filter_map_pair. simpl.
  destruct (q a); simpl.
  - f_equal. f_equal. apply filter_all. reflexivity.
  - replace (filter (fun _ => false) (filter (on a) r)) with (@nil B);
      [reflexivity|].
    symmetry. apply filter_nil_iff. reflexivity.
Qed.

(** A condition on the right operand may be applied before the join. *)
Lemma join_filter_right (q : B -> bool) (l : list A) (r : list B) :
  filter (fun p => q (snd p)) (join on l r) = join on l (filter q r).
Proof.
  unfold join. induction l as [|a l IH]; simpl; [reflexivity|].
  rewrite filter_app, IH, filter_map_pair. simpl.
  now rewrite filter_comm.
Qed.

Lemma join_length_one (a : A) (r : list B) :
  join on [a] r = map (pair a) (filter (on a) r).
Proof. unfold join. simpl. apply app_nil_r. Qed.
End JoinFilter.

(** The one row of a list with a given image under a function whose images
    on the list are pairwise distinct. *)
Lemma filter_unique {A K} `{SqlEq K} (f : A -> K) (l : list A) (c : A) :
  NoDup (map f l) -> In c l ->
  filter (fun a => sql_eqb (f a) (f c)) l = [c].
Proof.
  induction l as [|x l IH]; simpl; [contradiction|].
  intros Hnd Hc. inversion Hnd as [|? ? Hx Hnd']; subst.
  destruct (sql_eqb_spec (f x) (f c)) as [E|NE].
  - assert (x = c).
    { destruct Hc as [|Hc]; [assumption|].
      exfalso. apply Hx. rewrite E. now apply in_map. }
    subst x. f_equal. apply filter_nil_iff. intros a Ha.
    destruct (sql_eqb_spec (f a) (f c)) as [E'|]; [|reflexivity].
    exfalso. apply Hx. rewrite <- E'. now apply in_map.
  - destruct Hc as [->|Hc]; [contradiction|]. now apply IH.
Qed.

(* ================================================================== *)
(** * More about the queries *)
(* ================================================================== *)

(** ** Query 1 *)

(** The group of a category name holds the joined rows of the categories
    with that name. *)
Lemma report1_group (db : Store) (name : string) :
  filter (fun j => sql_eqb (let '(c, _) := j in Category.name c) name)
         (Report1.joined db)
  = join (fun c fc => Category.category_id c =? FilmCategory.category_id fc)
         (filter (fun c => String.eqb (Category.name c) name) (category db))
         (film_category db).
Proof.
  unfold Report1.joined. rewrite <- join_filter_left.
  apply filter_ext. intros [c fc]. reflexivity.
Qed.

Lemma in_report1_selected (db : Store) (r : Report1.row) :
  In r (Report1.selected db) <->
  In (Report1.category_name r)
     (map (fun '(c, _) => Category.name c) (Report1.joined db)) /\
  Report1.film_count r =
    count (filter (fun j => sql_eqb (let '(c, _) := j in Category.name c)
                                    (Report1.category_name r))
                  (Report1.joined db)).
Proof.
  unfold Report1.selected, Report1.grouped. rewrite in_map_iff. split.
  - intros ([name g] & <- & Hg). apply in_group_by in Hg.
    destruct Hg as [Hk ->]. simpl. split; [assumption|].
    unfold count. now rewrite length_map.
  - intros [Hk Hc].
    exists (Report1.category_name r,
            filter (fun j => sql_eqb (let '(c, _) := j in Category.name c)
                                     (Report1.category_name r))
                   (Report1.joined db)).
    split.
    + destruct r as [name n]. simpl in *. subst n. f_equal.
      unfold count. now rewrite length_map.
    + apply in_group_by. auto.
Qed.

Lemma report1_selected_names (db : Store) :
  map Report1.category_name (Report1.selected db)
  = map fst (Report1.grouped db).
Proof.
  unfold Report1.selected. rewrite map_map. apply map_ext.
  intros [name g]. reflexivity.
Qed.

Lemma report1_selected_counts (db : Store) :
  sum Report1.film_count (Report1.selected db) = count (Report1.joined db).
Proof.
  unfold Report1.selected. rewrite sum_map.
  rewrite <- (group_counts_sum (fun '(c, _) => Category.name c)
                               (Report1.joined db)).
  apply sum_ext. intros [name g] _. simpl. unfold count.
  now rewrite length_map.
Qed.

(** X1. Query 1 counts every joined row once.  In every result the query
    admits the category names are pairwise distinct, each film_count is at
    least 1 and is the number of joined rows of the categories with that
    name, every category name of a joined row has its row, and the
    film_counts add up to the number of joined rows. *)
Theorem report1_counts_every_link (db : Store) (out : list Report1.row) :
  Report1.result db out ->
  NoDup (map Report1.category_name out) /\
  (forall r, In r out ->
     1 <= Report1.film_count r /\
     Report1.film_count r =
       count (filter (fun '(c, _) =>
                        String.eqb (Category.name c) (Report1.category_name r))
                     (Report1.joined db))) /\
  (forall c fc, In (c, fc) (Report1.joined db) ->
     exists r, In r out /\ Report1.category_name r = Category.name c) /\
  sum Report1.film_count out = count (Report1.joined db).
Proof.
  intros [P _]. split; [|split; [|split]].
  - apply (Permutation_NoDup (Permutation_map _ P)).
    rewrite report1_selected_names. apply NoDup_group_keys.
  - intros r Hr. apply (Permutation_in _ (Permutation_sym P)) in Hr.
    apply in_report1_selected in Hr. destruct Hr as [Hk Hc].
    assert (Hc' : Report1.film_count r =
      count (filter (fun '(c, _) =>
                       String.eqb (Category.name c) (Report1.category_name r))
                    (Report1.joined db))).
    { rewrite Hc. f_equal. apply filter_ext. intros [c fc]. reflexivity. }
    split; [|exact Hc'].
    rewrite Hc'. apply in_map_iff in Hk. destruct Hk as ([c fc] & E & Hj).
    assert (Hin : In (c, fc)
      (filter (fun '(c, _) =>
                 String.eqb (Category.name c) (Report1.category_name r))
              (Report1.joined db))).
    { apply filter_In. split; [assumption|]. now apply String.eqb_eq. }
    exact (count_in _ _ Hin).
  - intros c fc Hj.
    set (n := count (filter
      (fun j => sql_eqb (let '(c, _) := j in Category.name c)
                        (Category.name c))
      (Report1.joined db))).
    exists (Report1.mk (Category.name c) n). split; [|reflexivity].
    apply (Permutation_in _ P). apply in_report1_selected. simpl.
    split; [|reflexivity].
    apply in_map_iff. exists (c, fc). auto.
  - rewrite <- (sum_perm _ _ _ P). apply report1_selected_counts.
Qed.

Lemma report1_counts_every_link_witness :
  sum Report1.film_count
      [Report1.mk "Drama" 1; Report1.mk "Action" 1]
  = count (Report1.joined tied_categories_store).
Proof.
  apply (report1_counts_every_link tied_categories_store).
  split; [apply perm_swap | repeat constructor].
Defined.

(** X2. When the category names are pairwise distinct, the film_count of a
    category in query 1 is the number of film_category rows with its
    category_id: a category with such rows has its row with that count in
    every result, and a category without has no row. *)
Theorem report1_counts_per_category (db : Store) (out : list Report1.row) :
  NoDup (map Category.name (category db)) ->
  Report1.result db out ->
  forall c, In c (category db) ->
    let n := count (filter (fun fc => Category.category_id c
                                      =? FilmCategory.category_id fc)
                           (film_category db)) in
    (0 < n -> In (Report1.mk (Category.name c) n) out) /\
    (n = 0 -> forall r, In r out ->
              Report1.category_name r <> Category.name c).
Proof.
  intros Hnd [P _] c Hc. cbv zeta.
  assert (Hgroup :
    count (filter (fun j => sql_eqb (let '(c, _) := j in Category.name c)
                                    (Category.name c))
                  (Report1.joined db))
    = count (filter (fun fc => Category.category_id c
                               =? FilmCategory.category_id fc)
                    (film_category db))).
  { rewrite report1_group.
    replace (filter (fun c0 => String.eqb (Category.name c0)
                                          (Category.name c))
                    (category db))
      with [c]
      by (symmetry; exact (filter_unique Category.name _ c Hnd Hc)).
    rewrite join_length_one. unfold count. now rewrite length_map. }
  split.
  - intros Hpos. apply (Permutation_in _ P). apply in_report1_selected.
    cbn [Report1.category_name Report1.film_count].
    split; [|symmetry; exact Hgroup].
    destruct (filter (fun fc => Category.category_id c
                                =? FilmCategory.category_id fc)
                     (film_category db)) as [|fc l] eqn:E;
      [discriminate Hpos|].
    assert (Hfc : In fc (fc :: l)) by now left.
    rewrite <- E in Hfc. apply filter_In in Hfc.
    apply in_map_iff. exists (c, fc). split; [reflexivity|].
    apply in_join. tauto.
  - intros Hzero r Hr Ename.
    apply (Permutation_in _ (Permutation_sym P)) in Hr.
    apply in_report1_selected in Hr. destruct Hr as [Hk _].
    apply in_map_iff in Hk. destruct Hk as ([c' fc] & E & Hj).
    apply in_join in Hj. destruct Hj as (Hc' & Hfc & Hon).
    assert (c' = c).
    { apply (NoDup_map_inj_in Category.name (category db)); auto.
      congruence. }
    subst c'.
    assert (Hin : In fc (filter (fun fc => Category.category_id c
                                           =? FilmCategory.category_id fc)
                                (film_category db)))
      by (apply filter_In; auto).
    pose proof (count_in _ _ Hin). lia.
Qed.

Lemma report1_counts_per_category_witness :
  In (Report1.mk "Children" 1) (Report1.query scenario_store).
Proof.
  refine (proj1 (report1_counts_per_category scenario_store
                   (Report1.query scenario_store) _ _
                   (Category.mk 1 "Children") _) _).
  - simpl. repeat constructor. intros [].
  - split; [apply Permutation_refl | repeat constructor].
  - simpl. auto.
  - reflexivity.
Defined.

(** ** ORDER BY with LIMIT *)

(** The first [n] rows of a result of ORDER BY: they are sorted, there are
    [n] of them if there are that many rows, and each may come before every
    row that is left out. *)
Lemma limit_ordered_top {A} (le : A -> A -> bool) (n : nat)
      (rows sorted : list A) :
  ordered_by le rows sorted ->
  List.length (limit n sorted) = Nat.min n (List.length rows) /\
  StronglySorted (fun a b => le a b = true) (limit n sorted) /\
  Permutation (limit n sorted ++ skipn n sorted) rows /\
  (forall a b, In a (limit n sorted) -> In b (skipn n sorted) ->
               le a b = true).
Proof.
  intros [P S]. unfold limit. split; [|split; [|split]].
  - rewrite length_firstn. now rewrite (Permutation_length P).
  - now apply sorted_firstn.
  - rewrite firstn_skipn. now symmetry.
  - apply (sorted_app_le (fun a b => le a b = true)).
    now rewrite firstn_skipn.
Qed.

(** ** Query 2 *)

Lemma in_report2_selected (db : Store) (r : Report2.row) :
  In r (Report2.selected db) ->
  exists a rest,
    In (a, rest) (Report2.joined db) /\
    Report2.actor_first_name r = Actor.first_name a /\
    Report2.actor_last_name r = Actor.last_name a /\
    Report2.rental_count r =
      count (filter (fun '(a', _) =>
                       sql_eqb (Actor.actor_id a',
                                (Actor.first_name a', Actor.last_name a'))
                               (Actor.actor_id a,
                                (Actor.first_name a, Actor.last_name a)))
                    (Report2.joined db)).
Proof.
  unfold Report2.selected, Report2.grouped. rewrite in_map_iff.
  intros ([[id [first last]] g] & <- & Hg). apply in_group_by in Hg.
  destruct Hg as [Hk ->]. apply in_map_iff in Hk.
  destruct Hk as ([a rest] & E & Hj). inversion E; subst.
  exists a, rest. simpl. repeat split; try assumption.
  unfold count. rewrite length_map. f_equal. f_equal.
  apply filter_ext. intros [a' rest']. reflexivity.
Qed.

(** X3. Query 2 keeps the top ten.  Every result the query admits holds
    [min 10 n] of the [n] aggregated actor rows, sorted by rental_count,
    largest first, and no row that is left out has a larger rental_count
    than a row that is kept.  Each rental_count is at least 1 and counts the
    joined rows of one actor (one per rental of an inventory copy of a film
    the actor plays in). *)
Theorem report2_keeps_top_ten (db : Store) (out : list Report2.row) :
  Report2.result db out ->
  List.length out = Nat.min 10 (List.length (Report2.selected db)) /\
  StronglySorted
    (fun r1 r2 => Report2.rental_count r2 <= Report2.rental_count r1) out /\
  (exists left_out,
     Permutation (out ++ left_out) (Report2.selected db) /\
     forall r r', In r out -> In r' left_out ->
                  Report2.rental_count r' <= Report2.rental_count r) /\
  (forall r, In r out ->
     1 <= Report2.rental_count r /\
     exists a,
       In a (actor db) /\
       Report2.actor_first_name r = Actor.first_name a /\
       Report2.actor_last_name r = Actor.last_name a /\
       Report2.rental_count r =
         count (filter (fun '(a', _) =>
                          sql_eqb (Actor.actor_id a',
                                   (Actor.first_name a', Actor.last_name a'))
                                  (Actor.actor_id a,
                                   (Actor.first_name a, Actor.last_name a)))
                       (Report2.joined db))).
Proof.
  intros (sorted & R & ->).
  destruct (limit_ordered_top (desc Report2.rental_count) 10 _ _ R)
    as (Hlen & Hs & Hp & Hdom).
  split; [exact Hlen|]. split; [|split].
  - apply (sorted_impl _ _ _) with (2 := Hs).
    intros r1 r2 Hle. unfold desc in Hle. now apply Z.leb_le.
  - exists (skipn 10 sorted). split; [exact Hp|].
    intros r r' Hr Hr'. specialize (Hdom r r' Hr Hr').
    unfold desc in Hdom. now apply Z.leb_le.
  - intros r Hr. apply in_limit in Hr.
    apply (ordered_by_in _ _ _ r R) in Hr.
    apply in_report2_selected in Hr.
    destruct Hr as (a & rest & Hj & Hf & Hl & Hc).
    split.
    + rewrite Hc. apply (count_in _ (a, rest)). apply filter_In.
      split; [assumption|]. apply sql_eqb_refl.
    + exists a. repeat split; try assumption.
      unfold Report2.joined in Hj. apply in_join in Hj. tauto.
Qed.

Lemma report2_keeps_top_ten_witness :
  List.length (Report2.query scenario_store)
  = Nat.min 10 (List.length (Report2.selected scenario_store)).
Proof.
  apply (report2_keeps_top_ten scenario_store).
  exists (Report2.selected scenario_store). split; [|reflexivity].
  split; [apply Permutation_refl | repeat constructor].
Defined.

(** ** Query 3 *)

Lemma in_report3_selected (db : Store) (r : Report3.row) :
  In r (Report3.selected db) ->
  Report3.total_spent r =
    sum (fun '(p, _) => Payment.amount p)
        (filter (fun '(_, (_, (_, (_, c)))) =>
                   String.eqb (Category.name c) (Report3.category_name r))
                (Report3.joined db)).
Proof.
  unfold Report3.selected, Report3.grouped. rewrite in_map_iff.
  intros ([name g] & <- & Hg). apply in_group_by in Hg.
  destruct Hg as [_ ->]. simpl. f_equal.
  apply filter_ext. intros (p & r & i & fc & c). reflexivity.
Qed.

(** X4. Query 3 returns the category on which most was spent.  If no
    payment joins through to a category the result is empty; otherwise
    every result the query admits is one row, a category group whose
    total_spent is the sum of the amounts of its joined rows and is at least
    the total_spent of every category group. *)
Theorem report3_most_spent (db : Store) (out : list Report3.row) :
  Report3.result db out ->
  (Report3.joined db = [] /\ out = []) \/
  (exists r,
     out = [r] /\
     In r (Report3.selected db) /\
     (forall r', In r' (Report3.selected db) ->
                 Report3.total_spent r' <= Report3.total_spent r) /\
     Report3.total_spent r =
       sum (fun '(p, _) => Payment.amount p)
           (filter (fun '(_, (_, (_, (_, c)))) =>
                      String.eqb (Category.name c) (Report3.category_name r))
                   (Report3.joined db))).
Proof.
  intros (sorted & [P S] & ->). destruct sorted as [|r t].
  - left. split; [|reflexivity].
    apply Permutation_sym, Permutation_nil in P.
    unfold Report3.selected in P. apply map_eq_nil in P.
    now apply group_by_eq_nil in P.
  - right. exists r.
    assert (Hr : In r (Report3.selected db))
      by (apply (Permutation_in _ (Permutation_sym P)); now left).
    split; [reflexivity|]. split; [exact Hr|]. split.
    + intros r' Hr'. apply (Permutation_in _ P) in Hr'.
      inversion S as [|? ? _ Hle]; subst. rewrite Forall_forall in Hle.
      destruct Hr' as [<-|Hr']; [lia|].
      specialize (Hle r' Hr'). unfold desc in Hle. now apply Z.leb_le.
    + now apply in_report3_selected.
Qed.

Lemma report3_most_spent_witness :
  (Report3.joined scenario_store = [] /\
   [Report3.mk "Children" 299] = []) \/
  (exists r,
     [Report3.mk "Children" 299] = [r] /\
     In r (Report3.selected scenario_store) /\
     (forall r', In r' (Report3.selected scenario_store) ->
                 Report3.total_spent r' <= Report3.total_spent r) /\
     Report3.total_spent r =
       sum (fun '(p, _) => Payment.amount p)
           (filter (fun '(_, (_, (_, (_, c)))) =>
                      String.eqb (Category.name c) (Report3.category_name r))
                   (Report3.joined scenario_store))).
Proof.
  apply (report3_most_spent scenario_store).
  exists [Report3.mk "Children" 299]. split; [|reflexivity].
  split; [apply Permutation_refl | repeat constructor].
Defined.

(** ** Query 6 *)

Lemma NoDup_firstn {A} (n : nat) (l : list A) :
  NoDup l -> NoDup (firstn n l).
Proof.
  intros Hnd. rewrite <- (firstn_skipn n l) in Hnd.
  now apply NoDup_app_remove_r in Hnd.
Qed.

Lemma sum_nonneg {A} (e : A -> Z) (l : list A) :
  (forall a, 0 <= e a) -> 0 <= sum e l.
Proof.
  intros He. unfold sum. induction l as [|a l IH]; simpl; [lia|].
  specialize (He a). lia.
Qed.

(** X5. Query 6 lists the first twenty cities.  Its result holds [min 20 n]
    of the [n] city groups, with pairwise distinct city names, in the order
    active_customers descending, city ascending; no group that is left out
    may come before a group that is kept; and the two counts of a row are
    not negative. *)
Theorem report6_first_twenty (db : Store) :
  List.length (Report6.query db)
    = Nat.min 20 (List.length (Report6.selected db)) /\
  NoDup (map Report6.city (Report6.query db)) /\
  StronglySorted (fun r1 r2 => Report6.display_le r1 r2 = true)
                 (Report6.query db) /\
  (exists left_out,
     Permutation (Report6.query db ++ left_out) (Report6.selected db) /\
     forall r r', In r (Report6.query db) -> In r' left_out ->
       Report6.active_customers r' < Report6.active_customers r \/
       (Report6.active_customers r' = Report6.active_customers r /\
        String.leb (Report6.city r) (Report6.city r') = true)) /\
  (forall r, In r (Report6.query db) ->
     0 <= Report6.active_customers r /\ 0 <= Report6.inactive_customers r).
Proof.
  assert (R : ordered_by Report6.display_le (Report6.selected db)
                (order_by Report6.display_le (Report6.selected db))).
  { apply ordered_by_order_by;
      [apply report6_display_le_total | apply report6_display_le_trans]. }
  destruct (limit_ordered_top Report6.display_le 20 _ _ R)
    as (Hlen & Hs & Hp & Hdom).
  split; [exact Hlen|]. split; [|split; [exact Hs|split]].
  - unfold Report6.query, limit. rewrite <- firstn_map. apply NoDup_firstn.
    apply (Permutation_NoDup
             (Permutation_map _ (Permutation_sym (order_by_perm _ _)))).
    apply report6_cities_distinct.
  - exists (skipn 20 (order_by Report6.display_le (Report6.selected db))).
    split; [exact Hp|].
    intros r r' Hr Hr'. specialize (Hdom r r' Hr Hr').
    unfold Report6.display_le in Hdom.
    rewrite orb_true_iff, andb_true_iff, Z.ltb_lt, Z.eqb_eq in Hdom.
    destruct Hdom as [Hlt|[Heq Hle]]; [left | right]; auto.
  - intros r Hr. unfold Report6.query in Hr. apply in_limit in Hr.
    apply in_order_by in Hr. apply in_report6_selected in Hr.
    destruct Hr as (g & _ & -> & ->).
    split; apply sum_nonneg; intros [[c a] cu];
      destruct (sql_eqb (Customer.activebool cu) _); lia.
Qed.

(** ** The first rank *)

Section FirstRank.
Context {A : Type}.
Variable key : A -> Z.

(** A partition that is not empty has a row of rank 1. *)
Lemma dense_rank_has_one (rows : list A) (a : A) :
  In a rows -> exists r, In (r, 1) (dense_rank key rows).
Proof.
  intros Ha. apply (in_order_by (desc key)) in Ha. unfold dense_rank.
  destruct (order_by (desc key) rows) as [|r rest]; [destruct Ha|].
  exists r. now left.
Qed.

(** The rows of rank 1 are the rows with the largest key. *)
Lemma dense_rank_one (rows : list A) (r : A) (k : Z) :
  In (r, k) (dense_rank key rows) ->
  (k = 1 <-> forall r', In r' rows -> key r' <= key r).
Proof.
  intros Hin.
  destruct (dense_rank_has_one rows r (in_dense_rank_row key _ _ _ Hin))
    as (r0 & H0).
  assert (Hmax : forall r', In r' rows -> key r' <= key r0).
  { intros r' Hr'. destruct (dense_rank_covers key rows r' Hr') as (k' & Hk').
    destruct (dense_rank_ranks key rows r0 1 r' k' H0 Hk') as [_ Hlt].
    destruct (dense_rank_no_gap key rows r' k' Hk') as [Hge _].
    destruct (Z_lt_le_dec (key r0) (key r')) as [Hc|]; [|assumption].
    specialize (Hlt Hc). lia. }
  destruct (dense_rank_ranks key rows r k r0 1 Hin H0) as [Heq Hlt].
  split.
  - intros -> r' Hr'. specialize (Hmax r' Hr').
    destruct (Z_lt_le_dec (key r) (key r0)) as [Hc|]; [|lia].
    specialize (Hlt Hc). lia.
  - intros Hall. apply Heq.
    pose proof (Hall r0 (in_dense_rank_row key _ _ _ H0)).
    pose proof (Hmax r (in_dense_rank_row key _ _ _ Hin)). lia.
Qed.
End FirstRank.

Lemma NoDup_map_inj_on {A B} (f : A -> B) (l : list A) :
  NoDup l ->
  (forall x y, In x l -> In y l -> f x = f y -> x = y) ->
  NoDup (map f l).
Proof.
  induction 1 as [|a l Ha Hnd IH]; intros Hinj; simpl; constructor.
  - intros Hin. apply in_map_iff in Hin. destruct Hin as (b & E & Hb).
    apply Ha. rewrite <- (Hinj b a); simpl; auto.
  - apply IH. intros x y Hx Hy. apply Hinj; now right.
Qed.

(** ** Query 7 *)

Lemma in_report7_rank_one (db : Store) (r : Report7.row) :
  In (r, 1) (Report7.ranked_data db) <->
  In r (Report7.grouped_data db) /\
  forall r', In r' (Report7.grouped_data db) ->
             Report7.city_group r' = Report7.city_group r ->
             Report7.total_hours r' <= Report7.total_hours r.
Proof.
  unfold Report7.ranked_data. rewrite dense_rank_over_iff.
  set (part := filter (fun a => sql_eqb (Report7.city_group a)
                                        (Report7.city_group r))
                      (Report7.grouped_data db)).
  assert (Hpart : forall r', In r' part <->
            In r' (Report7.grouped_data db) /\
            Report7.city_group r' = Report7.city_group r).
  { intros r'. unfold part.
    now rewrite filter_In,
      (sql_eqb_eq (Report7.city_group r') (Report7.city_group r)). }
  split.
  - intros Hin. pose proof (in_dense_rank_row _ _ _ _ Hin) as Hr.
    apply Hpart in Hr. split; [tauto|].
    intros r' Hr' E.
    apply (proj1 (dense_rank_one Report7.total_hours part r 1 Hin) eq_refl).
    apply Hpart. auto.
  - intros [Hr Hmax].
    assert (Hrp : In r part) by (apply Hpart; auto).
    destruct (dense_rank_covers Report7.total_hours part r Hrp) as (k & Hk).
    assert (k = 1).
    { apply (dense_rank_one Report7.total_hours part r k Hk).
      intros r' Hr'. apply Hpart in Hr'. apply Hmax; tauto. }
    now subst k.
Qed.

(** X6. Query 7 returns the top of each bucket.  In every result the query
    admits, a row of [grouped_data] is present exactly when no row of its
    city_group has more total_hours; so every city_group of [grouped_data]
    has a row in the result that bounds its total_hours; and the rows are in
    the order of city_group. *)
Theorem report7_top_of_each_bucket (db : Store) (out : list Report7.row) :
  Report7.result db out ->
  (forall r,
     In r out <->
     In r (Report7.grouped_data db) /\
     forall r', In r' (Report7.grouped_data db) ->
                Report7.city_group r' = Report7.city_group r ->
                Report7.total_hours r' <= Report7.total_hours r) /\
  (forall r', In r' (Report7.grouped_data db) ->
     exists r, In r out /\
               Report7.city_group r = Report7.city_group r' /\
               Report7.total_hours r' <= Report7.total_hours r) /\
  StronglySorted (fun r1 r2 => Report7.display_le r1 r2 = true) out.
Proof.
  intros [P S].
  assert (Hout : forall r, In r out <-> In (r, 1) (Report7.ranked_data db)).
  { intros r. split.
    - intros Hr. apply (Permutation_in _ (Permutation_sym P)) in Hr.
      apply (in_filter_fst (fun k => k =? 1)) in Hr.
      destruct Hr as (k & Hin & Hk). apply Z.eqb_eq in Hk. now subst.
    - intros Hr. apply (Permutation_in _ P).
      apply (in_filter_fst (fun k => k =? 1)). exists 1. auto. }
  split; [|split; [|exact S]].
  - intros r. rewrite Hout. apply in_report7_rank_one.
  - intros r' Hr'.
    set (part := filter (fun a => sql_eqb (Report7.city_group a)
                                          (Report7.city_group r'))
                        (Report7.grouped_data db)).
    assert (Hrp : In r' part).
    { apply filter_In. split; [assumption|]. apply sql_eqb_refl. }
    destruct (dense_rank_has_one Report7.total_hours part r' Hrp)
      as (r & Hr).
    pose proof (in_dense_rank_row _ _ _ _ Hr) as Hin.
    apply filter_In in Hin. destruct Hin as [Hin Hg].
    apply (sql_eqb_eq (Report7.city_group r) (Report7.city_group r')) in Hg.
    exists r. split; [|split; [exact Hg|]].
    + apply Hout. unfold Report7.ranked_data. apply dense_rank_over_iff.
      rewrite Hg. exact Hr.
    + now apply (proj1 (dense_rank_one Report7.total_hours part r 1 Hr)
                       eq_refl).
Qed.

Lemma report7_top_of_each_bucket_witness :
  StronglySorted (fun r1 r2 => Report7.display_le r1 r2 = true)
    [Report7.mk (Some "Contains hyphen") "Children" 1500000;
     Report7.mk (Some "Starts with a") "Children" 1500000].
Proof.
  apply (report7_top_of_each_bucket cities_store).
  split; [apply perm_swap | repeat constructor].
Defined.

(** ** Query 5 *)

Lemma in_report5_counts (db : Store) (c : Report5.counts_row) :
  In c (Report5.actor_film_counts db) -> 1 <= Report5.c_film_count c.
Proof.
  unfold Report5.actor_film_counts, Report5.grouped. rewrite in_map_iff.
  intros ([[id [first last]] g] & <- & Hg). simpl.
  pose proof (group_nonempty _ _ _ _ Hg) as Hne.
  unfold count. rewrite length_map. destruct g; [contradiction|].
  simpl List.length. lia.
Qed.

(** X7. Query 5 shows at most three film counts.  In every result the query
    admits each film_count is at least 1, the actors with the largest
    film_count are present, at most three distinct film_counts occur, and
    the result is empty exactly when no joined row has the category name
    'Children'. *)
Theorem report5_three_counts (db : Store) (out : list Report5.row) :
  Report5.result db out ->
  (forall r, In r out -> 1 <= Report5.film_count r) /\
  (forall c,
     In c (Report5.actor_film_counts db) ->
     (forall c', In c' (Report5.actor_film_counts db) ->
                 Report5.c_film_count c' <= Report5.c_film_count c) ->
     In (Report5.project c) out) /\
  (List.length (distinct (map Report5.film_count out)) <= 3)%nat /\
  (out = [] <-> Report5.filtered db = []).
Proof.
  intros [P _].
  set (ranked := dense_rank Report5.c_film_count
                            (Report5.actor_film_counts db)).
  assert (Hout : forall r,
    In r out <-> exists c k, In (c, k) ranked /\ k <= 3 /\
                             r = Report5.project c).
  { intros r. split.
    - intros Hr. apply (Permutation_in _ (Permutation_sym P)) in Hr.
      apply (in_filter_fst (fun k => k <=? 3)) in Hr.
      destruct Hr as (k & Hin & Hk). apply Z.leb_le in Hk.
      apply in_report5_ranked in Hin. destruct Hin as (c & Hin & ->).
      exists c, k. auto.
    - intros (c & k & Hin & Hk & ->). apply (Permutation_in _ P).
      apply (in_filter_fst (fun k => k <=? 3)). exists k.
      split; [|now apply Z.leb_le].
      apply in_report5_ranked. eauto. }
  assert (Htop : forall c,
    In c (Report5.actor_film_counts db) ->
    (forall c', In c' (Report5.actor_film_counts db) ->
                Report5.c_film_count c' <= Report5.c_film_count c) ->
    In (Report5.project c) out).
  { intros c Hc Hmax.
    destruct (dense_rank_covers Report5.c_film_count _ c Hc) as (k & Hk).
    apply Hout. exists c, k. split; [exact Hk|]. split; [|reflexivity].
    apply (dense_rank_one Report5.c_film_count _ c k Hk) in Hmax. lia. }
  split; [|split; [exact Htop|split]].
  - intros r Hr. apply Hout in Hr. destruct Hr as (c & k & Hin & _ & ->).
    simpl. apply (in_report5_counts db).
    now apply in_dense_rank_row in Hin.
  - set (keys := map Report5.c_film_count (Report5.actor_film_counts db)).
    rewrite <- (length_map (distinct_at_least keys)).
    change 3%nat with (List.length [1; 2; 3]).
    apply NoDup_incl_length.
    + apply NoDup_map_inj_on; [apply NoDup_distinct|].
      intros v1 v2 H1 H2 E.
      apply in_distinct, in_map_iff in H1, H2.
      destruct H1 as (r1 & <- & H1), H2 as (r2 & <- & H2).
      apply Hout in H1, H2.
      destruct H1 as (c1 & k1 & H1 & _ & ->), H2 as (c2 & k2 & H2 & _ & ->).
      simpl in *.
      pose proof (dense_rank_spec _ _ _ _ H1) as E1.
      pose proof (dense_rank_spec _ _ _ _ H2) as E2.
      fold keys in E1, E2.
      destruct (dense_rank_ranks _ _ _ _ _ _ H1 H2) as [_ L12].
      destruct (dense_rank_ranks _ _ _ _ _ _ H2 H1) as [_ L21].
      destruct (Z.lt_trichotomy (Report5.c_film_count c1)
                                (Report5.c_film_count c2))
        as [Hlt|[Heq|Hgt]]; [|assumption|].
      * specialize (L12 Hlt). lia.
      * specialize (L21 Hgt). lia.
    + intros k Hk. apply in_map_iff in Hk. destruct Hk as (v & <- & Hv).
      apply in_distinct, in_map_iff in Hv. destruct Hv as (r & <- & Hr).
      apply Hout in Hr. destruct Hr as (c & k & Hin & Hk & ->). simpl.
      pose proof (dense_rank_spec _ _ _ _ Hin) as E. fold keys in E.
      rewrite <- E.
      destruct (dense_rank_no_gap _ _ _ _ Hin) as [Hge _].
      assert (Hk3 : k = 1 \/ k = 2 \/ k = 3) by lia.
      destruct Hk3 as [-> | [-> | ->]]; simpl; auto.
  - split.
    + intros ->. destruct (Report5.filtered db) as [|j l] eqn:E;
        [reflexivity|].
      assert (Hc : exists c, In c (Report5.actor_film_counts db)).
      { unfold Report5.actor_film_counts, Report5.grouped. rewrite E.
        simpl. eauto. }
      destruct Hc as (c & Hc).
      destruct (dense_rank_has_one Report5.c_film_count _ c Hc) as (c0 & H0).
      assert (Hin : In (Report5.project c0) []).
      { apply Hout. exists c0, 1. repeat split; [exact H0 | lia]. }
      destruct Hin.
    + intros E. apply Permutation_nil. rewrite <- P.
      unfold Report5.ranked_actors, Report5.actor_film_counts,
        Report5.grouped. rewrite E. reflexivity.
Qed.

Lemma report5_three_counts_witness :
  (List.length
     (distinct (map Report5.film_count
                    (Report5.query (children_store 4 4 3 2 1)))) <= 3)%nat.
Proof.
  apply (report5_three_counts (children_store 4 4 3 2 1)).
  split; [apply Permutation_refl | repeat constructor].
Defined.

(** ** Hours *)

Lemma decimal_div6_60_cases (n : Z) :
  (0 <= n /\ decimal_div6 n 600 = (20000000 * n + 600) / 1200) \/
  (n < 0 /\ decimal_div6 n 600 = - ((20000000 * - n + 600) / 1200)).
Proof.
  unfold decimal_div6. change (Z.sgn 600) with 1. change (Z.abs 600) with 600.
  change (2 * 600) with 1200.
  destruct (Z_lt_le_dec n 0) as [Hneg|Hpos]; [right | left];
    (split; [assumption|]).
  - rewrite (Z.sgn_neg n Hneg), (Z.abs_neq n) by lia.
    replace (2 * (- n * 10000000) + 600) with (20000000 * - n + 600) by lia.
    lia.
  - rewrite (Z.abs_eq n) by lia.
    replace (2 * (n * 10000000) + 600) with (20000000 * n + 600) by lia.
    destruct (Z.eq_dec n 0) as [->|Hn]; [reflexivity|].
    rewrite (Z.sgn_pos n) by lia. lia.
Qed.

(** The quotient is within half a unit of the sixth decimal place. *)
Lemma decimal_div6_60_bounds (n : Z) :
  -600 <= 1200 * decimal_div6 n 600 - 20000000 * n <= 600.
Proof.
  destruct (decimal_div6_60_cases n) as [[Hn ->]|[Hn ->]].
  - pose proof (Z.div_mod (20000000 * n + 600) 1200 ltac:(lia)).
    pose proof (Z.mod_pos_bound (20000000 * n + 600) 1200 ltac:(lia)).
    lia.
  - pose proof (Z.div_mod (20000000 * - n + 600) 1200 ltac:(lia)).
    pose proof (Z.mod_pos_bound (20000000 * - n + 600) 1200 ltac:(lia)).
    lia.
Qed.

(** X8. Dividing by 60.0 keeps the order of the sums.  The total_hours of
    query 7 is the sum of the film lengths divided by 60.0, to six decimal
    places: it is within half of 10^-6 of the exact quotient, it is exact
    for whole hours, and a larger sum of minutes always gives a larger
    total_hours, so the rounding neither ties nor reorders two groups. *)
Theorem total_hours_keeps_order :
  (forall n, -600 <= 1200 * decimal_div6 n 600 - 20000000 * n <= 600) /\
  (forall h, decimal_div6 (60 * h) 600 = 1000000 * h) /\
  (forall n m, n < m <-> decimal_div6 n 600 < decimal_div6 m 600).
Proof.
  assert (Hmono : forall n m,
    n < m -> decimal_div6 n 600 < decimal_div6 m 600).
  { intros n m Hlt.
    pose proof (decimal_div6_60_bounds n).
    pose proof (decimal_div6_60_bounds m).
    lia. }
  split; [exact decimal_div6_60_bounds|]. split.
  - intros h. pose proof (decimal_div6_60_bounds (60 * h)). lia.
  - intros n m. split; [apply Hmono|].
    intros Hlt. destruct (Z_lt_le_dec n m) as [|Hge]; [assumption|].
    destruct (Z.eq_dec n m) as [->|Hne]; [lia|].
    assert (Hmn : m < n) by lia. apply Hmono in Hmn. lia.
Qed.

(** ** Printing a result *)


(** ** Joins written both ways *)

Lemma join_ext {A B} (on on' : A -> B -> bool) (l : list A) (r : list B) :
  (forall a b, on a b = on' a b) -> join on l r = join on' l r.
Proof.
  intros Hext. unfold join. apply flat_map_ext. intros a. f_equal.
  apply filter_ext. apply Hext.
Qed.

Lemma join_cons_r {A B} (on : A -> B -> bool) (l : list A) (b : B)
      (r : list B) :
  Permutation (join on l (b :: r))
              (map (fun a => (a, b)) (filter (fun a => on a b) l)
               ++ join on l r).
Proof.
  induction l as [|a l IH]; [constructor|].
  change (join on (a :: l) (b :: r))
    with (map (pair a) (filter (on a) (b :: r)) ++ join on l (b :: r)).
  change (join on (a :: l) r)
    with (map (pair a) (filter (on a) r) ++ join on l r).
  rewrite IH. cbn [filter]. destruct (on a b); cbn [map app].
  - apply perm_skip. apply Permutation_app_swap_app.
  - apply Permutation_app_swap_app.
Qed.

(** Exchanging the operands of a join exchanges the components of its
    rows. *)
Lemma join_swap {A B} (on : A -> B -> bool) (l : list A) (r : list B) :
  Permutation (map swap (join on l r)) (join (fun b a => on a b) r l).
Proof.
  induction l as [|a l IH].
  - simpl. now rewrite join_nil_r.
  - change (join on (a :: l) r)
      with (map (pair a) (filter (on a) r) ++ join on l r).
    rewrite map_app, IH, map_map, join_cons_r. reflexivity.
Qed.

(** X10. The joins that the queries write both ways have the same rows.
    Query 1 joins [category JOIN film_category], queries 3 and 5 join
    [film_category JOIN category]; query 6 joins [city JOIN address], query
    7 joins [address JOIN city].  In each pair one join holds the rows of
    the other with the components exchanged, each as often. *)
Theorem joins_written_both_ways (db : Store) :
  Permutation
    (map swap (Report1.joined db))
    (join (fun fc c => FilmCategory.category_id fc =? Category.category_id c)
          (film_category db) (category db))
  /\
  Permutation
    (map swap (join (fun c a => City.city_id c =? Address.city_id a)
                    (city db) (address db)))
    (join (fun a c => Address.city_id a =? City.city_id c)
          (address db) (city db)).
Proof.
  split.
  - unfold Report1.joined. rewrite join_swap.
    erewrite join_ext; [reflexivity|]. intros fc c. apply Z.eqb_sym.
  - rewrite join_swap.
    erewrite join_ext; [reflexivity|]. intros a c. apply Z.eqb_sym.
Qed.

(** ** Conditions applied before the joins *)

(** X11. Queries 5 and 7 read the table of their WHERE clause only through
    the rows that satisfy it.  Filtering the joined rows by
    [category.name = 'Children'] gives the join over the categories named
    'Children', and the result of query 5 is that of the store with only
    those categories; filtering by the two LIKE conditions gives the join
    over the cities that satisfy them, and the result of query 7 is that of
    the store with only those cities. *)
Theorem where_applies_before_joins (db : Store) :
  let children :=
    filter (fun c => String.eqb (Category.name c) "Children") (category db) in
  let cities :=
    filter (fun c => Report7.where_clause (City.city c)) (city db) in
  Report5.filtered db = Report5.joined (set_category children db) /\
  Report5.query db = Report5.query (set_category children db) /\
  Report7.filtered db = Report7.joined (set_city cities db) /\
  Report7.query db = Report7.query (set_city cities db).
Proof.
  cbv zeta.
  assert (H5 : Report5.filtered db =
    Report5.joined
      (set_category
         (filter (fun c => String.eqb (Category.name c) "Children")
                 (category db)) db)).
  { unfold Report5.filtered, Report5.joined. simpl.
    rewrite <- !join_filter_right.
    apply filter_ext. intros (a & fa & fc & c). reflexivity. }
  assert (H7 : Report7.filtered db =
    Report7.joined
      (set_city
         (filter (fun c => Report7.where_clause (City.city c)) (city db))
         db)).
  { unfold Report7.filtered, Report7.joined. simpl.
    rewrite <- !join_filter_right.
    apply filter_ext. intros (c & fc & f & i & r & cu & a & ci).
    reflexivity. }
  split; [exact H5|]. split; [|split; [exact H7|]].
  - assert (E : Report5.filtered
                  (set_category
                     (filter (fun c => String.eqb (Category.name c) "Children")
                             (category db)) db)
                = Report5.filtered db).
    { change (Report5.filtered (set_category ?cs db))
        with (filter (fun '(_, (_, (_, c))) =>
                        String.eqb (Category.name c) "Children")
                     (Report5.joined (set_category cs db))).
      rewrite <- H5. unfold Report5.filtered. rewrite filter_filter.
      apply filter_ext. intros (a & fa & fc & c). apply andb_diag. }
    unfold Report5.query, Report5.ranked_actors, Report5.actor_film_counts,
      Report5.grouped. now rewrite E.
  - assert (E : Report7.filtered
                  (set_city
                     (filter (fun c => Report7.where_clause (City.city c))
                             (city db)) db)
                = Report7.filtered db).
    { change (Report7.filtered (set_city ?cs db))
        with (filter (fun j => Report7.where_clause (Report7.city_of j))
                     (Report7.joined (set_city cs db))).
      rewrite <- H7. unfold Report7.filtered. rewrite filter_filter.
      apply filter_ext. intros j. apply andb_diag. }
    unfold Report7.query, Report7.ranked_data, Report7.grouped_data,
      Report7.grouped. now rewrite E.
Qed.

(** ** Films without inventory *)

(** X12. A film that query 4 lists takes no part in queries 2, 3 and 7,
    whose joins pass through [inventory]: no joined row of these queries
    carries its film_id. *)
Theorem unstocked_films_are_not_rented (db : Store) (f : Film.t) :
  In f (Report4.kept db) ->
  (forall a fa i r,
     In (a, (fa, (i, r))) (Report2.joined db) ->
     FilmActor.film_id fa <> Film.film_id f) /\
  (forall p r i fc c,
     In (p, (r, (i, (fc, c)))) (Report3.joined db) ->
     FilmCategory.film_id fc <> Film.film_id f) /\
  (forall c fc f' i r cu a ci,
     In (c, (fc, (f', (i, (r, (cu, (a, ci))))))) (Report7.joined db) ->
     Film.film_id f' <> Film.film_id f /\ f' <> f).
Proof.
  intros Hf. apply report4_kept_iff in Hf. destruct Hf as [_ Hno].
  split; [|split].
  - intros a fa i r Hj. unfold Report2.joined in Hj.
    apply in_join in Hj. destruct Hj as (_ & Hj & _).
    apply in_join in Hj. destruct Hj as (_ & Hj & Hon).
    apply in_join in Hj. destruct Hj as (Hi & _ & _).
    simpl in Hon. apply Z.eqb_eq in Hon.
    specialize (Hno i Hi). congruence.
  - intros p r i fc c Hj. unfold Report3.joined in Hj.
    apply in_join in Hj. destruct Hj as (_ & Hj & _).
    apply in_join in Hj. destruct Hj as (_ & Hj & _).
    apply in_join in Hj. destruct Hj as (Hi & _ & Hon).
    simpl in Hon. apply Z.eqb_eq in Hon.
    specialize (Hno i Hi). congruence.
  - intros c fc f' i r cu a ci Hj. unfold Report7.joined in Hj.
    apply in_join in Hj. destruct Hj as (_ & Hj & _).
    apply in_join in Hj. destruct Hj as (_ & Hj & _).
    apply in_join in Hj. destruct Hj as (_ & Hj & Hon).
    apply in_join in Hj. destruct Hj as (Hi & _ & _).
    simpl in Hon. apply Z.eqb_eq in Hon.
    specialize (Hno i Hi).
    split; [congruence|]. intros ->. congruence.
Qed.

Lemma unstocked_films_are_not_rented_witness :
  Film.mk 1 "Shrek" 90 <> Film.mk 2 "Up" 96.
Proof.
  refine (proj2 (proj2 (proj2
    (unstocked_films_are_not_rented scenario_store (Film.mk 2 "Up" 96) _))
    (Category.mk 1 "Children") (FilmCategory.mk 1 1) (Film.mk 1 "Shrek" 90)
    (Inventory.mk 1 1) (Rental.mk 1 1 1) (Customer.mk 1 1 true)
    (Address.mk 1 1) (City.mk 1 "a-lantis") _)).
  - vm_compute. left. reflexivity.
  - vm_compute. left. reflexivity.
Defined.

(* ================================================================== *)
(** * The run of the program *)
(* ================================================================== *)

(** What [run_query] shows for a report is a table of that report, and the
    first rows of a result that its query admits. *)
Lemma report_of_run_report (r : Report) (db : Store) :
  report_of (snd (run_report r db)) = r.
Proof. destruct r; reflexivity. Qed.

Lemma shows_run_report (r : Report) (db : Store) :
  shows r db (snd (run_report r db)).
Proof.
  destruct (query_is_result db) as (H1 & H2 & H3 & H4 & H5 & H6 & H7).
  destruct r; cbn [shows run_report run_query snd]; eexists;
    (split; [eassumption | reflexivity]).
Qed.

(** The reports are all run exactly when no query raises. *)
Lemma reports_run_all (dbs : Database) (rs : list Report) :
  first_query_error dbs rs = None <-> reports_run dbs rs = rs.
Proof.
  induction rs as [|r rs IH]; cbn [first_query_error reports_run].
  - now split.
  - destruct (query_error dbs r).
    + split; discriminate.
    + rewrite IH. split; [now intros -> | now intros [= ->]].
Qed.

(** The queries stay folded while a run is evaluated. *)
Opaque run_report.

Lemma shown_app (o1 o2 : list Output) : shown (o1 ++ o2) = shown o1 ++ shown o2.
Proof. apply flat_map_app. Qed.

Lemma printed_app (o1 o2 : list Output) :
  printed (o1 ++ o2) = printed o1 ++ printed o2.
Proof. apply flat_map_app. Qed.

(** Registering names that are new and pairwise distinct appends them. *)
Lemma register_all_fresh (names vs : list string) :
  NoDup (vs ++ names) -> register_all names vs = vs ++ names.
Proof.
  revert vs. induction names as [|n names IH]; intros vs Hnd; simpl.
  - now rewrite app_nil_r.
  - assert (Hfilter : filter (fun v => negb (String.eqb v n)) vs = vs).
    { apply filter_all. intros v Hv. apply negb_true_iff.
      apply String.eqb_neq. intros ->.
      apply NoDup_remove_2 in Hnd. apply Hnd. apply in_or_app. now left. }
    unfold register_all in *. simpl. rewrite Hfilter.
    rewrite IH; rewrite <- app_assoc; [reflexivity | exact Hnd].
Qed.

(** The loop over the tables: it changes the views only; it registers the
    tables up to the first that cannot be read, and raises what reading that
    one raises. *)
Lemma load_tables_spec (dbs : Database) (tables : list string) :
  forall p r p',
    load_tables dbs tables p = (r, p') ->
    console p' = console p /\ environ p' = environ p /\
    session p' = session p /\
    ((forallb (readable dbs) tables = true /\ r = Next tt /\
      views p' = register_all tables (views p))
     \/
     (exists pre t post e,
        tables = pre ++ t :: post /\
        forallb (readable dbs) pre = true /\
        jdbc_error dbs ("public." ++ t)%string = Some e /\
        r = Stop (Raised e) /\
        views p' = register_all pre (views p))).
Proof.
  induction tables as [|t tables IH]; intros p r p' E;
    cbn [load_tables] in E.
  - unfold ret in E. inversion E; subst.
    split; [reflexivity|]. split; [reflexivity|]. split; [reflexivity|].
    left. auto.
  - destruct (jdbc_error dbs ("public." ++ t)%string) as [e|] eqn:Et.
    + unfold raise in E. inversion E; subst.
      split; [reflexivity|]. split; [reflexivity|]. split; [reflexivity|].
      right. exists [], t, tables, e. repeat split; auto.
    + unfold bind, register_view in E.
      match type of E with
      | load_tables dbs tables ?q = _ =>
          destruct (IH q r p' E) as (Hc & He & Hs & Hv)
      end.
      cbn [console environ session views] in Hc, He, Hs, Hv.
      split; [exact Hc|]. split; [exact He|]. split; [exact Hs|].
      destruct Hv as [(Hall & Hr & Hv)|(pre & t' & post & e & Ht & Hall & Hf
                                        & Hr & Hv)].
      * left. split; [|split; [exact Hr | exact Hv]].
        cbn [forallb]. unfold readable at 1. now rewrite Et.
      * right. exists (t :: pre), t', post, e.
        split; [now rewrite Ht|]. split; [|auto].
        cbn [forallb]. unfold readable at 1. now rewrite Et.
Qed.

(** The calls of [run_query]: with the views that the queries read
    registered, each prints its title, its table and the rule, until a query
    raises; the exception ends the run, and nothing but the console
    changes. *)
Lemma run_queries_spec (dbs : Database) (rs : list Report) :
  forall p,
    (forall r t, In r rs -> In t (tables_read r) -> In t (views p)) ->
    exists p',
      run_queries dbs rs p
        = (match first_query_error dbs rs with
           | Some e => Stop (Raised e)
           | None => Next tt
           end, p') /\
      views p' = views p /\ session p' = session p /\
      environ p' = environ p /\
      shown (console p')
        = shown (console p)
          ++ map (fun r => snd (run_report r (contents dbs)))
                 (reports_run dbs rs).
Proof.
  induction rs as [|r rs IH]; intros p Hviews.
  - exists p. simpl. rewrite !app_nil_r. repeat split.
  - assert (Hcheck :
      forallb (fun t => existsb (String.eqb t) (views p)) (tables_read r)
      = true).
    { apply forallb_forall. intros t Ht. apply existsb_exists.
      exists t. split; [|apply String.eqb_refl].
      apply (Hviews r t); [now left | assumption]. }
    cbn [run_queries first_query_error reports_run]. unfold bind at 1.
    unfold run_query_call, bind, print, spark_sql, show_result.
    cbn [views console environ session]. rewrite Hcheck.
    destruct (query_error dbs r) as [e|].
    + eexists. split; [reflexivity|].
      cbn [views console environ session map]. repeat split.
      rewrite shown_app. cbn [shown flat_map app]. reflexivity.
    + match goal with
      | |- exists p', run_queries dbs rs ?q = _ /\ _ =>
          destruct (IH q) as (p' & Hrun & Hv & Hs & He & Hsh)
      end.
      { cbn [views]. intros r' t Hr' Ht.
        apply (Hviews r' t); [now right|auto]. }
      cbn [views console environ session snd] in Hv, Hs, He, Hsh.
      exists p'. split; [exact Hrun|]. repeat split; try assumption.
      rewrite Hsh, !shown_app. cbn [shown flat_map map app].
      rewrite !app_nil_r, <- app_assoc. reflexivity.
Qed.

(** The Windows branch: it leaves the session, the views and the printed
    tables alone, and ends the run when winutils.exe is missing or PATH is
    not set. *)
Lemma hadoop_phase_spec (pf : Platform) (p : Process) r p' :
  (if String.eqb (os_name pf) "nt" then hadoop_setup pf else ret tt) p
    = (r, p') ->
  session p' = session p /\ views p' = views p /\
  shown (console p') = shown (console p) /\
  ((is_windows pf = false /\ r = Next tt /\
    forall k, environ p' k = environ p k)
   \/
   (is_windows pf = true /\
    os_path_exists pf (winutils_path pf) = false /\
    r = Stop (Exited 1) /\
    forall k, environ p' k = if String.eqb k "HADOOP_HOME"
                             then Some HADOOP_HOME_PATH else environ p k)
   \/
   (is_windows pf = true /\
    os_path_exists pf (winutils_path pf) = true /\
    environ p "PATH" = None /\
    r = Stop (Raised "KeyError") /\
    forall k, environ p' k = if String.eqb k "HADOOP_HOME"
                             then Some HADOOP_HOME_PATH else environ p k)
   \/
   (is_windows pf = true /\
    os_path_exists pf (winutils_path pf) = true /\
    exists old_path,
      environ p "PATH" = Some old_path /\
      r = Next tt /\
      forall k, environ p' k =
        if String.eqb k "PATH"
        then Some (hadoop_bin pf ++ os_pathsep pf ++ old_path)%string
        else if String.eqb k "HADOOP_HOME" then Some HADOOP_HOME_PATH
        else environ p k)).
Proof.
  unfold is_windows, winutils_path, hadoop_bin.
  destruct (String.eqb (os_name pf) "nt").
  - unfold hadoop_setup.
    unfold bind, print, setenv, getenv, sys_exit, ret.
    cbn [console environ session views].
    destruct (os_path_exists pf
                (os_path_join pf (os_path_join pf HADOOP_HOME_PATH "bin")
                              "winutils.exe"));
      cbn [negb console environ session views].
    + change (String.eqb "PATH" "HADOOP_HOME") with false. cbv iota.
      destruct (environ p "PATH") as [old_path|] eqn:Epath.
      * cbn [console environ session views].
        change (String.eqb "HADOOP_HOME" "PATH") with false.
        change (String.eqb "HADOOP_HOME" "HADOOP_HOME") with true.
        cbv iota. intros E. inversion E; subst; clear E.
        cbn [console environ session views].
        split; [reflexivity|]. split; [reflexivity|]. split.
        { rewrite !shown_app. cbn [shown flat_map app].
          now rewrite !app_nil_r. }
        right. right. right. split; [reflexivity|]. split; [reflexivity|].
        exists old_path. repeat split.
      * intros E. inversion E; subst; clear E.
        cbn [console environ session views].
        split; [reflexivity|]. split; [reflexivity|]. split.
        { rewrite !shown_app. cbn [shown flat_map app].
          now rewrite !app_nil_r. }
        right. right. left. repeat split.
    + intros E. inversion E; subst; clear E.
      cbn [console environ session views].
      split; [reflexivity|]. split; [reflexivity|]. split.
      { rewrite !shown_app. cbn [shown flat_map app].
        now rewrite !app_nil_r. }
      right. left. repeat split.
  - unfold ret. intros E. inversion E; subst.
    repeat split. left. repeat split.
Qed.

Lemma check_driver_spec (pf : Platform) (p : Process) r p' :
  check_driver pf p = (r, p') ->
  session p' = session p /\ views p' = views p /\
  environ p' = environ p /\ shown (console p') = shown (console p) /\
  ((os_path_exists pf (driver_path pf) = true /\ r = Next tt) \/
   (os_path_exists pf (driver_path pf) = false /\ r = Stop (Exited 1))).
Proof.
  unfold check_driver.
  destruct (os_path_exists pf (driver_path pf)); cbn [negb].
  - unfold ret. intros E. inversion E; subst. repeat split. now left.
  - unfold bind, print, sys_exit. intros E. inversion E; subst; clear E.
    cbn [console environ session views].
    repeat split.
    + rewrite shown_app. cbn [shown flat_map app]. now rewrite app_nil_r.
    + now right.
Qed.

Lemma start_session_spec (pf : Platform) (p : Process) r p' :
  start_session pf p = (r, p') ->
  r = Next tt /\ views p' = views p /\ environ p' = environ p /\
  shown (console p') = shown (console p) /\
  session p' = Running "Pagila SQL Analysis"
                 [("spark.jars", driver_path pf);
                  ("spark.driver.extraClassPath", driver_path pf)].
Proof.
  unfold start_session, bind, print, set_session.
  intros E. inversion E; subst; clear E.
  cbn [console environ session views]. repeat split.
  rewrite shown_app. cbn [shown flat_map app]. now rewrite app_nil_r.
Qed.

(** Loading under [try]: either every table is read and registered, or the
    first failure is reported, the session is stopped and the run exits
    with status 1. *)
Lemma load_all_spec (dbs : Database) (p : Process) r p' :
  load_all dbs p = (r, p') ->
  environ p' = environ p /\ shown (console p') = shown (console p) /\
  ((forallb (readable dbs) tables_to_load = true /\ r = Next tt /\
    views p' = register_all tables_to_load (views p) /\
    session p' = session p)
   \/
   (exists pre t post e,
      tables_to_load = pre ++ t :: post /\
      forallb (readable dbs) pre = true /\
      jdbc_error dbs ("public." ++ t)%string = Some e /\
      r = Stop (Exited 1) /\
      views p' = register_all pre (views p) /\
      session p' = Stopped /\
      In (load_error_message e) (printed (console p')))).
Proof.
  unfold load_all, try_except. unfold bind at 1 2. unfold print at 1.
  match goal with
  | |- context [load_tables dbs tables_to_load ?q] =>
      destruct (load_tables dbs tables_to_load q) as [r1 p1] eqn:E1
  end.
  apply load_tables_spec in E1.
  cbn [console environ session views] in E1.
  destruct E1 as (Hc & He & Hs & [(Hall & -> & Hv)|
                                  (pre & t & post & e & Ht & Hall & Hf
                                   & -> & Hv)]).
  - unfold print. intros E. inversion E; subst; clear E.
    cbn [console environ session views].
    split; [exact He|]. split.
    + rewrite shown_app, Hc, shown_app. cbn [shown flat_map app].
      now rewrite !app_nil_r.
    + left. auto.
  - unfold bind, print, set_session, sys_exit.
    intros E. inversion E; subst; clear E.
    cbn [console environ session views].
    split; [exact He|]. split.
    + rewrite !shown_app, Hc, shown_app. cbn [shown flat_map app].
      now rewrite !app_nil_r.
    + right. exists pre, t, post, e. repeat split; try assumption.
      rewrite !printed_app. cbn [printed flat_map app].
      apply in_or_app. left. apply in_or_app. right. now left.
Qed.

Lemma run_all_spec (dbs : Database) (p : Process) :
  (forall r t, In r reports -> In t (tables_read r) -> In t (views p)) ->
  exists p',
    run_all dbs p
      = (match first_query_error dbs reports with
         | Some e => Stop (Raised e)
         | None => Next tt
         end, p') /\
    session p' = match first_query_error dbs reports with
                 | Some _ => session p
                 | None => Stopped
                 end /\
    views p' = views p /\
    environ p' = environ p /\
    shown (console p')
      = shown (console p)
        ++ map (fun r => snd (run_report r (contents dbs)))
               (reports_run dbs reports).
Proof.
  intros Hviews.
  destruct (run_queries_spec dbs reports p Hviews)
    as (p1 & Hrun & Hv & Hs & He & Hsh).
  unfold run_all. unfold bind at 1. rewrite Hrun.
  destruct (first_query_error dbs reports) as [e|].
  - exists p1. split; [reflexivity|]. repeat split; assumption.
  - unfold bind, print, set_session.
    eexists. split; [reflexivity|].
    cbn [console environ session views]. repeat split; try assumption.
    rewrite shown_app, Hsh. cbn [shown flat_map app]. now rewrite app_nil_r.
Qed.

(** Every view that a query reads is loaded. *)
Lemma reports_read_loaded_tables (r : Report) (t : string) :
  In r reports -> In t (tables_read r) -> In t tables_to_load.
Proof.
  intros _. destruct r; simpl; intuition (subst; auto 12).
Qed.

(** The ways a run can go, with the state each leaves. *)
Lemma main_outcome (pf : Platform) (dbs : Database) :
  (forall k, environ (snd (run pf dbs)) k = environ_after pf k) /\
  ((is_windows pf = true /\
    os_path_exists pf (winutils_path pf) = false /\
    fst (run pf dbs) = Exited 1 /\
    session (snd (run pf dbs)) = NoSession /\
    views (snd (run pf dbs)) = [] /\
    shown (console (snd (run pf dbs))) = [])
   \/
   (is_windows pf = true /\
    os_path_exists pf (winutils_path pf) = true /\
    os_environ pf "PATH" = None /\
    fst (run pf dbs) = Raised "KeyError" /\
    session (snd (run pf dbs)) = NoSession /\
    views (snd (run pf dbs)) = [] /\
    shown (console (snd (run pf dbs))) = [])
   \/
   (hadoop_passes pf /\
    os_path_exists pf (driver_path pf) = false /\
    fst (run pf dbs) = Exited 1 /\
    session (snd (run pf dbs)) = NoSession /\
    views (snd (run pf dbs)) = [] /\
    shown (console (snd (run pf dbs))) = [])
   \/
   (hadoop_passes pf /\
    os_path_exists pf (driver_path pf) = true /\
    (exists pre t post e,
       tables_to_load = pre ++ t :: post /\
       forallb (readable dbs) pre = true /\
       jdbc_error dbs ("public." ++ t)%string = Some e /\
       views (snd (run pf dbs)) = pre /\
       In (load_error_message e) (printed (console (snd (run pf dbs))))) /\
    fst (run pf dbs) = Exited 1 /\
    session (snd (run pf dbs)) = Stopped /\
    shown (console (snd (run pf dbs))) = [])
   \/
   (hadoop_passes pf /\
    os_path_exists pf (driver_path pf) = true /\
    forallb (readable dbs) tables_to_load = true /\
    fst (run pf dbs) = match first_query_error dbs reports with
                       | Some e => Raised e
                       | None => Returned
                       end /\
    session (snd (run pf dbs))
      = match first_query_error dbs reports with
        | Some _ => Running "Pagila SQL Analysis"
                      [("spark.jars", driver_path pf);
                       ("spark.driver.extraClassPath", driver_path pf)]%string
        | None => Stopped
        end /\
    views (snd (run pf dbs)) = tables_to_load /\
    shown (console (snd (run pf dbs)))
      = map (fun r => snd (run_report r (contents dbs)))
            (reports_run dbs reports))).
Proof.
  unfold run.
  destruct (main pf dbs (start pf)) as [r p] eqn:E.
  unfold main in E. unfold bind at 1 in E.
  destruct ((if String.eqb (os_name pf) "nt" then hadoop_setup pf else ret tt)
              (start pf)) as [r1 p1] eqn:E1.
  apply hadoop_phase_spec in E1.
  cbn [start console environ session views shown flat_map] in E1.
  destruct E1 as (Hs1 & Hv1 & Hsh1 & Hcase).
  assert (Henv1 : forall k, environ p1 k = environ_after pf k).
  { intros k. unfold environ_after.
    destruct Hcase as [(Hw & _ & He) | [(Hw & Hx & _ & He)
                      | [(Hw & Hx & Hp & _ & He)
                      | (Hw & Hx & old & Hp & _ & He)]]];
      rewrite Hw, He; try reflexivity;
      (destruct (String.eqb k "PATH") eqn:Ek; [|reflexivity]);
      apply String.eqb_eq in Ek; subst k;
      rewrite Hx; try rewrite Hp;
      change (String.eqb "PATH" "HADOOP_HOME") with false; cbv iota;
      try reflexivity. }
  destruct Hcase as [(Hw & -> & _)|[(Hw & Hx & -> & _)|[(Hw & Hx & Hp & -> & _)
                    |(Hw & Hx & old & Hp & -> & _)]]].
  2:{ injection E as <- <-. cbn [fst snd].
      split; [exact Henv1|]. left. auto 10. }
  2:{ injection E as <- <-. cbn [fst snd].
      split; [exact Henv1|]. right. left. auto 10. }
  all: assert (Hpass : hadoop_passes pf)
         by (unfold hadoop_passes; eauto 10).
  all: unfold bind at 1 in E;
    destruct (check_driver pf p1) as [r2 p2] eqn:E2;
    apply check_driver_spec in E2;
    destruct E2 as (Hs2 & Hv2 & He2 & Hsh2 & [(Hd & ->)|(Hd & ->)]).
  2,4: injection E as <- <-; cbn [fst snd]; split;
    [intros k; rewrite He2; apply Henv1|];
    right; right; left; repeat split; congruence.
  all: unfold bind at 1 in E;
    destruct (start_session pf p2) as [r3 p3] eqn:E3;
    apply start_session_spec in E3;
    destruct E3 as (-> & Hv3 & He3 & Hsh3 & Hs3);
    unfold bind at 1 in E;
    destruct (load_all dbs p3) as [r4 p4] eqn:E4;
    apply load_all_spec in E4;
    destruct E4 as (He4 & Hsh4 & [(Hall & -> & Hv4 & Hs4)|
                                  (pre & t & post & e & Ht & Hall & Hf & ->
                                   & Hv4 & Hs4 & Hin)]).
  2,4: injection E as <- <-; cbn [fst snd]; split;
    [intros k; rewrite He4, He3, He2; apply Henv1|];
    right; right; right; left;
    (split; [exact Hpass|]); (split; [exact Hd|]);
    (split; [|split; [reflexivity|split; [exact Hs4|congruence]]]);
    exists pre, t, post, e; repeat split; try assumption;
    rewrite Hv4, Hv3, Hv2, Hv1;
    apply (register_all_fresh pre []); cbn [app];
    assert (Hnd : NoDup tables_to_load)
      by (unfold tables_to_load; repeat constructor; simpl;
          intuition discriminate);
    rewrite Ht in Hnd; now apply NoDup_app_remove_r in Hnd.
  all: assert (Hv : views p4 = tables_to_load)
         by (rewrite Hv4, Hv3, Hv2, Hv1; reflexivity);
    destruct (run_all_spec dbs p4)
      as (p5 & Hrun & Hs5 & Hv5 & He5 & Hsh5);
    [intros r' t Hr Htr; rewrite Hv;
     now apply (reports_read_loaded_tables r')|];
    rewrite Hrun in E;
    assert (Hst : fst (let (s0, q) := (r, p) in
                       match s0 with
                       | Next _ => (Returned, q)
                       | Stop s => (s, q)
                       end)
                  = match first_query_error dbs reports with
                    | Some e => Raised e
                    | None => Returned
                    end /\
                  snd (let (s0, q) := (r, p) in
                       match s0 with
                       | Next _ => (Returned, q)
                       | Stop s => (s, q)
                       end) = p5)
      by (destruct (first_query_error dbs reports);
          injection E as <- <-; split; reflexivity);
    destruct Hst as [Hst Hp5]; rewrite Hst, Hp5; split;
    [intros k; rewrite He5, He4, He3, He2; apply Henv1|];
    right; right; right; right;
    (split; [exact Hpass|]); (split; [exact Hd|]); (split; [exact Hall|]);
    (split; [reflexivity|]);
    (split; [rewrite Hs5, Hs4, Hs3; reflexivity|]);
    (split; [congruence|]);
    rewrite Hsh5, Hsh4, Hsh3, Hsh2, Hsh1; reflexivity.
Qed.

(** The first element of a list that fails a test is determined. *)
Lemma first_failure_unique {A} (f : A -> bool) (pre pre' post post' : list A)
      (t t' : A) :
  pre ++ t :: post = pre' ++ t' :: post' ->
  forallb f pre = true -> f t = false ->
  forallb f pre' = true -> f t' = false ->
  pre = pre' /\ t = t'.
Proof.
  revert pre'. induction pre as [|a pre IH]; intros [|a' pre'] E Hp Ht Hp' Ht';
    cbn [app forallb] in *.
  - injection E as -> _. now split.
  - injection E as <- _. apply andb_true_iff in Hp'. destruct Hp'. congruence.
  - injection E as -> _. apply andb_true_iff in Hp. destruct Hp. congruence.
  - injection E as <- E. apply andb_true_iff in Hp. apply andb_true_iff in Hp'.
    destruct (IH pre' E) as [-> ->]; tauto.
Qed.

Lemma forallb_first_failure {A} (f : A -> bool) (pre post : list A) (t : A) :
  f t = false -> forallb f (pre ++ t :: post) = false.
Proof.
  intros Ht. rewrite forallb_app. cbn [forallb]. rewrite Ht.
  now rewrite andb_false_r.
Qed.

Lemma not_readable (dbs : Database) (t e : string) :
  jdbc_error dbs ("public." ++ t)%string = Some e -> readable dbs t = false.
Proof. unfold readable. now intros ->. Qed.

Lemma hadoop_passes_tests (pf : Platform) :
  hadoop_passes pf ->
  is_windows pf && negb (os_path_exists pf (winutils_path pf)) = false /\
  is_windows pf && match os_environ pf "PATH" with
                   | None => true
                   | Some _ => false
                   end = false.
Proof.
  intros [Hw | (Hw & Hx & old & Hp)]; rewrite Hw; [now split|].
  rewrite Hx, Hp. now split.
Qed.

(** X13. The exit status of [main] is decided by five tests, in this order:
    on Windows a missing winutils.exe gives exit status 1, and an unset PATH
    the KeyError of [os.environ['PATH']]; a missing driver file gives exit
    status 1; a table that cannot be read gives exit status 1; a query that
    raises ends [main] with its exception, which nothing catches; otherwise
    [main] returns. *)
Theorem main_exit_status (pf : Platform) (dbs : Database) :
  fst (run pf dbs) =
    if is_windows pf && negb (os_path_exists pf (winutils_path pf))
    then Exited 1
    else if is_windows pf && match os_environ pf "PATH" with
                             | None => true
                             | Some _ => false
                             end
    then Raised "KeyError"
    else if negb (os_path_exists pf (driver_path pf)) then Exited 1
    else if forallb (readable dbs) tables_to_load
    then match first_query_error dbs reports with
         | Some e => Raised e
         | None => Returned
         end
    else Exited 1.
Proof.
  destruct (main_outcome pf dbs) as
    [_ [(Hw & Hx & -> & _) | [(Hw & Hx & Hp & -> & _)
     | [(Hpass & Hd & -> & _) | [(Hpass & Hd & Hload & -> & _)
     | (Hpass & Hd & Hall & -> & _)]]]]].
  - now rewrite Hw, Hx.
  - now rewrite Hw, Hx, Hp.
  - destruct (hadoop_passes_tests pf Hpass) as [-> ->]. now rewrite Hd.
  - destruct (hadoop_passes_tests pf Hpass) as [-> ->]. rewrite Hd.
    destruct Hload as (pre & t & post & e & -> & _ & Hf & _).
    rewrite (forallb_first_failure _ _ _ _ (not_readable _ _ _ Hf)).
    reflexivity.
  - destruct (hadoop_passes_tests pf Hpass) as [-> ->]. now rewrite Hd, Hall.
Qed.

(** X14. The Spark session when [main] ends.  No session was created if
    the Windows branch fails or the driver file is missing.  A table that
    cannot be read, and the end of [main], stop the session.  A query that
    raises leaves the session running: the calls of [run_query] are under no
    [try], so [spark.stop()] in the last line is not reached. *)
Theorem main_session_at_exit (pf : Platform) (dbs : Database) :
  session (snd (run pf dbs)) =
    if is_windows pf && negb (os_path_exists pf (winutils_path pf))
    then NoSession
    else if is_windows pf && match os_environ pf "PATH" with
                             | None => true
                             | Some _ => false
                             end
    then NoSession
    else if negb (os_path_exists pf (driver_path pf)) then NoSession
    else if forallb (readable dbs) tables_to_load
    then match first_query_error dbs reports with
         | Some _ =>
             Running "Pagila SQL Analysis"
               [("spark.jars", driver_path pf);
                ("spark.driver.extraClassPath", driver_path pf)]%string
         | None => Stopped
         end
    else Stopped.
Proof.
  destruct (main_outcome pf dbs) as
    [_ [(Hw & Hx & _ & -> & _) | [(Hw & Hx & Hp & _ & -> & _)
     | [(Hpass & Hd & _ & -> & _) | [(Hpass & Hd & Hload & _ & -> & _)
     | (Hpass & Hd & Hall & _ & -> & _)]]]]].
  - now rewrite Hw, Hx.
  - now rewrite Hw, Hx, Hp.
  - destruct (hadoop_passes_tests pf Hpass) as [-> ->]. now rewrite Hd.
  - destruct (hadoop_passes_tests pf Hpass) as [-> ->]. rewrite Hd.
    destruct Hload as (pre & t & post & e & -> & _ & Hf & _).
    rewrite (forallb_first_failure _ _ _ _ (not_readable _ _ _ Hf)).
    reflexivity.
  - destruct (hadoop_passes_tests pf Hpass) as [-> ->]. now rewrite Hd, Hall.
Qed.


(** X16. The tables [main] shows are those of the first reports, in the
    order of the source, up to the first query that raises: the k-th table
    shown holds the first twenty rows of a result that the k-th query admits
    on the rows of the database.  Nothing is shown if the Windows branch
    fails, the driver file is missing or a table cannot be read.  [main]
    returns exactly when the tables of all seven reports were shown. *)
Theorem main_shows_reports_in_order (pf : Platform) (dbs : Database) :
  Forall2 (fun r x => shows r (contents dbs) x)
    (if is_windows pf && negb (os_path_exists pf (winutils_path pf))
     then []
     else if is_windows pf && match os_environ pf "PATH" with
                              | None => true
                              | Some _ => false
                              end
     then []
     else if negb (os_path_exists pf (driver_path pf)) then []
     else if forallb (readable dbs) tables_to_load
     then reports_run dbs reports
     else [])
    (shown (console (snd (run pf dbs)))) /\
  (fst (run pf dbs) = Returned <->
   map report_of (shown (console (snd (run pf dbs)))) = reports).
Proof.
  assert (Hmap : forall rs,
    map report_of (map (fun r => snd (run_report r (contents dbs))) rs) = rs).
  { intros rs. rewrite map_map. rewrite <- (map_id rs) at 2.
    apply map_ext. intros r. apply report_of_run_report. }
  destruct (main_outcome pf dbs) as
    [_ [(Hw & Hx & -> & _ & _ & ->) | [(Hw & Hx & Hp & -> & _ & _ & ->)
     | [(Hpass & Hd & -> & _ & _ & ->) | [(Hpass & Hd & Hload & -> & _ & ->)
     | (Hpass & Hd & Hall & -> & _ & _ & ->)]]]]].
  - rewrite Hw, Hx. cbn [andb negb map].
    split; [constructor | split; discriminate].
  - rewrite Hw, Hx, Hp. cbn [andb negb map].
    split; [constructor | split; discriminate].
  - destruct (hadoop_passes_tests pf Hpass) as [-> ->]. rewrite Hd.
    cbn [negb map]. split; [constructor | split; discriminate].
  - destruct (hadoop_passes_tests pf Hpass) as [-> ->]. rewrite Hd.
    destruct Hload as (pre & t & post & e & -> & _ & Hf & _).
    rewrite (forallb_first_failure _ _ _ _ (not_readable _ _ _ Hf)).
    cbn [negb map]. split; [constructor | split; discriminate].
  - destruct (hadoop_passes_tests pf Hpass) as [-> ->]. rewrite Hd, Hall.
    cbn [negb]. split.
    + induction (reports_run dbs reports) as [|r rs IH]; cbn [map];
        constructor; [apply shows_run_report | exact IH].
    + rewrite Hmap. rewrite <- reports_run_all.
      destruct (first_query_error dbs reports); split;
        congruence || discriminate.
Qed.

(** X17. A table that cannot be read ends the run: if the Windows branch
    passes, the driver file exists, the tables before [t] in [tables_to_load]
    are read and reading [t] raises [e], then the views registered are those
    before [t], the message with [e] is printed, the session is stopped, no
    report is shown and the exit status is 1. *)
Theorem main_load_failure (pf : Platform) (dbs : Database)
        (pre post : list string) (t e : string) :
  hadoop_passes pf ->
  os_path_exists pf (driver_path pf) = true ->
  tables_to_load = pre ++ t :: post ->
  forallb (readable dbs) pre = true ->
  jdbc_error dbs ("public." ++ t)%string = Some e ->
  fst (run pf dbs) = Exited 1 /\
  views (snd (run pf dbs)) = pre /\
  session (snd (run pf dbs)) = Stopped /\
  shown (console (snd (run pf dbs))) = [] /\
  In (load_error_message e) (printed (console (snd (run pf dbs)))).
Proof.
  intros Hpass Hd Ht Hpre He.
  destruct (hadoop_passes_tests pf Hpass) as [H1 H2].
  destruct (main_outcome pf dbs) as
    [_ [(Hw & Hx & _) | [(Hw & Hx & Hp & _)
     | [(_ & Hd' & _) | [(_ & _ & Hload & Hst & Hs & Hsh)
     | (_ & _ & Hall & _)]]]]].
  - rewrite Hw, Hx in H1. discriminate.
  - rewrite Hw, Hp in H2. discriminate.
  - congruence.
  - destruct Hload as (pre' & t' & post' & e' & Ht' & Hpre' & He' & Hv & Hin).
    rewrite Ht in Ht'.
    destruct (first_failure_unique (readable dbs) _ _ _ _ _ _ Ht' Hpre
                (not_readable _ _ _ He) Hpre' (not_readable _ _ _ He'))
      as [<- <-].
    assert (e' = e) by congruence. subst e'. auto.
  - rewrite Ht in Hall.
    rewrite (forallb_first_failure _ _ _ _ (not_readable _ _ _ He)) in Hall.
    discriminate.
Qed.

Lemma main_load_failure_witness :
  fst (run linux database_without_film) = Exited 1 /\
  views (snd (run linux database_without_film))
    = ["actor"; "category"]%string /\
  session (snd (run linux database_without_film)) = Stopped /\
  shown (console (snd (run linux database_without_film))) = [] /\
  In (load_error_message "relation does not exist")
     (printed (console (snd (run linux database_without_film)))).
Proof.
  apply (main_load_failure linux database_without_film
           ["actor"; "category"]%string
           ["film_actor"; "film_category"; "inventory"; "rental"; "payment";
            "customer"; "address"; "city"]%string
           "film" "relation does not exist").
  - left. reflexivity.
  - reflexivity.
  - reflexivity.
  - reflexivity.
  - reflexivity.
Defined.

(** X18. [main] loads exactly the tables that the seven queries read: every
    table named in a query is in [tables_to_load], so no query meets a view
    that was not registered, and every table of [tables_to_load] is read by
    some query. *)
Theorem loaded_tables_are_the_tables_read (t : string) :
  In t tables_to_load <-> exists r, In r reports /\ In t (tables_read r).
Proof.
  split.
  - unfold tables_to_load. cbn [In].
    intros [<- | [<- | [<- | [<- | [<- | [<- | [<- | [<- | [<- | [<- | [<-
           | []]]]]]]]]]]].
    + exists R2. cbn. tauto.
    + exists R1. cbn. tauto.
    + exists R4. cbn. tauto.
    + exists R2. cbn. tauto.
    + exists R1. cbn. tauto.
    + exists R2. cbn. tauto.
    + exists R2. cbn. tauto.
    + exists R3. cbn. tauto.
    + exists R6. cbn. tauto.
    + exists R6. cbn. tauto.
    + exists R6. cbn. tauto.
  - intros (r & Hr & Ht). exact (reports_read_loaded_tables r t Hr Ht).
Qed.

(** A run on Linux in which the database is lost at the third query: the
    exception ends [main], the tables of the first two reports were shown
    and the session is left running. *)
Example run_lost_at_query_3 :
  fst (run linux database_lost_at_query_3) = Raised "connection lost" /\
  map report_of (shown (console (snd (run linux database_lost_at_query_3))))
    = [R1; R2] /\
  session (snd (run linux database_lost_at_query_3))
    = Running "Pagila SQL Analysis"
        [("spark.jars", "/app/postgresql-42.7.8.jar");
         ("spark.driver.extraClassPath", "/app/postgresql-42.7.8.jar")]%string.
Proof. vm_compute. repeat split. Qed.

Transparent run_report.
